(** * NeuraAI gateway (main.py): reply orchestration, event recording,
      chat handler and admin guard.

    A shallow embedding of the request path of [main.py]: Python values are
    a small inductive type, the outside world (HTTP services, the local
    modules, the OpenAI client, the file system, the database, the clock)
    is a record of oracles, and every function is a state-and-exception
    computation over a journal of the effects it performed. *)

From Stdlib Require Import String Ascii List ZArith Bool Arith Lia.
From Stdlib Require Import DecimalString Sorted Permutation.
Import ListNotations.
Open Scope string_scope.
Open Scope list_scope.
Open Scope nat_scope.
Local Set Warnings "-register-all".

(** ** Python values *)

(** The JSON-shaped fragment of Python values that flows through the
    handlers.  A [float] is kept to three decimals ([PFloat 1500] is 1.5),
    which is what [round(x, 3)] produces for the latency. *)
Inductive pyval : Type :=
| PNone
| PBool (b : bool)
| PInt (n : Z)
| PFloat (thousandths : Z)
| PStr (s : string)
| PList (l : list pyval)
| PDict (d : list (string * pyval)).

(** Python truthiness, as used by [if x], [not x], [a or b] and [bool(x)]. *)
Definition truthy (v : pyval) : bool :=
  match v with
  | PNone => false
  | PBool b => b
  | PInt n => negb (Z.eqb n 0)
  | PFloat n => negb (Z.eqb n 0)
  | PStr s => negb (String.eqb s EmptyString)
  | PList l => match l with [] => false | _ => true end
  | PDict d => match d with [] => false | _ => true end
  end.

(** [a or b]. *)
Definition py_or (a b : pyval) : pyval := if truthy a then a else b.

(** [v == "s"] for a string literal. *)
Definition py_eq_str (v : pyval) (s : string) : bool :=
  match v with
  | PStr t => String.eqb t s
  | _ => false
  end.

(** Lookup in a dict kept as an association list; the first binding of a
    key is the live one. *)
Fixpoint dict_get (d : list (string * pyval)) (k : string) : option pyval :=
  match d with
  | [] => None
  | (k', v) :: rest => if String.eqb k' k then Some v else dict_get rest k
  end.

(** [d[k] = v]: overwrite in place, or append a new key. *)
Fixpoint dict_set (d : list (string * pyval)) (k : string) (v : pyval)
  : list (string * pyval) :=
  match d with
  | [] => [(k, v)]
  | (k', v') :: rest =>
      if String.eqb k' k then (k', v) :: rest else (k', v') :: dict_set rest k v
  end.

Definition has_key (d : list (string * pyval)) (k : string) : bool :=
  match dict_get d k with
  | Some _ => true
  | None => false
  end.

(** ** Strings *)

Module Str.

(** [s.isascii()]. *)
Fixpoint is_ascii (s : string) : bool :=
  match s with
  | EmptyString => true
  | String c t => (nat_of_ascii c <? 128) && is_ascii t
  end.

(** [str.lower] on the ASCII range; other bytes are left alone.  On ASCII
    text this is [s.lower()].  On other text the letters outside ASCII keep
    their case here; the tests [simple_fallback_reply] and
    [get_health_advice] make on a lowered text come out the same, since they
    look for ASCII words that have no "k" in them and no "i" that a combining
    mark could follow (the only characters whose lower case reaches into
    ASCII are U+212A, which gives "k", and U+0130, which gives "i" and
    U+0307).  Where the lowered text itself is the result, the statements
    are about ASCII text. *)
Definition lower_char (c : ascii) : ascii :=
  let n := nat_of_ascii c in
  if (65 <=? n) && (n <=? 90) then ascii_of_nat (n + 32) else c.

Fixpoint lower (s : string) : string :=
  match s with
  | EmptyString => EmptyString
  | String c t => String (lower_char c) (lower t)
  end.

(** [str.isspace] for one character of the ASCII range. *)
Definition is_space (c : ascii) : bool :=
  let n := nat_of_ascii c in
  ((9 <=? n) && (n <=? 13)) || ((28 <=? n) && (n <=? 32)).

(** A continuation byte of UTF-8. *)
Definition is_cont (c : ascii) : bool :=
  let n := nat_of_ascii c in
  (128 <=? n) && (n <=? 191).

(** The characters of a str.  A str is kept as its UTF-8 text, so a
    character is the byte that starts it and the continuation bytes that
    follow. *)
Fixpoint chars (s : string) : list string :=
  match s with
  | EmptyString => []
  | String c t =>
      let rest := chars t in
      match t with
      | String c1 _ =>
          if is_cont c1 then
            match rest with
            | h :: r => String c h :: r
            | [] => [String c EmptyString]
            end
          else String c EmptyString :: rest
      | EmptyString => [String c EmptyString]
      end
  end.

(** [ch.isspace()] for one character: the ASCII ones, and U+0085, U+00A0,
    U+1680, U+2000 to U+200A, U+2028, U+2029, U+202F, U+205F and U+3000. *)
Definition is_space_char (ch : string) : bool :=
  match ch with
  | String c EmptyString => is_space c
  | String c (String c1 EmptyString) =>
      (nat_of_ascii c =? 194)
      && ((nat_of_ascii c1 =? 133) || (nat_of_ascii c1 =? 160))
  | String c (String c1 (String c2 EmptyString)) =>
      let n := nat_of_ascii c in
      let n1 := nat_of_ascii c1 in
      let n2 := nat_of_ascii c2 in
      ((n =? 225) && (n1 =? 154) && (n2 =? 128))
      || ((n =? 226) && (n1 =? 128)
          && (((128 <=? n2) && (n2 <=? 138)) || (n2 =? 168) || (n2 =? 169) || (n2 =? 175)))
      || ((n =? 226) && (n1 =? 129) && (n2 =? 159))
      || ((n =? 227) && (n1 =? 128) && (n2 =? 128))
  | _ => false
  end.

Fixpoint drop_while {A} (p : A -> bool) (l : list A) : list A :=
  match l with
  | [] => []
  | x :: rest => if p x then drop_while p rest else l
  end.

Fixpoint join (l : list string) : string :=
  match l with
  | [] => EmptyString
  | x :: rest => (x ++ join rest)%string
  end.

(** Drop the trailing characters that satisfy [p]. *)
Fixpoint rstrip_by (p : ascii -> bool) (s : string) : string :=
  match s with
  | EmptyString => EmptyString
  | String c t =>
      match rstrip_by p t with
      | EmptyString => if p c then EmptyString else String c EmptyString
      | t' => String c t'
      end
  end.

(** [s.strip()]: the leading and the trailing whitespace characters go. *)
Definition strip (s : string) : string :=
  join (rev (drop_while is_space_char (rev (drop_while is_space_char (chars s))))).

(** [s.rstrip("/")]. *)
Definition rstrip_slash (s : string) : string :=
  rstrip_by (fun c => Ascii.eqb c "/"%char) s.

(** [needle in hay]. *)
Fixpoint contains (needle hay : string) : bool :=
  if String.prefix needle hay then true
  else match hay with
       | EmptyString => false
       | String _ t => contains needle t
       end.

(** [s.startswith(p)]. *)
Definition startswith (p s : string) : bool := String.prefix p s.

(** [s.split(" ", 1)]: the pieces before and after the first space; a
    string without a space is returned whole. *)
Fixpoint split_space_once (s : string) : list string :=
  match s with
  | EmptyString => [EmptyString]
  | String c t =>
      if Ascii.eqb c " "%char then [EmptyString; t]
      else match split_space_once t with
           | [] => [String c EmptyString]
           | h :: rest => String c h :: rest
           end
  end.

Definition digit (n : nat) : string :=
  String (ascii_of_nat (48 + n mod 10)) EmptyString.

(** Zero-padded decimal fields of [strftime]. *)
Definition pad2 (n : nat) : string := (digit (n / 10) ++ digit n)%string.
Definition pad4 (n : nat) : string :=
  (digit (n / 1000) ++ digit (n / 100) ++ digit (n / 10) ++ digit n)%string.

End Str.

(** ** Exceptions, effects and the world *)

(** A raised exception: its class and its message ([str(e)]). *)
Inductive exn : Type := Exn (cls : string) (msg : string).

Definition exn_str (e : exn) : string := match e with Exn _ m => m end.

(** A [datetime] as returned by [datetime.utcnow()]. *)
Record datetime : Type := mkDatetime {
  dt_year : nat; dt_month : nat; dt_day : nat;
  dt_hour : nat; dt_minute : nat; dt_second : nat
}.

(** [dt.strftime('%Y-%m-%d %H:%M:%S UTC')]. *)
Definition strftime_utc (t : datetime) : string :=
  (Str.pad4 (dt_year t) ++ "-" ++ Str.pad2 (dt_month t) ++ "-" ++ Str.pad2 (dt_day t)
   ++ " " ++ Str.pad2 (dt_hour t) ++ ":" ++ Str.pad2 (dt_minute t) ++ ":"
   ++ Str.pad2 (dt_second t) ++ " UTC")%string.

(** Everything the gateway does to the outside, in the order it happens. *)
Inductive effect : Type :=
| EPost (url : string) (payload : pyval)            (* requests.post(url, json=payload) *)
| ELocalAi (fn : string) (args : list pyval)        (* local_ai.<fn>(...) *)
| ELocalVoice (fn : string) (args : list pyval)     (* local_voice.<fn>(...) *)
| EOpenAIChat (model : string) (prompt : pyval)     (* openai.chat.completions.create *)
| EOpenAICompletion (model : string) (prompt : pyval) (* openai.Completion.create *)
| EFileAppend (line : pyval) (ok : bool)            (* open(events.log, "a").write(...) *)
| EDbEvent (ty : pyval) (payload : pyval) (ok : bool) (* Event row add + commit *)
| EDbChatLog (user prompt response latency : pyval) (ok : bool) (* ChatLog row add + commit *)
| ELog (level : string) (msg : string)              (* logger.<level>(msg) *)
| ETime                                               (* time.time() *)
| EUtcNow                                             (* datetime.utcnow() *)
| EHandler (name : string).                           (* a wrapped view function ran *)

(** The world is the journal of effects so far, oldest first. *)
Definition World : Type := list effect.

Definition is_post (e : effect) : bool :=
  match e with EPost _ _ => true | _ => false end.
Definition is_local (e : effect) : bool :=
  match e with ELocalAi _ _ | ELocalVoice _ _ => true | _ => false end.
Definition is_openai (e : effect) : bool :=
  match e with EOpenAIChat _ _ | EOpenAICompletion _ _ => true | _ => false end.
Definition is_file (e : effect) : bool :=
  match e with EFileAppend _ _ => true | _ => false end.
Definition is_db (e : effect) : bool :=
  match e with EDbEvent _ _ _ | EDbChatLog _ _ _ _ _ => true | _ => false end.
Definition is_clock (e : effect) : bool :=
  match e with ETime | EUtcNow => true | _ => false end.
Definition is_chatlog (e : effect) : bool :=
  match e with EDbChatLog _ _ _ _ _ => true | _ => false end.
Definition is_storage (e : effect) : bool := is_file e || is_db e.

(** How many effects of one kind the journal holds. *)
Definition count (p : effect -> bool) (w : World) : nat := length (filter p w).

(** The lines of [data/events.log]: the appends that went through. *)
Definition events_file (w : World) : list pyval :=
  flat_map (fun e => match e with EFileAppend l true => [l] | _ => [] end) w.

(** A Python callable of a local module: it sees how many module calls came
    before it, and either raises or returns. *)
Definition pyfun : Type := nat -> list pyval -> exn + pyval.

(** [ai_engine], as far as the gateway probes it with [hasattr]. *)
Record AiModule : Type := mkAiModule {
  ai_generate : option pyfun;
  generate_reply : option pyfun;
  chat : option pyfun;
  ai_generate_openai : option pyfun;
  openai_generate : option pyfun;
  crypto_summary : option pyfun
}.

(** [ai_voice_assistant] / [voice_assistant]. *)
Record VoiceModule : Type := mkVoiceModule {
  speak_text : option pyfun
}.

(** What [openai.chat.completions.create] can hand back. *)
Inductive chat_result : Type :=
| ChatRaise (e : exn)
    (* the call raised *)
| ChatObject (content : exn + string)
    (* a truthy response object with truthy [.choices]; [content] is what
       [resp.choices[0].message.content.strip()] evaluates to *)
| ChatValue (v : pyval).
    (* a plain value without a [choices] attribute *)

(** Configuration read at import time, and the oracles for the outside. *)
Record Env : Type := mkEnv {
  AI_SERVICE_URL : option string;
  VOICE_SERVICE_URL : option string;
  NEURA_ADMIN_TOKEN : string;
  OPENAI_API_KEY : string;
  NEURA_MODEL : string;
  local_ai : option AiModule;
  local_voice : option VoiceModule;
  (* requests.post + raise_for_status + r.json(), at the n-th POST *)
  http_post : nat -> string -> pyval -> exn + pyval;
  (* import openai *)
  openai_installed : bool;
  openai_chat : nat -> string -> pyval -> chat_result;
  (* openai.Completion.create followed by resp.choices[0].text.strip() *)
  openai_completion : nat -> string -> pyval -> exn + string;
  (* does the n-th append to events.log go through *)
  file_write : nat -> bool;
  (* does the n-th database session add + commit go through *)
  db_commit : nat -> bool;
  (* time.time() in milliseconds, at the n-th clock read *)
  time_time : nat -> Z;
  utcnow : nat -> datetime;
  (* the builtin str() *)
  py_str : pyval -> string
}.

(** [os.getenv] gives [None] or a string; [if URL] is false for both
    [None] and the empty string. *)
Definition configured (u : option string) : bool :=
  match u with
  | Some s => negb (String.eqb s EmptyString)
  | None => false
  end.

Definition url_of (u : option string) : string :=
  match u with Some s => s | None => EmptyString end.

(** ** The computation monad: state (the journal) and exceptions *)

Definition M (A : Type) : Type := World -> (exn + A) * World.

Definition ret {A} (a : A) : M A := fun w => (inr a, w).

Definition raise {A} (e : exn) : M A := fun w => (inl e, w).

Definition bind {A B} (m : M A) (f : A -> M B) : M B :=
  fun w =>
    match m w with
    | (inr a, w1) => f a w1
    | (inl e, w1) => (inl e, w1)
    end.

(** [try: m  except Exception as e: h e]. *)
Definition try_except {A} (m : M A) (h : exn -> M A) : M A :=
  fun w =>
    match m w with
    | (inr a, w1) => (inr a, w1)
    | (inl e, w1) => h e w1
    end.

Definition emit (e : effect) : M unit := fun w => (inr tt, w ++ [e]).

Declare Scope py_scope.
Delimit Scope py_scope with py.
Notation "x <- m ;; k" := (bind m (fun x => k))
  (at level 61, m at next level, right associativity) : py_scope.
Notation "m ;;; k" := (bind m (fun _ => k))
  (at level 61, right associativity) : py_scope.
Open Scope py_scope.

(** [v.get(k)] / [v.get(k, default)]: only a dict has [.get]. *)
Definition py_get (v : pyval) (k : string) (default : pyval) : M pyval :=
  match v with
  | PDict d => ret (match dict_get d k with Some x => x | None => default end)
  | _ => raise (Exn "AttributeError" "object has no attribute 'get'")
  end.

(** [v[k]] with a string key. *)
Definition py_item (v : pyval) (k : string) : M pyval :=
  match v with
  | PDict d => match dict_get d k with
               | Some x => ret x
               | None => raise (Exn "KeyError" k)
               end
  | _ => raise (Exn "TypeError" "indices must be integers")
  end.

(** [v[0]]. *)
Definition py_item0 (v : pyval) : M pyval :=
  match v with
  | PList (x :: _) => ret x
  | PList [] => raise (Exn "IndexError" "list index out of range")
  | PStr (String c _) => ret (PStr (String c EmptyString))
  | PStr EmptyString => raise (Exn "IndexError" "string index out of range")
  | PDict _ => raise (Exn "KeyError" "0")
  | _ => raise (Exn "TypeError" "object is not subscriptable")
  end.

(** [v.lower()]: a method of [str] only. *)
Definition py_lower (v : pyval) : M string :=
  match v with
  | PStr s => ret (Str.lower s)
  | _ => raise (Exn "AttributeError" "object has no attribute 'lower'")
  end.

Definition logger (level msg : string) : M unit := emit (ELog level msg).

(** [time.time()]. *)
Definition time_now (env : Env) : M Z :=
  fun w => (inr (time_time env (count is_clock w)), w ++ [ETime]).

(** [datetime.utcnow()]. *)
Definition datetime_utcnow (env : Env) : M datetime :=
  fun w => (inr (utcnow env (count is_clock w)), w ++ [EUtcNow]).

(** Calling a function of [local_ai]. *)
Definition call_local_ai (name : string) (f : pyfun) (args : list pyval) : M pyval :=
  fun w => (f (count is_local w) args, w ++ [ELocalAi name args]).

(** Calling a function of [local_voice]. *)
Definition call_local_voice (name : string) (f : pyfun) (args : list pyval) : M pyval :=
  fun w => (f (count is_local w) args, w ++ [ELocalVoice name args]).

(** ** The gateway *)

(** The part of a Flask request the handlers read. *)
Record Request : Type := mkRequest {
  header_Authorization : option string;   (* request.headers *)
  arg_admin_token : option string;        (* request.args *)
  get_json : option pyval                 (* request.get_json(silent=True) *)
}.

(** A view's return value: the [jsonify]-ed body and the status code. *)
Definition Response : Type := (pyval * nat)%type.

(** U+00A0 (no-break space) and U+2003 (em space), in UTF-8. *)
Definition nbsp : string :=
  String (ascii_of_nat 194) (String (ascii_of_nat 160) EmptyString).

Definition em_space : string :=
  String (ascii_of_nat 226) (String (ascii_of_nat 128) (String (ascii_of_nat 131) EmptyString)).

Definition greeting_text : string :=
  "Hello — I'm NeuraAI Hyperluxe. Try asking 'recommend a book' or 'play a game'.".
Definition health_text : string :=
  "I can help with basic health advice. Use /api/health/check with symptoms.".
Definition crypto_text : string :=
  "Connect a crypto insights module to get live market advice.".
Definition default_text : string := "Interesting — tell me more.".

Definition err_result (reason : string) : pyval :=
  PDict [("ok", PBool false); ("error", PStr reason)].
Definition ok_result (reply : pyval) : pyval :=
  PDict [("ok", PBool true); ("reply", reply)].

Section Gateway.

Variable env : Env.

(** The [Authorization] header or, when that is missing or empty, the
    [admin_token] query parameter (each defaulting to the empty string),
    with a [Bearer ] prefix cut. *)
Definition request_token (req : Request) : M string :=
  let a := match header_Authorization req with Some s => s | None => EmptyString end in
  let b := match arg_admin_token req with Some s => s | None => EmptyString end in
  let token := if negb (String.eqb a EmptyString) then a else b in
  if Str.startswith "Bearer " token then
    match Str.split_space_once token with
    | _ :: t :: _ => ret t
    | _ => raise (Exn "IndexError" "list index out of range")
    end
  else ret token.

Definition require_admin (f : Request -> M Response) (req : Request) : M Response :=
  token <- request_token req ;;
  if String.eqb (NEURA_ADMIN_TOKEN env) EmptyString then
    logger "warning" "NEURA_ADMIN_TOKEN not set — admin endpoints are open (dev)." ;;;
    f req
  else if negb (String.eqb token (NEURA_ADMIN_TOKEN env)) then
    ret (err_result "unauthorized", 401)
  else f req.

(** [requests.post(...)], [r.raise_for_status()], [r.json()]. *)
Definition requests_post (url : string) (payload : pyval) : M pyval :=
  fun w => (http_post env (count is_post w) url payload, w ++ [EPost url payload]).

Definition proxy_post (url : string) (payload : pyval) : M pyval :=
  try_except (requests_post url payload)
    (fun e =>
       logger "exception" "proxy_post failed" ;;;
       ret (PDict [("ok", PBool false); ("error", PStr (exn_str e))])).

(** [db.add(Event(...)); db.commit()]. *)
Definition db_add_event (ty payload : pyval) : M unit :=
  fun w =>
    let ok := db_commit env (count is_db w) in
    (if ok then inr tt else inl (Exn "SQLAlchemyError" "commit failed"),
     w ++ [EDbEvent ty payload ok]).

(** [db.add(ChatLog(...)); db.commit()]. *)
Definition db_add_chatlog (user prompt response latency : pyval) : M unit :=
  fun w =>
    let ok := db_commit env (count is_db w) in
    (if ok then inr tt else inl (Exn "SQLAlchemyError" "commit failed"),
     w ++ [EDbChatLog user prompt response latency ok]).

(** [with open(path, "a") as f: f.write(json.dumps(payload) + "\n")]. *)
Definition file_append (line : pyval) : M unit :=
  fun w =>
    let ok := file_write env (count is_file w) in
    (if ok then inr tt else inl (Exn "OSError" "write failed"),
     w ++ [EFileAppend line ok]).

Definition append_event_db (event_type payload : pyval) : M unit :=
  try_except (db_add_event event_type payload)
    (fun _ => logger "exception" "append_event_db failed").

Definition append_event_file (payload : pyval) : M unit :=
  try_except (file_append payload)
    (fun _ => logger "exception" "append_event_file failed").

Definition append_event (event_type payload : pyval) : M unit :=
  ts <- time_now env ;;
  append_event_file
    (PDict [("type", event_type); ("payload", payload); ("ts", PFloat ts)]) ;;;
  try_except (append_event_db event_type payload) (fun _ => ret tt).

Definition ai_call_microservice (prompt user : pyval) : M pyval :=
  if negb (configured (AI_SERVICE_URL env)) then ret (err_result "no_microservice")
  else
    let payload := PDict [("prompt", prompt); ("user", user)] in
    let url := (Str.rstrip_slash (url_of (AI_SERVICE_URL env)) ++ "/chat")%string in
    proxy_post url payload.

(** The body of the [try] of [ai_call_local_module]: [Some] is a
    [return] inside it, [None] is falling out of it. *)
Definition local_module_probe (m : AiModule) (prompt user : pyval) : M (option pyval) :=
  match ai_generate m with
  | Some f =>
      out <- call_local_ai "ai_generate" f [prompt; user] ;;
      ret (Some (ok_result out))
  | None =>
      match generate_reply m with
      | Some f =>
          out <- call_local_ai "generate_reply" f [prompt; user] ;;
          ret (Some (ok_result out))
      | None =>
          match chat m with
          | Some f =>
              res <- call_local_ai "chat" f [PDict [("prompt", prompt); ("user", user)]] ;;
              match res with
              | PDict d =>
                  match dict_get d "reply" with
                  | Some r => ret (Some (ok_result r))
                  | None => ret (Some (ok_result (PStr (py_str env res))))
                  end
              | _ => ret (Some (ok_result (PStr (py_str env res))))
              end
          | None => ret None
          end
      end
  end.

Definition ai_call_local_module (prompt user : pyval) : M pyval :=
  match local_ai env with
  | None => ret (err_result "no_local_ai")
  | Some m =>
      r <- try_except (local_module_probe m prompt user)
             (fun _ => logger "exception" "local_ai call failed" ;;; ret None) ;;
      match r with
      | Some res => ret res
      | None => ret (err_result "local_ai_failed")
      end
  end.

(** The modern request shape and the two ways its answer is read; [Some]
    is a [return], [None] is leaving the inner [try] without one. *)
Definition openai_chat_attempt (model : string) (prompt : pyval) : M (option pyval) :=
  fun w =>
    let w1 := w ++ [EOpenAIChat model prompt] in
    match openai_chat env (count is_openai w) model prompt with
    | ChatRaise e => (inl e, w1)
    | ChatObject (inl e) => (inl e, w1)
    | ChatObject (inr content) => (inr (Some (ok_result (PStr content))), w1)
    | ChatValue resp =>
        match resp with
        | PDict d =>
            if has_key d "choices" then
              (choices <- py_item resp "choices" ;;
               first <- py_item0 choices ;;
               message <- py_item first "message" ;;
               content <- py_item message "content" ;;
               ret (Some (ok_result content))) w1
            else (inr None, w1)
        | _ => (inr None, w1)
        end
    end.

(** The legacy request shape. *)
Definition openai_completion_attempt (model : string) (prompt : pyval) : M pyval :=
  fun w =>
    let w1 := w ++ [EOpenAICompletion model prompt] in
    match openai_completion env (count is_openai w) model prompt with
    | inl e => (inl e, w1)
    | inr text => (inr (ok_result (PStr text)), w1)
    end.

(** The body of the outer [try] of [ai_call_openai]. *)
Definition openai_probe (prompt user : pyval) : M (option pyval) :=
  r <- match local_ai env with
       | Some m =>
           match ai_generate_openai m with
           | Some f =>
               out <- call_local_ai "ai_generate_openai" f [prompt; user] ;;
               ret (Some (ok_result out))
           | None =>
               match openai_generate m with
               | Some f =>
                   out <- call_local_ai "openai_generate" f [prompt; user] ;;
                   ret (Some (ok_result out))
               | None => ret None
               end
           end
       | None => ret None
       end ;;
  match r with
  | Some res => ret (Some res)
  | None =>
      if negb (String.eqb (OPENAI_API_KEY env) EmptyString) then
        if openai_installed env then
          let model_to_use :=
            if negb (String.eqb (NEURA_MODEL env) EmptyString) then NEURA_MODEL env else "gpt-4o" in
          try_except (openai_chat_attempt model_to_use prompt)
            (fun _ =>
               logger "exception" "openai.chat.completions failed, trying completions endpoint" ;;;
               try_except
                 (res <- openai_completion_attempt model_to_use prompt ;; ret (Some res))
                 (fun _ => logger "exception" "openai.Completion.create failed" ;;; ret None))
        else raise (Exn "ModuleNotFoundError" "No module named 'openai'")
      else ret None
  end.

Definition ai_call_openai (prompt user : pyval) : M pyval :=
  r <- try_except (openai_probe prompt user)
         (fun _ => logger "exception" "ai_call_openai failed" ;;; ret None) ;;
  match r with
  | Some res => ret res
  | None => ret (err_result "openai_failed_or_not_configured")
  end.

(** The [crypto] branch asks [local_ai.crypto_summary()] when there is
    one; [None] is the fall-through to the canned text. *)
Definition crypto_probe : M (option pyval) :=
  match local_ai env with
  | Some m =>
      match crypto_summary m with
      | Some f =>
          try_except (v <- call_local_ai "crypto_summary" f [] ;; ret (Some v))
            (fun _ => ret None)
      | None => ret None
      end
  | None => ret None
  end.

Definition simple_fallback_reply (prompt : pyval) : M pyval :=
  p <- py_lower prompt ;;
  if Str.contains "hello" p
     || (String.eqb (Str.strip p) "hi" || String.eqb (Str.strip p) "hey") then
    ret (PStr greeting_text)
  else if Str.contains "time" p then
    t <- datetime_utcnow env ;;
    ret (PStr ("Server time: " ++ strftime_utc t)%string)
  else if Str.contains "health" p then
    ret (PStr health_text)
  else if Str.contains "crypto" p then
    r <- crypto_probe ;;
    match r with
    | Some v => ret v
    | None => ret (PStr crypto_text)
    end
  else ret (PStr default_text).

(** [res = adapter(...); if res.get("ok"): return res]: [Some res] is
    that return, [None] goes on to the next step. *)
Definition attempt (adapter : M pyval) : M (option pyval) :=
  res <- adapter ;;
  ok <- py_get res "ok" PNone ;;
  if truthy ok then ret (Some res) else ret None.

Definition generate_ai_reply (prompt user prefer : pyval) : M pyval :=
  (* 1) Microservice *)
  r1 <- (if configured (AI_SERVICE_URL env)
            && (py_eq_str prefer "microservice" || py_eq_str prefer "auto")
         then attempt (ai_call_microservice prompt user)
         else ret None) ;;
  match r1 with
  | Some res => ret res
  | None =>
      (* 2) Local ai module *)
      r2 <- attempt (ai_call_local_module prompt user) ;;
      match r2 with
      | Some res => ret res
      | None =>
          (* 3) OpenAI direct *)
          r3 <- attempt (ai_call_openai prompt user) ;;
          match r3 with
          | Some res => ret res
          | None =>
              (* 4) Microservice again as last resort *)
              r4 <- (if configured (AI_SERVICE_URL env) && py_eq_str prefer "auto"
                     then attempt (ai_call_microservice prompt user)
                     else ret None) ;;
              match r4 with
              | Some res => ret res
              | None =>
                  (* 5) Simple fallback *)
                  fallback <- simple_fallback_reply prompt ;;
                  ret (ok_result fallback)
              end
          end
      end
  end.

(** The [if voice:] block of [chat_endpoint], up to the value stored
    under ["audio"]. *)
Definition chat_tts (body reply : pyval) : M pyval :=
  language <- py_get body "language" (PStr "en") ;;
  mood <- py_get body "mood" (PStr "cheerful") ;;
  let tts_payload := PDict [("text", reply); ("language", language); ("mood", mood)] in
  if configured (VOICE_SERVICE_URL env) then
    try_except
      (r <- proxy_post (Str.rstrip_slash (url_of (VOICE_SERVICE_URL env)) ++ "/speak")%string
              tts_payload ;;
       py_get r "audio" PNone)
      (fun _ => logger "exception" "voice service error" ;;; ret PNone)
  else
    match local_voice env with
    | Some vm =>
        match speak_text vm with
        | Some f =>
            try_except (call_local_voice "speak_text" f [reply; language; mood])
              (fun _ => logger "exception" "local tts error" ;;; ret PNone)
        | None => ret PNone
        end
    | None => ret PNone
    end.

(** [body = request.get_json(silent=True) or {}]. *)
Definition request_body (req : Request) : pyval :=
  py_or (match get_json req with Some v => v | None => PNone end) (PDict []).

(** [body.get("message") or body.get("prompt")], or the empty string when
    both are falsy. *)
Definition request_message (body : pyval) : M pyval :=
  m <- py_get body "message" PNone ;;
  if truthy m then ret m
  else
    p <- py_get body "prompt" PNone ;;
    ret (py_or p (PStr EmptyString)).

Definition chat_endpoint (req : Request) : M Response :=
  let body := request_body req in
  message <- request_message body ;;
  user <- py_get body "user" (PStr "guest") ;;
  v <- py_get body "voice" (PBool false) ;;
  let voice := truthy v in
  prefer <- py_get body "prefer" (PStr "auto") ;;
  if negb (truthy message) then
    ret (err_result "empty_message", 400)
  else
    start <- time_now env ;;
    res <- generate_ai_reply message user prefer ;;
    finish <- time_now env ;;
    let latency := PFloat (finish - start) in
    reply <- py_get res "reply" (PStr "Sorry — no reply available.") ;;
    (* Save to DB log *)
    try_except (db_add_chatlog user message reply latency)
      (fun _ => logger "exception" "Failed to save chat log") ;;;
    (* append event *)
    append_event (PStr "ai_query")
      (PDict [("user", user); ("prompt", message); ("latency", latency)]) ;;;
    let out := [("ok", PBool true); ("reply", reply); ("latency_s", latency)] in
    (* TTS generation if requested *)
    out <- (if voice then
              audio_url <- chat_tts body reply ;;
              ret (dict_set out "audio" audio_url)
            else ret out) ;;
    ret (PDict out, 200).

End Gateway.

(** ** Concrete deployments, used to run the model *)

Definition refuse_post : nat -> string -> pyval -> exn + pyval :=
  fun _ _ _ => inl (Exn "ConnectionError" "connection refused").

(** A deployment without OpenAI, with a clock that advances one second per
    read; the remaining knobs are the arguments. *)
Definition scenario (ai_url voice_url : option string) (token : string)
    (ai : option AiModule) (post : nat -> string -> pyval -> exn + pyval)
    (fw dc : nat -> bool) : Env :=
  {| AI_SERVICE_URL := ai_url;
     VOICE_SERVICE_URL := voice_url;
     NEURA_ADMIN_TOKEN := token;
     OPENAI_API_KEY := EmptyString;
     NEURA_MODEL := "gpt-5-mini";
     local_ai := ai;
     local_voice := None;
     http_post := post;
     openai_installed := false;
     openai_chat := fun _ _ _ => ChatRaise (Exn "APIError" "unavailable");
     openai_completion := fun _ _ _ => inl (Exn "APIError" "unavailable");
     file_write := fw;
     db_commit := dc;
     time_time := fun n => (1000 * Z.of_nat n)%Z;
     utcnow := fun n => mkDatetime 2026 1 1 0 0 n;
     py_str := fun _ => "<object>" |}.

Definition always (b : bool) : nat -> bool := fun _ => b.

(** No adapter configured at all; storage works. *)
Definition env_offline : Env :=
  scenario None None EmptyString None refuse_post (always true) (always true).

Definition reply_svc : pyval := ok_result (PStr "from the microservice").

(** The microservice answers, but with a JSON array instead of an object. *)
Definition env_array_body : Env :=
  scenario (Some "http://ai.internal/") None EmptyString None
    (fun _ _ _ => inr (PList [])) (always true) (always true).

(** An [ai_engine] that only has [ai_generate]. *)
Definition ai_echo : AiModule :=
  {| ai_generate := Some (fun _ _ => inr (PStr "from the local module"));
     generate_reply := None; chat := None;
     ai_generate_openai := None; openai_generate := None;
     crypto_summary := None |}.

(** A healthy microservice next to a local module. *)
Definition env_both : Env :=
  scenario (Some "http://ai.internal/") None EmptyString (Some ai_echo)
    (fun _ _ _ => inr reply_svc) (always true) (always true).

(** A microservice that is unreachable and nothing else to ask. *)
Definition env_ai_down : Env :=
  scenario (Some "http://ai.internal/") None EmptyString None refuse_post
    (always true) (always true).

(** The events file cannot be written; the database is fine. *)
Definition env_disk_full : Env :=
  scenario None None EmptyString None refuse_post (always false) (always true).

(** Neither the events file nor the database can be written. *)
Definition env_no_storage : Env :=
  scenario None None EmptyString None refuse_post (always false) (always false).

(** A voice service that is configured but unreachable. *)
Definition env_voice_down : Env :=
  scenario None (Some "http://voice.internal") EmptyString None refuse_post
    (always true) (always true).

(** A voice service that answers with an audio reference. *)
Definition env_voice_up : Env :=
  scenario None (Some "http://voice.internal") EmptyString None
    (fun _ _ _ => inr (PDict [("ok", PBool true); ("audio", PStr "/static/audio/a1.mp3")]))
    (always true) (always true).

(** An admin token is set. *)
Definition env_admin : Env :=
  scenario None None "s3cret" None refuse_post (always true) (always true).

Definition chat_request (fields : list (string * pyval)) : Request :=
  mkRequest None None (Some (PDict fields)).

(** A view that records that it ran. *)
Definition stats_view : Request -> M Response :=
  fun _ => emit (EHandler "admin_stats_post") ;;; ret (PDict [("ok", PBool true)], 200).

(** ** Vocabulary of the statements *)

(** The greeting test of [simple_fallback_reply], on the lowercased prompt. *)
Definition is_greeting (p : string) : bool :=
  Str.contains "hello" p
  || (String.eqb (Str.strip p) "hi" || String.eqb (Str.strip p) "hey").

(** The prompts on which [simple_fallback_reply] looks at the world: the
    [time] branch reads the clock, the [crypto] branch may call the local
    module. *)
Definition consults_world (p : string) : bool :=
  negb (is_greeting p)
  && (Str.contains "time" p
      || (negb (Str.contains "health" p) && Str.contains "crypto" p)).

(** A request field that is missing or falsy. *)
Definition empty_or_absent (d : list (string * pyval)) (k : string) : bool :=
  match dict_get d k with
  | Some v => negb (truthy v)
  | None => true
  end.

(** [d.get(k, default)] on a dict. *)
Definition field (d : list (string * pyval)) (k : string) (default : pyval) : pyval :=
  match dict_get d k with Some x => x | None => default end.

(** A result that reports success: [res.get("ok")] is truthy. *)
Definition is_ok (res : pyval) : bool :=
  match res with
  | PDict d => truthy (field d "ok" PNone)
  | _ => false
  end.

(** The line [append_event] writes to [events.log]. *)
Definition event_line (ty payload : pyval) (ts : Z) : pyval :=
  PDict [("type", ty); ("payload", payload); ("ts", PFloat ts)].

(** The environment with other storage oracles. *)
Definition with_storage (fw dc : nat -> bool) (env : Env) : Env :=
  {| AI_SERVICE_URL := AI_SERVICE_URL env;
     VOICE_SERVICE_URL := VOICE_SERVICE_URL env;
     NEURA_ADMIN_TOKEN := NEURA_ADMIN_TOKEN env;
     OPENAI_API_KEY := OPENAI_API_KEY env;
     NEURA_MODEL := NEURA_MODEL env;
     local_ai := local_ai env;
     local_voice := local_voice env;
     http_post := http_post env;
     openai_installed := openai_installed env;
     openai_chat := openai_chat env;
     openai_completion := openai_completion env;
     file_write := fw;
     db_commit := dc;
     time_time := time_time env;
     utcnow := utcnow env;
     py_str := py_str env |}.

(** The URL the microservice adapter posts to. *)
Definition ai_chat_url (env : Env) : string :=
  (Str.rstrip_slash (url_of (AI_SERVICE_URL env)) ++ "/chat")%string.

(** A POST to the AI microservice. *)
Definition is_ai_post (env : Env) (e : effect) : bool :=
  match e with
  | EPost url _ => String.eqb url (ai_chat_url env)
  | _ => false
  end.


(** ** Vocabulary of the proofs *)

(** What the [crypto] branch answers: the local module's summary if there
    is one and the call returns, the canned text otherwise. *)
Definition crypto_answer (env : Env) (w : World) : pyval * World :=
  match local_ai env with
  | Some m =>
      match crypto_summary m with
      | Some f =>
          (match f (count is_local w) [] with
           | inr v => v
           | inl _ => PStr crypto_text
           end,
           w ++ [ELocalAi "crypto_summary" []])
      | None => (PStr crypto_text, w)
      end
  | None => (PStr crypto_text, w)
  end.

(** [emits P m]: whatever [m] does, it only appends effects satisfying [P]. *)
Definition emits {A} (P : effect -> bool) (m : M A) : Prop :=
  forall w, exists es, snd (m w) = w ++ es /\ forallb P es = true.

(** The effects that are neither a POST nor a write to the events file or
    the database: what the in-process adapters and the fallback may do. *)
Definition quiet (e : effect) : bool := negb (is_post e) && negb (is_storage e).

(** The effects that are not a storage write. *)
Definition not_storage (e : effect) : bool := negb (is_storage e).

(** An adapter that always hands back a dict. *)
Definition returns_dict (m : M pyval) : Prop :=
  forall w, exists d w1, m w = (inr (PDict d), w1).

(** A raising microservice whose local module raises too, then recovers. *)
Definition ai_broken : AiModule :=
  {| ai_generate := Some (fun _ _ => inl (Exn "RuntimeError" "model not loaded"));
     generate_reply := None; chat := None;
     ai_generate_openai := None; openai_generate := None;
     crypto_summary := None |}.

Definition env_flaky : Env :=
  scenario (Some "http://ai.internal/") None EmptyString (Some ai_broken)
    (fun n _ _ => if Nat.eqb n 0 then inl (Exn "Timeout" "timed out") else inr reply_svc)
    (always true) (always true).

(** What the handler reads from a body that is a dict. *)
Definition message_of (d : list (string * pyval)) : pyval :=
  if truthy (field d "message" PNone) then field d "message" PNone
  else py_or (field d "prompt" PNone) (PStr EmptyString).

Definition user_of (d : list (string * pyval)) : pyval := field d "user" (PStr "guest").

Definition voice_of (d : list (string * pyval)) : bool :=
  truthy (field d "voice" (PBool false)).

Definition prefer_of (d : list (string * pyval)) : pyval := field d "prefer" (PStr "auto").

(** The payload of the "ai_query" event. *)
Definition query_payload (user message latency : pyval) : pyval :=
  PDict [("user", user); ("prompt", message); ("latency", latency)].

(** The response assembly, with the optional TTS step. *)
Definition chat_finish (env : Env) (d : list (string * pyval)) (reply latency : pyval)
  : M Response :=
  let out := [("ok", PBool true); ("reply", reply); ("latency_s", latency)] in
  out <- (if voice_of d then
            audio_url <- chat_tts env (PDict d) reply ;;
            ret (dict_set out "audio" audio_url)
          else ret out) ;;
  ret (PDict out, 200).

(** The handler past the validation of the message. *)
Definition chat_after_validation (env : Env) (d : list (string * pyval)) : M Response :=
  start <- time_now env ;;
  res <- generate_ai_reply env (message_of d) (user_of d) (prefer_of d) ;;
  finish <- time_now env ;;
  let latency := PFloat (finish - start) in
  reply <- py_get res "reply" (PStr "Sorry — no reply available.") ;;
  try_except (db_add_chatlog env (user_of d) (message_of d) reply latency)
    (fun _ => logger "exception" "Failed to save chat log") ;;;
  append_event env (PStr "ai_query")
    (query_payload (user_of d) (message_of d) latency) ;;;
  chat_finish env d reply latency.

(** The value stored under ["audio"]: the reference the TTS collaborator
    returned, or [None] when it is missing, failed or gave none. *)
Definition tts_audio (env : Env) (d : list (string * pyval)) (reply : pyval) (w : World)
  : pyval :=
  let language := field d "language" (PStr "en") in
  let mood := field d "mood" (PStr "cheerful") in
  if configured (VOICE_SERVICE_URL env) then
    match http_post env (count is_post w)
            (Str.rstrip_slash (url_of (VOICE_SERVICE_URL env)) ++ "/speak")%string
            (PDict [("text", reply); ("language", language); ("mood", mood)]) with
    | inr (PDict r) => field r "audio" PNone
    | _ => PNone
    end
  else
    match local_voice env with
    | Some vm =>
        match speak_text vm with
        | Some f =>
            match f (count is_local w) [reply; language; mood] with
            | inr v => v
            | inl _ => PNone
            end
        | None => PNone
        end
    | None => PNone
    end.

(** The journal entries of the two record attempts, made in world [w]. *)
Definition record_entries (env : Env) (user message reply latency : pyval) (w : World)
  : list effect :=
  [EDbChatLog user message reply latency (db_commit env (count is_db w))]
  ++ (if db_commit env (count is_db w) then []
      else [ELog "exception" "Failed to save chat log"])
  ++ [ETime;
      EFileAppend
        (event_line (PStr "ai_query") (query_payload user message latency)
           (time_time env (count is_clock w)))
        (file_write env (count is_file w))]
  ++ (if file_write env (count is_file w) then []
      else [ELog "exception" "append_event_file failed"])
  ++ [EDbEvent (PStr "ai_query") (query_payload user message latency)
        (db_commit env (S (count is_db w)))]
  ++ (if db_commit env (S (count is_db w)) then []
      else [ELog "exception" "append_event_db failed"]).

Definition is_event_row (e : effect) : bool :=
  match e with EDbEvent _ _ _ => true | _ => false end.

(** * Properties *)

(** ** Journal and monad facts *)

Lemma count_app p (w es : World) : count p (w ++ es) = count p w + count p es.
Proof. unfold count. rewrite filter_app, length_app. reflexivity. Qed.

Lemma count_snoc_false p (w : World) e : p e = false -> count p (w ++ [e]) = count p w.
Proof. intros H. rewrite count_app. unfold count. simpl. rewrite H. simpl. lia. Qed.

Lemma bind_inr {A B} (m : M A) (f : A -> M B) w b w' :
  bind m f w = (inr b, w') ->
  exists a w1, m w = (inr a, w1) /\ f a w1 = (inr b, w').
Proof.
  unfold bind. destruct (m w) as [[e | a] w1]; intros H.
  - discriminate.
  - exists a, w1. split; [reflexivity | exact H].
Qed.

Lemma bind_step {A B} (m : M A) (f : A -> M B) w a w1 :
  m w = (inr a, w1) -> bind m f w = f a w1.
Proof. unfold bind. intros ->. reflexivity. Qed.

Lemma bind_fail {A B} (m : M A) (f : A -> M B) w e w1 :
  m w = (inl e, w1) -> bind m f w = (inl e, w1).
Proof. unfold bind. intros ->. reflexivity. Qed.

(** ** The admin guard *)

Ltac peel_prefix H :=
  repeat match type of H with
         | String.prefix (String _ _) ?s = true =>
             destruct s; simpl in H; [discriminate H |];
             match type of H with
             | (if ?d then _ else _) = true => destruct d; [subst | discriminate H]
             end
         end.

Lemma bearer_split token :
  Str.startswith "Bearer " token = true ->
  exists rest, Str.split_space_once token = ["Bearer"; rest].
Proof.
  unfold Str.startswith. intros H. peel_prefix H.
  eexists. simpl. reflexivity.
Qed.

(** Reading the token has no effect and cannot fail. *)
Lemma request_token_total req w :
  exists token, request_token req w = (inr token, w).
Proof.
  unfold request_token.
  set (token := if negb (_ =? _)%string then _ else _).
  destruct (Str.startswith "Bearer " token) eqn:E.
  - destruct (bearer_split _ E) as [rest ->]. exists rest. reflexivity.
  - exists token. reflexivity.
Qed.

(** C10: with an empty NEURA_ADMIN_TOKEN the wrapped view runs whatever
    the request carries (after the warning is logged); with a non-empty
    one, a request whose token differs gets 401 [unauthorized] and the view
    does not run, and a request whose token matches runs the view. *)
Theorem require_admin_open_when_unset env (f : Request -> M Response) req w :
  (NEURA_ADMIN_TOKEN env = EmptyString ->
   require_admin env f req w =
     f req (w ++ [ELog "warning"
                    "NEURA_ADMIN_TOKEN not set — admin endpoints are open (dev)."]))
  /\ (NEURA_ADMIN_TOKEN env <> EmptyString ->
      exists token,
        request_token req w = (inr token, w)
        /\ (token <> NEURA_ADMIN_TOKEN env ->
            require_admin env f req w = (inr (err_result "unauthorized", 401), w))
        /\ (token = NEURA_ADMIN_TOKEN env -> require_admin env f req w = f req w)).
Proof.
  destruct (request_token_total req w) as [token Ht].
  split.
  - intros Hunset. unfold require_admin.
    rewrite (bind_step _ _ _ _ _ Ht), Hunset. reflexivity.
  - intros Hset. exists token. split; [exact Ht |].
    apply String.eqb_neq in Hset.
    split; intros Hcmp; unfold require_admin;
      rewrite (bind_step _ _ _ _ _ Ht), Hset.
    + apply String.eqb_neq in Hcmp. rewrite Hcmp. reflexivity.
    + subst token. rewrite String.eqb_refl. reflexivity.
Qed.

Lemma require_admin_open_when_unset_witness :
  require_admin env_offline stats_view
    (mkRequest (Some "Bearer wrong") (Some "also wrong") None) []
  = (inr (PDict [("ok", PBool true)], 200),
     [ELog "warning" "NEURA_ADMIN_TOKEN not set — admin endpoints are open (dev).";
      EHandler "admin_stats_post"])
  /\ require_admin env_admin stats_view (mkRequest (Some "Bearer wrong") None None) []
     = (inr (err_result "unauthorized", 401), [])
  /\ require_admin env_admin stats_view (mkRequest None (Some "s3cret") None) []
     = (inr (PDict [("ok", PBool true)], 200), [EHandler "admin_stats_post"]).
Proof.
  split; [| split].
  - rewrite (proj1 (require_admin_open_when_unset env_offline stats_view
                      (mkRequest (Some "Bearer wrong") (Some "also wrong") None) [])
               eq_refl).
    reflexivity.
  - destruct (proj2 (require_admin_open_when_unset env_admin stats_view
                       (mkRequest (Some "Bearer wrong") None None) []))
      as [token [Ht [Hbad _]]].
    + discriminate.
    + apply Hbad. vm_compute in Ht. inversion Ht. discriminate.
  - destruct (proj2 (require_admin_open_when_unset env_admin stats_view
                       (mkRequest None (Some "s3cret") None) []))
      as [token [Ht [_ Hgood]]].
    + discriminate.
    + rewrite Hgood; [reflexivity |].
      vm_compute in Ht. inversion Ht. reflexivity.
Defined.

(** ** The event recorder *)

(** What one call of [append_event] adds to the journal. *)
Lemma append_event_run env ty payload w :
  append_event env ty payload w =
    (inr tt,
     w ++ [ETime;
           EFileAppend (event_line ty payload (time_time env (count is_clock w)))
             (file_write env (count is_file w))]
       ++ (if file_write env (count is_file w) then []
           else [ELog "exception" "append_event_file failed"])
       ++ [EDbEvent ty payload (db_commit env (count is_db w))]
       ++ (if db_commit env (count is_db w) then []
           else [ELog "exception" "append_event_db failed"])).
Proof.
  unfold append_event, append_event_file, append_event_db, try_except, bind,
    time_now, file_append, db_add_event, logger, emit, ret, event_line.
  rewrite (count_snoc_false is_file w ETime eq_refl).
  destruct (file_write env (count is_file w)) eqn:Ef.
  - rewrite !count_snoc_false by reflexivity.
    destruct (db_commit env (count is_db w)) eqn:Ed;
      repeat rewrite <- app_assoc; reflexivity.
  - rewrite !count_snoc_false by reflexivity.
    destruct (db_commit env (count is_db w)) eqn:Ed;
      repeat rewrite <- app_assoc; reflexivity.
Qed.

Lemma events_file_app (w es : World) :
  events_file (w ++ es) = events_file w ++ events_file es.
Proof. unfold events_file. apply flat_map_app. Qed.

(** C4 (amended): [append_event] reads the clock, then tries the file
    append of [{type, payload, ts}], then tries the database insert; a
    failure of either write is caught and logged, and [append_event]
    returns normally in every case, so the caller learns of neither.  The
    events file gains the line exactly when the write went through. *)
Theorem append_event_best_effort env ty payload w :
  append_event env ty payload w =
    (inr tt,
     w ++ [ETime;
           EFileAppend (event_line ty payload (time_time env (count is_clock w)))
             (file_write env (count is_file w))]
       ++ (if file_write env (count is_file w) then []
           else [ELog "exception" "append_event_file failed"])
       ++ [EDbEvent ty payload (db_commit env (count is_db w))]
       ++ (if db_commit env (count is_db w) then []
           else [ELog "exception" "append_event_db failed"]))
  /\ events_file (snd (append_event env ty payload w)) =
       events_file w
       ++ (if file_write env (count is_file w)
           then [event_line ty payload (time_time env (count is_clock w))]
           else []).
Proof.
  split; [apply append_event_run |].
  rewrite append_event_run. simpl snd. rewrite events_file_app. f_equal.
  destruct (file_write env (count is_file w)), (db_commit env (count is_db w));
    reflexivity.
Qed.

(** C4, as stated, fails: when the events file cannot be written,
    [append_event] still returns normally, the line is not in the file, and
    the database insert is attempted all the same. *)
Lemma append_event_hides_file_failure :
  file_write env_disk_full 0 = false
  /\ append_event env_disk_full (PStr "ai_query") (PDict [("user", PStr "u1")]) []
     = (inr tt,
        [ETime;
         EFileAppend (event_line (PStr "ai_query") (PDict [("user", PStr "u1")]) 0) false;
         ELog "exception" "append_event_file failed";
         EDbEvent (PStr "ai_query") (PDict [("user", PStr "u1")]) true])
  /\ events_file
       (snd (append_event env_disk_full (PStr "ai_query")
               (PDict [("user", PStr "u1")]) [])) = [].
Proof. repeat split. Qed.

(** ** The fallback responder *)

Lemma fallback_greeting env prompt w :
  is_greeting (Str.lower prompt) = true ->
  simple_fallback_reply env (PStr prompt) w = (inr (PStr greeting_text), w).
Proof.
  unfold is_greeting, simple_fallback_reply, bind, py_lower, ret.
  intros ->. reflexivity.
Qed.

Lemma fallback_time env prompt w :
  is_greeting (Str.lower prompt) = false ->
  Str.contains "time" (Str.lower prompt) = true ->
  simple_fallback_reply env (PStr prompt) w =
    (inr (PStr ("Server time: " ++ strftime_utc (utcnow env (count is_clock w)))%string),
     w ++ [EUtcNow]).
Proof.
  unfold is_greeting, simple_fallback_reply, bind, py_lower, ret, datetime_utcnow.
  intros -> ->. reflexivity.
Qed.

Lemma fallback_health env prompt w :
  is_greeting (Str.lower prompt) = false ->
  Str.contains "time" (Str.lower prompt) = false ->
  Str.contains "health" (Str.lower prompt) = true ->
  simple_fallback_reply env (PStr prompt) w = (inr (PStr health_text), w).
Proof.
  unfold is_greeting, simple_fallback_reply, bind, py_lower, ret.
  intros -> -> ->. reflexivity.
Qed.

Lemma fallback_crypto env prompt w :
  is_greeting (Str.lower prompt) = false ->
  Str.contains "time" (Str.lower prompt) = false ->
  Str.contains "health" (Str.lower prompt) = false ->
  Str.contains "crypto" (Str.lower prompt) = true ->
  simple_fallback_reply env (PStr prompt) w =
    (inr (fst (crypto_answer env w)), snd (crypto_answer env w)).
Proof.
  unfold is_greeting, simple_fallback_reply, crypto_answer, crypto_probe, bind,
    py_lower, ret, try_except, call_local_ai.
  intros -> -> -> ->.
  destruct (local_ai env) as [m |]; [| reflexivity].
  destruct (crypto_summary m) as [f |]; [| reflexivity].
  destruct (f (count is_local w) []); reflexivity.
Qed.

Lemma fallback_default env prompt w :
  is_greeting (Str.lower prompt) = false ->
  Str.contains "time" (Str.lower prompt) = false ->
  Str.contains "health" (Str.lower prompt) = false ->
  Str.contains "crypto" (Str.lower prompt) = false ->
  simple_fallback_reply env (PStr prompt) w = (inr (PStr default_text), w).
Proof.
  unfold is_greeting, simple_fallback_reply, bind, py_lower, ret.
  intros -> -> -> ->. reflexivity.
Qed.

(** On a string the fallback responder always answers. *)
Lemma fallback_total env prompt w :
  exists v w', simple_fallback_reply env (PStr prompt) w = (inr v, w').
Proof.
  destruct (is_greeting (Str.lower prompt)) eqn:G.
  { eexists _, _. apply fallback_greeting, G. }
  destruct (Str.contains "time" (Str.lower prompt)) eqn:T.
  { eexists _, _. apply fallback_time; assumption. }
  destruct (Str.contains "health" (Str.lower prompt)) eqn:H.
  { eexists _, _. apply fallback_health; assumption. }
  destruct (Str.contains "crypto" (Str.lower prompt)) eqn:C.
  { eexists _, _. apply fallback_crypto; assumption. }
  eexists _, _. apply fallback_default; assumption.
Qed.

(** C5 (amended): outside the [time] branch and the [crypto] branch the
    fallback responder is a function of the lowercased prompt alone: two
    prompts with the same lowercased text get the same string in any two
    deployments and worlds, and the world is left as it was. *)
Theorem fallback_pure_outside_time_crypto env1 env2 p1 p2 w1 w2 :
  Str.lower p1 = Str.lower p2 ->
  consults_world (Str.lower p1) = false ->
  exists s,
    simple_fallback_reply env1 (PStr p1) w1 = (inr (PStr s), w1)
    /\ simple_fallback_reply env2 (PStr p2) w2 = (inr (PStr s), w2).
Proof.
  intros Hl Hc. unfold consults_world in Hc.
  destruct (is_greeting (Str.lower p1)) eqn:G.
  { exists greeting_text. split; apply fallback_greeting; congruence. }
  simpl in Hc. apply orb_false_iff in Hc. destruct Hc as [T Hc].
  destruct (Str.contains "health" (Str.lower p1)) eqn:H.
  { exists health_text. split; apply fallback_health; congruence. }
  simpl in Hc.
  exists default_text. split; apply fallback_default; congruence.
Qed.

Lemma fallback_pure_outside_time_crypto_witness :
  exists s,
    simple_fallback_reply env_offline (PStr "My HEALTH") [] = (inr (PStr s), [])
    /\ simple_fallback_reply env_both (PStr "my health") [ETime] = (inr (PStr s), [ETime]).
Proof.
  apply (fallback_pure_outside_time_crypto env_offline env_both
           "My HEALTH" "my health" [] [ETime]); reflexivity.
Defined.

(** C5, as stated, fails: two runs on the prompt "what time is it", one
    after the other, return different strings, and each run leaves a clock
    read behind. *)
Lemma fallback_time_differs_between_runs :
  let run1 := simple_fallback_reply env_offline (PStr "what time is it") [] in
  let run2 := simple_fallback_reply env_offline (PStr "what time is it") (snd run1) in
  fst run1 = inr (PStr "Server time: 2026-01-01 00:00:00 UTC")
  /\ fst run2 = inr (PStr "Server time: 2026-01-01 00:00:01 UTC")
  /\ fst run1 <> fst run2
  /\ snd run1 = [EUtcNow].
Proof.
  cbv zeta. repeat split. vm_compute. discriminate.
Qed.

(** C6 (amended): the branch is chosen on the lowercased prompt, in this
    order: the greeting when it contains "hello" or, once stripped of the
    white space around it (Unicode white space included), is exactly "hi" or
    "hey"; the server time when it contains "time"; the health text for
    "health"; the crypto answer for "crypto"; the generic acknowledgement
    otherwise.  The prompt "hello" gets the greeting. *)
Theorem fallback_keyword_branches env prompt w :
  let p := Str.lower prompt in
  (Str.contains "hello" p = true \/ Str.strip p = "hi" \/ Str.strip p = "hey" ->
   simple_fallback_reply env (PStr prompt) w = (inr (PStr greeting_text), w))
  /\ (is_greeting p = false -> Str.contains "time" p = true ->
      simple_fallback_reply env (PStr prompt) w =
        (inr (PStr ("Server time: "
                      ++ strftime_utc (utcnow env (count is_clock w)))%string),
         w ++ [EUtcNow]))
  /\ (is_greeting p = false -> Str.contains "time" p = false ->
      Str.contains "health" p = true ->
      simple_fallback_reply env (PStr prompt) w = (inr (PStr health_text), w))
  /\ (is_greeting p = false -> Str.contains "time" p = false ->
      Str.contains "health" p = false -> Str.contains "crypto" p = true ->
      simple_fallback_reply env (PStr prompt) w =
        (inr (fst (crypto_answer env w)), snd (crypto_answer env w)))
  /\ (is_greeting p = false -> Str.contains "time" p = false ->
      Str.contains "health" p = false -> Str.contains "crypto" p = false ->
      simple_fallback_reply env (PStr prompt) w =
        (inr (PStr "Interesting — tell me more."), w))
  /\ simple_fallback_reply env (PStr "hello") w =
       (inr (PStr "Hello — I'm NeuraAI Hyperluxe. Try asking 'recommend a book' or 'play a game'."),
        w).
Proof.
  cbv zeta.
  refine (conj _ (conj _ (conj _ (conj _ (conj _ _))))).
  - intros H. apply fallback_greeting. unfold is_greeting.
    destruct H as [-> | [-> | ->]]; [reflexivity | |].
    + apply orb_true_r.
    + apply orb_true_r.
  - apply fallback_time.
  - apply fallback_health.
  - apply fallback_crypto.
  - apply fallback_default.
  - apply fallback_greeting. reflexivity.
Qed.

Lemma fallback_keyword_branches_witness :
  simple_fallback_reply env_offline (PStr "  Hey ") [] = (inr (PStr greeting_text), [])
  /\ simple_fallback_reply env_offline (PStr (nbsp ++ "hi" ++ em_space)%string) []
     = (inr (PStr greeting_text), [])
  /\ simple_fallback_reply env_offline (PStr "Time?") [] =
       (inr (PStr "Server time: 2026-01-01 00:00:00 UTC"), [EUtcNow])
  /\ simple_fallback_reply env_offline (PStr "my health") [] = (inr (PStr health_text), [])
  /\ simple_fallback_reply env_offline (PStr "crypto!") [] = (inr (PStr crypto_text), [])
  /\ simple_fallback_reply env_offline (PStr "this") [] = (inr (PStr default_text), []).
Proof.
  refine (conj _ (conj _ (conj _ (conj _ (conj _ _))))).
  - apply (proj1 (fallback_keyword_branches env_offline "  Hey " [])).
    right. right. reflexivity.
  - apply (proj1 (fallback_keyword_branches env_offline (nbsp ++ "hi" ++ em_space)%string [])).
    right. left. reflexivity.
  - apply (proj1 (proj2 (fallback_keyword_branches env_offline "Time?" []))); reflexivity.
  - apply (proj1 (proj2 (proj2 (fallback_keyword_branches env_offline "my health" []))));
      reflexivity.
  - apply (proj1 (proj2 (proj2 (proj2
             (fallback_keyword_branches env_offline "crypto!" []))))); reflexivity.
  - apply (proj1 (proj2 (proj2 (proj2 (proj2
             (fallback_keyword_branches env_offline "this" [])))))); reflexivity.
Defined.

(** C6, as stated, fails: "this" and "hey there" contain "hi" and "hey" as
    substrings, yet neither selects the greeting. *)
Lemma fallback_substring_hi_not_greeting :
  Str.contains "hi" (Str.lower "this") = true
  /\ simple_fallback_reply env_offline (PStr "this") [] = (inr (PStr default_text), [])
  /\ Str.contains "hey" (Str.lower "hey there") = true
  /\ simple_fallback_reply env_offline (PStr "hey there") [] = (inr (PStr default_text), [])
  /\ default_text <> greeting_text.
Proof. repeat split. discriminate. Qed.

(** ** What a computation may add to the journal *)

Lemma emits_ret {A} P (a : A) : emits P (ret a).
Proof. intros w. exists []. simpl. rewrite app_nil_r. auto. Qed.

Lemma emits_raise {A} P e : emits P (@raise A e).
Proof. intros w. exists []. simpl. rewrite app_nil_r. auto. Qed.

Lemma emits_emit P e : P e = true -> emits P (emit e).
Proof. intros H w. exists [e]. simpl. rewrite H. auto. Qed.

Lemma emits_bind {A B} P (m : M A) (f : A -> M B) :
  emits P m -> (forall a, emits P (f a)) -> emits P (bind m f).
Proof.
  intros Hm Hf w. unfold bind.
  destruct (Hm w) as [es1 [E1 F1]].
  destruct (m w) as [[e | a] w1]; simpl in E1; subst w1.
  - exists es1. auto.
  - destruct (Hf a (w ++ es1)) as [es2 [E2 F2]].
    exists (es1 ++ es2). rewrite E2, app_assoc, forallb_app, F1, F2. auto.
Qed.

Lemma emits_try {A} P (m : M A) (h : exn -> M A) :
  emits P m -> (forall e, emits P (h e)) -> emits P (try_except m h).
Proof.
  intros Hm Hh w. unfold try_except.
  destruct (Hm w) as [es1 [E1 F1]].
  destruct (m w) as [[e | a] w1]; simpl in E1; subst w1.
  - destruct (Hh e (w ++ es1)) as [es2 [E2 F2]].
    exists (es1 ++ es2). rewrite E2, app_assoc, forallb_app, F1, F2. auto.
  - exists es1. auto.
Qed.

Lemma emits_if {A} P (b : bool) (m1 m2 : M A) :
  emits P m1 -> emits P m2 -> emits P (if b then m1 else m2).
Proof. destruct b; auto. Qed.

(** A computation that appends exactly one effect, whatever it returns. *)
Lemma emits_one {A} P (r : World -> exn + A) e :
  P e = true -> emits P (fun w => (r w, w ++ [e])).
Proof. intros H w. exists [e]. simpl. rewrite H. auto. Qed.

Lemma emits_count {A} P Q (m : M A) w :
  emits P m -> (forall e, P e = true -> Q e = false) ->
  count Q (snd (m w)) = count Q w.
Proof.
  intros Hm HPQ. destruct (Hm w) as [es [-> F]].
  rewrite count_app. unfold count.
  assert (filter Q es = []) as ->; [| simpl; lia].
  induction es as [| e es IH]; [reflexivity |].
  simpl in F. apply andb_true_iff in F. destruct F as [Fe Fes].
  simpl. rewrite (HPQ e Fe). apply IH, Fes.
Qed.

Lemma emits_py_get P v k dflt : emits P (py_get v k dflt).
Proof. destruct v; simpl; try apply emits_raise. apply emits_ret. Qed.

Lemma emits_py_item P v k : emits P (py_item v k).
Proof.
  destruct v; simpl; try apply emits_raise.
  destruct (dict_get d k); [apply emits_ret | apply emits_raise].
Qed.

Lemma emits_py_item0 P v : emits P (py_item0 v).
Proof.
  destruct v as [| | | | s | l | d]; simpl; try apply emits_raise.
  - destruct s; [apply emits_raise | apply emits_ret].
  - destruct l; [apply emits_raise | apply emits_ret].
Qed.

Lemma emits_py_lower P v : emits P (py_lower v).
Proof. destruct v; simpl; try apply emits_raise. apply emits_ret. Qed.

Lemma emits_attempt P (m : M pyval) : emits P m -> emits P (attempt m).
Proof.
  intros Hm. unfold attempt.
  apply emits_bind; [exact Hm | intros res].
  apply emits_bind; [apply emits_py_get | intros ok].
  apply emits_if; apply emits_ret.
Qed.

(** Breaks a goal [emits P m] down along the structure of [m]. *)
Ltac emits_step :=
  match goal with
  | |- emits _ (ret _) => apply emits_ret
  | |- emits _ (raise _) => apply emits_raise
  | |- emits _ (py_get _ _ _) => apply emits_py_get
  | |- emits _ (py_item _ _) => apply emits_py_item
  | |- emits _ (py_item0 _) => apply emits_py_item0
  | |- emits _ (py_lower _) => apply emits_py_lower
  | |- emits _ (logger _ _) => apply emits_emit; reflexivity
  | |- emits _ (emit _) => apply emits_emit; reflexivity
  | |- emits _ (bind _ _) => apply emits_bind; [| intros ?]
  | |- emits _ (try_except _ _) => apply emits_try; [| intros ?]
  | |- emits _ (attempt _) => apply emits_attempt
  | |- emits _ (if _ then _ else _) => apply emits_if
  | |- emits _ (match ?x with Some _ => _ | None => _ end) => destruct x
  | |- emits _ (fun w => (_, w ++ [_])) => apply emits_one; reflexivity
  end.

Ltac emits_auto := repeat emits_step.

Lemma quiet_not_storage e : quiet e = true -> not_storage e = true.
Proof. unfold quiet, not_storage. intros H. apply andb_true_iff in H. tauto. Qed.

Lemma emits_weaken {A} (P Q : effect -> bool) (m : M A) :
  (forall e, P e = true -> Q e = true) -> emits P m -> emits Q m.
Proof.
  intros HPQ Hm w. destruct (Hm w) as [es [E F]]. exists es. split; [exact E |].
  rewrite forallb_forall in *. auto.
Qed.

Lemma emits_local_module env prompt user : emits quiet (ai_call_local_module env prompt user).
Proof.
  unfold ai_call_local_module.
  destruct (local_ai env) as [m |]; [| emits_auto].
  emits_auto.
  unfold local_module_probe, call_local_ai.
  destruct (ai_generate m); [emits_auto |].
  destruct (generate_reply m); [emits_auto |].
  destruct (chat m); [| emits_auto].
  emits_auto.
  match goal with a : pyval |- _ => destruct a; emits_auto end.
Qed.

Lemma emits_openai_chat_attempt env model prompt :
  emits quiet (openai_chat_attempt env model prompt).
Proof.
  unfold openai_chat_attempt. intros w.
  destruct (openai_chat env (count is_openai w) model prompt) as [e | [e | c] | v];
    try (exists [EOpenAIChat model prompt]; split; reflexivity).
  destruct v; try (exists [EOpenAIChat model prompt]; split; reflexivity).
  destruct (has_key d "choices");
    [| exists [EOpenAIChat model prompt]; split; reflexivity].
  match goal with
  | |- context [?m (w ++ [?e])] =>
      assert (Hm : emits quiet m) by emits_auto;
      destruct (Hm (w ++ [e])) as [es [E F]]
  end.
  exists (EOpenAIChat model prompt :: es). rewrite E, <- app_assoc.
  split; [reflexivity | exact F].
Qed.

Lemma emits_openai_completion_attempt env model prompt :
  emits quiet (openai_completion_attempt env model prompt).
Proof.
  unfold openai_completion_attempt. intros w. simpl.
  destruct (openai_completion env (count is_openai w) model prompt);
    exists [EOpenAICompletion model prompt]; split; reflexivity.
Qed.

Lemma emits_openai env prompt user : emits quiet (ai_call_openai env prompt user).
Proof.
  unfold ai_call_openai, openai_probe, call_local_ai.
  repeat (emits_step
          || apply emits_openai_chat_attempt
          || apply emits_openai_completion_attempt).
Qed.

Lemma emits_fallback env prompt : emits quiet (simple_fallback_reply env prompt).
Proof.
  unfold simple_fallback_reply, datetime_utcnow. emits_auto.
  unfold crypto_probe, call_local_ai.
  destruct (local_ai env) as [m |]; [| emits_auto].
  destruct (crypto_summary m); emits_auto.
Qed.

(** ** The adapters *)

Lemma proxy_post_run env url payload w :
  proxy_post env url payload w =
    match http_post env (count is_post w) url payload with
    | inr v => (inr v, w ++ [EPost url payload])
    | inl e =>
        (inr (PDict [("ok", PBool false); ("error", PStr (exn_str e))]),
         w ++ [EPost url payload; ELog "exception" "proxy_post failed"])
    end.
Proof.
  unfold proxy_post, try_except, requests_post, bind, logger, emit, ret.
  destruct (http_post env (count is_post w) url payload); [| reflexivity].
  rewrite <- app_assoc. reflexivity.
Qed.

Lemma microservice_run env prompt user w :
  configured (AI_SERVICE_URL env) = true ->
  ai_call_microservice env prompt user w =
    proxy_post env (ai_chat_url env) (PDict [("prompt", prompt); ("user", user)]) w.
Proof. unfold ai_call_microservice. intros ->. reflexivity. Qed.

(** A configured microservice adapter makes exactly one POST per call. *)
Lemma microservice_posts_once env prompt user w :
  configured (AI_SERVICE_URL env) = true ->
  count (is_ai_post env) (snd (ai_call_microservice env prompt user w))
  = S (count (is_ai_post env) w).
Proof.
  intros Hc. rewrite (microservice_run _ _ _ _ Hc), proxy_post_run.
  destruct (http_post env _ _ _); simpl; rewrite count_app; unfold count; simpl;
    rewrite String.eqb_refl; simpl; lia.
Qed.

Lemma attempt_world (m : M pyval) w : snd (attempt m w) = snd (m w).
Proof.
  unfold attempt, bind. destruct (m w) as [[e | res] w1]; [reflexivity |].
  destruct res; simpl; try reflexivity.
  destruct (truthy _); reflexivity.
Qed.

Lemma attempt_dict (m : M pyval) w d w1 :
  m w = (inr (PDict d), w1) ->
  attempt m w = (inr (if is_ok (PDict d) then Some (PDict d) else None), w1).
Proof.
  intros H. unfold attempt. rewrite (bind_step _ _ _ _ _ H).
  unfold bind, py_get, ret, is_ok, field.
  destruct (truthy _); reflexivity.
Qed.

Lemma attempt_some (m : M pyval) w res w1 :
  attempt m w = (inr (Some res), w1) ->
  m w = (inr res, w1) /\ is_ok res = true /\ exists d, res = PDict d.
Proof.
  unfold attempt, bind. destruct (m w) as [[e | r] w0]; [discriminate |].
  destruct r; simpl; try discriminate.
  unfold ret, is_ok, field.
  destruct (truthy _) eqn:T; intros H; inversion H; subst.
  repeat split; eauto.
Qed.

Lemma attempt_none (m : M pyval) w w1 :
  attempt m w = (inr None, w1) ->
  exists d, m w = (inr (PDict d), w1) /\ is_ok (PDict d) = false.
Proof.
  unfold attempt, bind. destruct (m w) as [[e | r] w0]; [discriminate |].
  destruct r; simpl; try discriminate.
  unfold ret, is_ok, field.
  destruct (truthy _) eqn:T; intros H; inversion H; subst.
  eexists. split; [reflexivity | exact T].
Qed.

Lemma attempt_total (m : M pyval) w :
  returns_dict m ->
  exists r w1, attempt m w = (inr r, w1)
               /\ forall res, r = Some res -> is_ok res = true.
Proof.
  intros Hm. destruct (Hm w) as [d [w1 H]].
  rewrite (attempt_dict _ _ _ _ H).
  eexists _, _. split; [reflexivity |].
  destruct (is_ok (PDict d)) eqn:E; intros res Hr; inversion Hr; subst; exact E.
Qed.

Lemma local_module_returns_dict env prompt user :
  returns_dict (ai_call_local_module env prompt user).
Proof.
  intros w. unfold ai_call_local_module.
  destruct (local_ai env) as [m |]; [| eexists _, _; reflexivity].
  unfold bind, try_except, local_module_probe, call_local_ai, logger, emit, ret, bind.
  destruct (ai_generate m) as [f |].
  { destruct (f _ _); eexists _, _; reflexivity. }
  destruct (generate_reply m) as [f |].
  { destruct (f _ _); eexists _, _; reflexivity. }
  destruct (chat m) as [f |]; [| eexists _, _; reflexivity].
  destruct (f _ _) as [e | res]; [eexists _, _; reflexivity |].
  destruct res; try (eexists _, _; reflexivity).
  destruct (dict_get d "reply"); eexists _, _; reflexivity.
Qed.

Lemma try_option_dict (m : M (option pyval)) (h : exn -> M (option pyval)) dflt :
  (forall w r w1, m w = (inr (Some r), w1) -> exists d, r = PDict d) ->
  (forall e w, exists w1, h e w = (inr None, w1)) ->
  returns_dict
    (r <- try_except m h ;;
     match r with Some res => ret res | None => ret (PDict dflt) end).
Proof.
  intros Hm Hh w. unfold bind, try_except.
  destruct (m w) as [[e | [r |]] w1] eqn:E.
  - destruct (Hh e w1) as [w2 ->]. eexists _, _. reflexivity.
  - destruct (Hm _ _ _ E) as [d ->]. eexists _, _. reflexivity.
  - eexists _, _. reflexivity.
Qed.

Lemma ok_result_some {A} (m : M A) (g : A -> pyval) (k : A -> M (option pyval)) w r w1 :
  (forall a, k a = ret (Some (ok_result (g a)))) ->
  bind m k w = (inr (Some r), w1) -> exists d, r = PDict d.
Proof.
  intros Hk H. apply bind_inr in H. destruct H as [a [w0 [_ H]]].
  rewrite Hk in H. inversion H. eexists. reflexivity.
Qed.

Lemma openai_returns_dict env prompt user :
  returns_dict (ai_call_openai env prompt user).
Proof.
  unfold ai_call_openai. apply try_option_dict.
  - intros w r w1 H. unfold openai_probe in H.
    apply bind_inr in H. destruct H as [r0 [w0 [H0 H]]].
    destruct r0 as [res |].
    + inversion H; subst.
      destruct (local_ai env) as [m |]; [| discriminate].
      destruct (ai_generate_openai m).
      { eapply ok_result_some in H0; [exact H0 | reflexivity]. }
      destruct (openai_generate m); [| discriminate].
      eapply ok_result_some in H0; [exact H0 | reflexivity].
    + destruct (negb _); [| discriminate].
      destruct (openai_installed env); [| discriminate].
      unfold try_except in H.
      match type of H with
      | context [openai_chat_attempt env ?mo prompt w0] =>
          destruct (openai_chat_attempt env mo prompt w0) as [[e | ro] w2] eqn:E
      end.
      * unfold bind, logger, emit in H.
        unfold openai_completion_attempt in H.
        destruct (openai_completion env _ _ prompt); inversion H.
        eexists. reflexivity.
      * inversion H; subst. clear H.
        unfold openai_chat_attempt in E.
        destruct (openai_chat env _ _ prompt) as [e | [e | c] | v];
          try discriminate.
        { inversion E. eexists. reflexivity. }
        destruct v; try discriminate.
        destruct (has_key d "choices"); [| discriminate].
        repeat (apply bind_inr in E; destruct E as [? [? [_ E]]]).
        inversion E. eexists. reflexivity.
  - intros e w. eexists. reflexivity.
Qed.

(** When every body the microservice sends is a JSON object, its adapter
    always hands back a dict. *)
Lemma microservice_returns_dict env prompt user :
  (forall n url payload v, http_post env n url payload = inr v -> exists d, v = PDict d) ->
  returns_dict (ai_call_microservice env prompt user).
Proof.
  intros Hobj w. unfold ai_call_microservice.
  destruct (negb (configured (AI_SERVICE_URL env))); [eexists _, _; reflexivity |].
  rewrite proxy_post_run.
  destruct (http_post env _ _ _) as [e | v] eqn:E; [eexists _, _; reflexivity |].
  destruct (Hobj _ _ _ _ E) as [d ->]. eexists _, _. reflexivity.
Qed.

(** ** The orchestrator *)

Lemma generate_returns_dict env prompt user prefer w res w1 :
  generate_ai_reply env prompt user prefer w = (inr res, w1) ->
  exists d, res = PDict d.
Proof.
  unfold generate_ai_reply. intros H.
  apply bind_inr in H. destruct H as [r1 [wa [H1 H]]].
  destruct r1 as [res1 |].
  { inversion H; subst.
    destruct (configured (AI_SERVICE_URL env)
              && (py_eq_str prefer "microservice" || py_eq_str prefer "auto"));
      [| inversion H1].
    apply attempt_some in H1. tauto. }
  apply bind_inr in H. destruct H as [r2 [wb [H2 H]]].
  destruct r2 as [res2 |].
  { inversion H; subst. apply attempt_some in H2. tauto. }
  apply bind_inr in H. destruct H as [r3 [wc [H3 H]]].
  destruct r3 as [res3 |].
  { inversion H; subst. apply attempt_some in H3. tauto. }
  apply bind_inr in H. destruct H as [r4 [wd [H4 H]]].
  destruct r4 as [res4 |].
  { inversion H; subst.
    destruct (configured (AI_SERVICE_URL env) && py_eq_str prefer "auto");
      [| inversion H4].
    apply attempt_some in H4. tauto. }
  apply bind_inr in H. destruct H as [fb [we [_ H]]].
  inversion H. eexists. reflexivity.
Qed.

(** X1: the guarantee of the orchestrator, where it holds: as long as the
    microservice answers with JSON objects, every string prompt gets a
    result whose [ok] is truthy. *)
Theorem generate_ok_on_object_bodies env prompt user prefer w :
  (forall n url payload v, http_post env n url payload = inr v -> exists d, v = PDict d) ->
  exists res w1,
    generate_ai_reply env (PStr prompt) user prefer w = (inr res, w1)
    /\ is_ok res = true.
Proof.
  intros Hobj.
  pose proof (microservice_returns_dict env (PStr prompt) user Hobj) as Hms.
  pose proof (local_module_returns_dict env (PStr prompt) user) as Hlm.
  pose proof (openai_returns_dict env (PStr prompt) user) as Hoa.
  unfold generate_ai_reply.
  assert (S1 : exists r wa,
             (if configured (AI_SERVICE_URL env)
                 && (py_eq_str prefer "microservice" || py_eq_str prefer "auto")
              then attempt (ai_call_microservice env (PStr prompt) user)
              else ret None) w = (inr r, wa)
             /\ forall res, r = Some res -> is_ok res = true).
  { destruct (configured (AI_SERVICE_URL env)
              && (py_eq_str prefer "microservice" || py_eq_str prefer "auto"));
      [apply attempt_total, Hms |].
    eexists _, _. split; [reflexivity | discriminate]. }
  destruct S1 as [r1 [wa [E1 K1]]]. rewrite (bind_step _ _ _ _ _ E1).
  destruct r1 as [res1 |]; [eexists _, _; split; [reflexivity | auto] |].
  destruct (attempt_total _ wa Hlm) as [r2 [wb [E2 K2]]].
  rewrite (bind_step _ _ _ _ _ E2).
  destruct r2 as [res2 |]; [eexists _, _; split; [reflexivity | auto] |].
  destruct (attempt_total _ wb Hoa) as [r3 [wc [E3 K3]]].
  rewrite (bind_step _ _ _ _ _ E3).
  destruct r3 as [res3 |]; [eexists _, _; split; [reflexivity | auto] |].
  assert (S4 : exists r wd,
             (if configured (AI_SERVICE_URL env) && py_eq_str prefer "auto"
              then attempt (ai_call_microservice env (PStr prompt) user)
              else ret None) wc = (inr r, wd)
             /\ forall res, r = Some res -> is_ok res = true).
  { destruct (configured (AI_SERVICE_URL env) && py_eq_str prefer "auto");
      [apply attempt_total, Hms |].
    eexists _, _. split; [reflexivity | discriminate]. }
  destruct S4 as [r4 [wd [E4 K4]]]. rewrite (bind_step _ _ _ _ _ E4).
  destruct r4 as [res4 |]; [eexists _, _; split; [reflexivity | auto] |].
  destruct (fallback_total env prompt wd) as [fb [we Ef]].
  rewrite (bind_step _ _ _ _ _ Ef).
  eexists _, _. split; reflexivity.
Qed.

(** C1, on the code: the microservice is configured and answers 200 with
    the JSON array [[]]; [proxy_post] hands the list back, [res.get("ok")]
    raises AttributeError, and [generate_ai_reply] lets it escape instead of
    returning a result. *)
Theorem generate_raises_on_array_body :
  configured (AI_SERVICE_URL env_array_body) = true
  /\ proxy_post env_array_body "http://ai.internal/chat"
       (PDict [("prompt", PStr "hello"); ("user", PStr "u1")]) []
     = (inr (PList []),
        [EPost "http://ai.internal/chat"
           (PDict [("prompt", PStr "hello"); ("user", PStr "u1")])])
  /\ generate_ai_reply env_array_body (PStr "hello") (PStr "u1") (PStr "auto") []
     = (inl (Exn "AttributeError" "object has no attribute 'get'"),
        [EPost "http://ai.internal/chat"
           (PDict [("prompt", PStr "hello"); ("user", PStr "u1")])]).
Proof. refine (conj _ (conj _ _)); reflexivity. Qed.


Lemma quiet_not_ai_post env e : quiet e = true -> is_ai_post env e = false.
Proof. destruct e; simpl; try reflexivity. discriminate. Qed.

Lemma count_bind_frame {A B} P Q (m : M A) (k : A -> M B) w :
  (forall a, emits P (k a)) -> (forall e, P e = true -> Q e = false) ->
  count Q (snd (bind m k w)) = count Q (snd (m w)).
Proof.
  intros Hk HPQ. unfold bind. destruct (m w) as [[e | a] w1]; [reflexivity |].
  simpl. apply (emits_count P Q (k a) w1 (Hk a) HPQ).
Qed.





(** C3: with the preference "auto" and the microservice configured, once
    the first microservice attempt, the local module and the provider have
    all failed, the orchestrator asks the microservice a second time and
    only then falls back, which makes two microservice POSTs in all; with
    any other preference it makes at most one. *)
Theorem auto_retries_microservice_once env prompt user prefer w :
  (prefer = PStr "auto" -> configured (AI_SERVICE_URL env) = true ->
   forall w1 w2 w3,
     attempt (ai_call_microservice env prompt user) w = (inr None, w1) ->
     attempt (ai_call_local_module env prompt user) w1 = (inr None, w2) ->
     attempt (ai_call_openai env prompt user) w2 = (inr None, w3) ->
     generate_ai_reply env prompt user prefer w =
       (r <- attempt (ai_call_microservice env prompt user) ;;
        match r with
        | Some res => ret res
        | None => fallback <- simple_fallback_reply env prompt ;;
                  ret (ok_result fallback)
        end) w3
     /\ count (is_ai_post env) w3 = S (count (is_ai_post env) w)
     /\ count (is_ai_post env) (snd (generate_ai_reply env prompt user prefer w))
        = S (S (count (is_ai_post env) w)))
  /\ (py_eq_str prefer "auto" = false ->
      count (is_ai_post env) (snd (generate_ai_reply env prompt user prefer w))
      <= S (count (is_ai_post env) w)).
Proof.
  split.
  - intros -> Hc w1 w2 w3 E1 E2 E3.
    assert (Hgen : generate_ai_reply env prompt user (PStr "auto") w =
                   (r <- attempt (ai_call_microservice env prompt user) ;;
                    match r with
                    | Some res => ret res
                    | None => fallback <- simple_fallback_reply env prompt ;;
                              ret (ok_result fallback)
                    end) w3).
    { unfold generate_ai_reply. rewrite Hc. simpl andb.
      rewrite (bind_step _ _ _ _ _ E1), (bind_step _ _ _ _ _ E2),
        (bind_step _ _ _ _ _ E3).
      reflexivity. }
    assert (C1 : count (is_ai_post env) w1 = S (count (is_ai_post env) w)).
    { replace w1 with (snd (attempt (ai_call_microservice env prompt user) w))
        by (rewrite E1; reflexivity).
      rewrite attempt_world. apply microservice_posts_once, Hc. }
    assert (C2 : count (is_ai_post env) w2 = count (is_ai_post env) w1).
    { replace w2 with (snd (attempt (ai_call_local_module env prompt user) w1))
        by (rewrite E2; reflexivity).
      rewrite attempt_world.
      apply (emits_count quiet); [apply emits_local_module | apply quiet_not_ai_post]. }
    assert (C3 : count (is_ai_post env) w3 = count (is_ai_post env) w2).
    { replace w3 with (snd (attempt (ai_call_openai env prompt user) w2))
        by (rewrite E3; reflexivity).
      rewrite attempt_world.
      apply (emits_count quiet); [apply emits_openai | apply quiet_not_ai_post]. }
    split; [exact Hgen | split; [congruence |]].
    rewrite Hgen.
    rewrite (count_bind_frame quiet).
    + rewrite attempt_world, (microservice_posts_once _ _ _ _ Hc). congruence.
    + intros [res |]; emits_auto. apply emits_fallback.
    + apply quiet_not_ai_post.
  - intros Hp. unfold generate_ai_reply. rewrite Hp, andb_false_r, orb_false_r.
    rewrite (count_bind_frame quiet).
    + destruct (configured (AI_SERVICE_URL env)) eqn:Hc; simpl andb.
      * destruct (py_eq_str prefer "microservice"); simpl; [| lia].
        rewrite attempt_world, (microservice_posts_once _ _ _ _ Hc). lia.
      * simpl. lia.
    + intros [res |]; [apply emits_ret |].
      repeat (emits_step || apply emits_local_module || apply emits_openai
              || apply emits_fallback).
    + apply quiet_not_ai_post.
Qed.

Lemma auto_retries_microservice_once_witness :
  count (is_ai_post env_ai_down)
    (snd (generate_ai_reply env_ai_down (PStr "hello") (PStr "u1") (PStr "auto") [])) = 2
  /\ count (is_ai_post env_ai_down)
       (snd (generate_ai_reply env_ai_down (PStr "hello") (PStr "u1")
               (PStr "microservice") [])) <= 1.
Proof.
  split.
  - pose (w1 := [EPost "http://ai.internal/chat"
                   (PDict [("prompt", PStr "hello"); ("user", PStr "u1")]);
                 ELog "exception" "proxy_post failed"]).
    destruct (proj1 (auto_retries_microservice_once env_ai_down (PStr "hello")
                       (PStr "u1") (PStr "auto") [])
                eq_refl eq_refl w1 w1 w1 eq_refl eq_refl eq_refl) as [_ [_ H]].
    exact H.
  - apply (proj2 (auto_retries_microservice_once env_ai_down (PStr "hello")
                    (PStr "u1") (PStr "microservice") [])).
    reflexivity.
Defined.

(** ** The chat handler *)

Lemma bind_ret {A B} (a : A) (k : A -> M B) w : bind (ret a) k w = k a w.
Proof. reflexivity. Qed.

Lemma request_message_run d w :
  request_message (PDict d) w = (inr (message_of d), w).
Proof.
  unfold request_message, message_of, bind, py_get, ret, field.
  destruct (truthy _); reflexivity.
Qed.

Lemma message_of_empty d :
  empty_or_absent d "message" = true -> empty_or_absent d "prompt" = true ->
  truthy (message_of d) = false.
Proof.
  unfold empty_or_absent, message_of, field, py_or.
  destruct (dict_get d "message") as [m |]; destruct (dict_get d "prompt") as [p |];
    intros Hm Hp; try apply negb_true_iff in Hm; try apply negb_true_iff in Hp;
    try rewrite Hm; try rewrite Hp; simpl; try rewrite Hp; reflexivity.
Qed.

Lemma message_of_present d m :
  dict_get d "message" = Some m -> truthy m = true -> message_of d = m.
Proof. unfold message_of, field. intros -> ->. reflexivity. Qed.

(** The handler on a dict body: the 400 answer, or the rest of the view. *)
Lemma chat_endpoint_dict env req d w :
  request_body req = PDict d ->
  chat_endpoint env req w =
    if truthy (message_of d) then chat_after_validation env d w
    else (inr (err_result "empty_message", 400), w).
Proof.
  intros Hb. unfold chat_endpoint. rewrite Hb.
  rewrite (bind_step _ _ _ _ _ (request_message_run d w)).
  unfold py_get. rewrite !bind_ret.
  destruct (truthy (message_of d)); reflexivity.
Qed.

Lemma chat_tts_run env d reply w :
  exists w', chat_tts env (PDict d) reply w = (inr (tts_audio env d reply w), w').
Proof.
  unfold chat_tts, tts_audio. unfold py_get at 1 2. rewrite !bind_ret.
  fold (field d "language" (PStr "en")). fold (field d "mood" (PStr "cheerful")).
  destruct (configured (VOICE_SERVICE_URL env)).
  - unfold try_except, bind. rewrite proxy_post_run.
    destruct (http_post env _ _ _) as [e | v].
    + eexists. reflexivity.
    + destruct v; eexists; reflexivity.
  - destruct (local_voice env) as [vm |]; [| eexists; reflexivity].
    destruct (speak_text vm) as [f |]; [| eexists; reflexivity].
    unfold try_except, call_local_voice.
    destruct (f _ _); eexists; reflexivity.
Qed.

Lemma emits_chat_tts env body reply : emits not_storage (chat_tts env body reply).
Proof.
  unfold chat_tts, proxy_post, requests_post, call_local_voice.
  emits_auto.
Qed.

Lemma emits_chat_finish env d reply latency :
  emits not_storage (chat_finish env d reply latency).
Proof.
  unfold chat_finish. emits_auto. apply emits_chat_tts.
Qed.

Lemma chat_finish_run env d reply latency w :
  chat_finish env d reply latency w =
    (inr (PDict ([("ok", PBool true); ("reply", reply); ("latency_s", latency)]
                 ++ (if voice_of d then [("audio", tts_audio env d reply w)] else [])),
          200),
     snd (chat_finish env d reply latency w)).
Proof.
  unfold chat_finish. destruct (voice_of d).
  - destruct (chat_tts_run env d reply w) as [w' E].
    unfold bind. rewrite E. reflexivity.
  - reflexivity.
Qed.

Lemma emits_generate env prompt user prefer :
  emits not_storage (generate_ai_reply env prompt user prefer).
Proof.
  assert (Hms : emits not_storage (ai_call_microservice env prompt user)).
  { unfold ai_call_microservice, proxy_post, requests_post. emits_auto. }
  unfold generate_ai_reply.
  repeat (emits_step || exact Hms
          || (apply (emits_weaken quiet); [apply quiet_not_storage |];
              first [apply emits_local_module | apply emits_openai
                    | apply emits_fallback])).
Qed.

Lemma chatlog_run env user message reply latency w :
  try_except (db_add_chatlog env user message reply latency)
    (fun _ => logger "exception" "Failed to save chat log") w =
    (inr tt,
     w ++ [EDbChatLog user message reply latency (db_commit env (count is_db w))]
       ++ (if db_commit env (count is_db w) then []
           else [ELog "exception" "Failed to save chat log"])).
Proof.
  unfold try_except, db_add_chatlog, logger, emit.
  destruct (db_commit env (count is_db w)).
  - reflexivity.
  - rewrite <- app_assoc. reflexivity.
Qed.

(** The two record attempts always run to completion and add exactly
    [record_entries] to the journal. *)
Lemma record_run {B} env user message reply latency (k : M B) w :
  (try_except (db_add_chatlog env user message reply latency)
     (fun _ => logger "exception" "Failed to save chat log") ;;;
   append_event env (PStr "ai_query") (query_payload user message latency) ;;;
   k) w
  = k (w ++ record_entries env user message reply latency w).
Proof.
  rewrite (bind_step _ _ _ _ _ (chatlog_run env user message reply latency w)).
  rewrite (bind_step _ _ _ _ _ (append_event_run env _ _ _)).
  f_equal. unfold record_entries.
  destruct (db_commit env (count is_db w)) eqn:Ec;
    repeat rewrite count_app; unfold count at 2 3 5 6 8 9 11 12; simpl;
    rewrite ?Nat.add_0_r, ?Nat.add_1_r; repeat rewrite <- app_assoc; reflexivity.
Qed.

Lemma record_entries_counts env user message reply latency w :
  let es := record_entries env user message reply latency w in
  count is_chatlog es = 1 /\ count is_file es = 1 /\ count is_event_row es = 1
  /\ count is_post es = 0 /\ count is_local es = 0.
Proof.
  unfold record_entries.
  destruct (db_commit env (count is_db w)), (file_write env (count is_file w)),
    (db_commit env (S (count is_db w))); repeat split.
Qed.

(** Past validation, once the orchestrator has returned [res], the handler
    stamps the latency, attempts both records and assembles the response. *)
Lemma chat_after_validation_run env d w rd w1 :
  generate_ai_reply env (message_of d) (user_of d) (prefer_of d) (w ++ [ETime])
  = (inr (PDict rd), w1) ->
  let latency :=
    PFloat (time_time env (count is_clock w1) - time_time env (count is_clock w)) in
  let reply := field rd "reply" (PStr "Sorry — no reply available.") in
  chat_after_validation env d w =
    chat_finish env d reply latency
      ((w1 ++ [ETime])
         ++ record_entries env (user_of d) (message_of d) reply latency (w1 ++ [ETime])).
Proof.
  intros Hgen latency reply. unfold chat_after_validation.
  unfold bind at 1. unfold time_now at 1.
  rewrite (bind_step _ _ _ _ _ Hgen).
  unfold bind at 1. unfold time_now at 1.
  unfold py_get. rewrite bind_ret.
  rewrite record_run. reflexivity.
Qed.

Lemma chat_after_validation_status env d w body status w' :
  chat_after_validation env d w = (inr (body, status), w') -> status = 200.
Proof.
  unfold chat_after_validation. intros H.
  do 6 (apply bind_inr in H; destruct H as [? [? [_ H]]]).
  rewrite chat_finish_run in H. inversion H. reflexivity.
Qed.

(** X28: a body that is a JSON object, or is missing, unparseable or falsy
    (which the handler reads as [{}]): when its [message] and [prompt] are
    both empty or absent the answer is 400 [{ok: false, error:
    "empty_message"}] with nothing done (the journal is untouched: no
    orchestrator call, no ChatLog row, no event); when its message is
    non-empty the answer is never 400. *)
Theorem chat_rejects_only_empty_message env req d w :
  request_body req = PDict d ->
  (empty_or_absent d "message" = true -> empty_or_absent d "prompt" = true ->
   chat_endpoint env req w =
     (inr (PDict [("ok", PBool false); ("error", PStr "empty_message")], 400), w))
  /\ (forall m, dict_get d "message" = Some m -> truthy m = true ->
      forall body w', chat_endpoint env req w <> (inr (body, 400), w')).
Proof.
  intros Hb. split.
  - intros Hm Hp. rewrite (chat_endpoint_dict _ _ _ _ Hb), (message_of_empty _ Hm Hp).
    reflexivity.
  - intros m Hm Ht body w' H.
    rewrite (chat_endpoint_dict _ _ _ _ Hb), (message_of_present _ _ Hm Ht), Ht in H.
    apply chat_after_validation_status in H. discriminate.
Qed.

Lemma chat_rejects_only_empty_message_witness :
  chat_endpoint env_both (chat_request [("message", PStr EmptyString); ("user", PStr "u1")]) []
  = (inr (PDict [("ok", PBool false); ("error", PStr "empty_message")], 400), [])
  /\ forall body w',
       chat_endpoint env_both (chat_request [("message", PStr "hello")]) []
       <> (inr (body, 400), w').
Proof.
  split.
  - apply (proj1 (chat_rejects_only_empty_message env_both
                    (chat_request [("message", PStr EmptyString); ("user", PStr "u1")])
                    [("message", PStr EmptyString); ("user", PStr "u1")] [] eq_refl));
      reflexivity.
  - apply (proj2 (chat_rejects_only_empty_message env_both
                    (chat_request [("message", PStr "hello")])
                    [("message", PStr "hello")] [] eq_refl) (PStr "hello"));
      reflexivity.
Defined.

(** C7 fails on a body that is JSON but not an object.  A non-empty array,
    a non-empty string or a non-zero number passes the [or {}] of the first
    line as it is, and [body.get] then raises AttributeError: the request is
    answered with a server error, not with 400, although the body has
    neither a message nor a prompt.  Nothing was done before the raise. *)
Theorem chat_raises_on_non_object_body :
  (forall env req w,
      match request_body req with
      | PDict _ => True
      | _ => chat_endpoint env req w
             = (inl (Exn "AttributeError" "object has no attribute 'get'"), w)
      end)
  /\ request_body (mkRequest None None (Some (PList [PInt 1]))) = PList [PInt 1]
  /\ chat_endpoint env_offline (mkRequest None None (Some (PList [PInt 1]))) []
     = (inl (Exn "AttributeError" "object has no attribute 'get'"), [])
  /\ chat_endpoint env_offline (mkRequest None None (Some (PStr "x"))) []
     = (inl (Exn "AttributeError" "object has no attribute 'get'"), [])
  /\ chat_endpoint env_offline (mkRequest None None (Some (PInt 7))) []
     = (inl (Exn "AttributeError" "object has no attribute 'get'"), []).
Proof.
  refine (conj _ (conj _ (conj _ (conj _ _)))); try reflexivity.
  intros env req w. unfold chat_endpoint.
  destruct (request_body req); try exact I; reflexivity.
Qed.

Lemma not_storage_chatlog e : not_storage e = true -> is_chatlog e = false.
Proof. destruct e; simpl; try reflexivity; destruct ok; discriminate. Qed.

Lemma not_storage_file e : not_storage e = true -> is_file e = false.
Proof. destruct e; simpl; try reflexivity; discriminate. Qed.

Lemma not_storage_event_row e : not_storage e = true -> is_event_row e = false.
Proof. destruct e; simpl; try reflexivity; discriminate. Qed.

(** The TTS step looks at the journal only through the number of POSTs and
    of local-module calls made so far. *)
Lemma tts_audio_frame env d reply wa wb :
  count is_post wa = count is_post wb ->
  count is_local wa = count is_local wb ->
  tts_audio env d reply wa = tts_audio env d reply wb.
Proof. unfold tts_audio. intros -> ->. reflexivity. Qed.

(** The record attempts do not move what the TTS step will see. *)
Lemma tts_audio_after_records env env' d reply user message r latency w :
  tts_audio env d reply (w ++ record_entries env' user message r latency w)
  = tts_audio env d reply w.
Proof.
  destruct (record_entries_counts env' user message r latency w)
    as [_ [_ [_ [Hp Hl]]]]. cbv zeta in Hp, Hl.
  apply tts_audio_frame; rewrite count_app; [rewrite Hp | rewrite Hl]; lia.
Qed.

Lemma chat_after_validation_fail env d w e w1 :
  generate_ai_reply env (message_of d) (user_of d) (prefer_of d) (w ++ [ETime])
  = (inl e, w1) ->
  chat_after_validation env d w = (inl e, w1).
Proof.
  intros Hg. unfold chat_after_validation.
  unfold bind at 1. unfold time_now at 1.
  apply (bind_fail _ _ _ _ _ Hg).
Qed.

Lemma chat_storage_independent env fw dc req w :
  fst (chat_endpoint (with_storage fw dc env) req w) = fst (chat_endpoint env req w).
Proof.
  destruct (request_body req) as [| | | | | | d] eqn:Hb;
    try (unfold chat_endpoint; rewrite Hb; reflexivity).
  rewrite !(chat_endpoint_dict _ _ _ _ Hb).
  destruct (truthy (message_of d)); [| reflexivity].
  destruct (generate_ai_reply env (message_of d) (user_of d) (prefer_of d) (w ++ [ETime]))
    as [[e | res] w1] eqn:Hg.
  - rewrite (chat_after_validation_fail env d w e w1 Hg).
    rewrite (chat_after_validation_fail (with_storage fw dc env) d w e w1 Hg).
    reflexivity.
  - destruct (generate_returns_dict _ _ _ _ _ _ _ Hg) as [rd ->].
    rewrite (chat_after_validation_run env d w rd w1 Hg).
    rewrite (chat_after_validation_run (with_storage fw dc env) d w rd w1 Hg).
    rewrite chat_finish_run. simpl fst.
    rewrite chat_finish_run. simpl fst.
    rewrite !tts_audio_after_records. reflexivity.
Qed.

(** X2: a request that passes validation, once the orchestrator has
    produced its result (from an adapter or from the fallback), is answered
    200 after exactly one ChatLog insert attempt, exactly one append to the
    events file and exactly one Event insert attempt of type "ai_query";
    and whatever the file system and the database do, the response is the
    same. *)
Theorem chat_records_every_exchange env req d w res w1 :
  request_body req = PDict d ->
  truthy (message_of d) = true ->
  generate_ai_reply env (message_of d) (user_of d) (prefer_of d) (w ++ [ETime])
  = (inr res, w1) ->
  (exists body w',
     chat_endpoint env req w = (inr (body, 200), w')
     /\ count is_chatlog w' = S (count is_chatlog w)
     /\ count is_file w' = S (count is_file w)
     /\ count is_event_row w' = S (count is_event_row w)
     /\ (exists reply latency ok1 ts ok2 ok3,
           In (EDbChatLog (user_of d) (message_of d) reply latency ok1) w'
           /\ In (EFileAppend
                    (event_line (PStr "ai_query")
                       (query_payload (user_of d) (message_of d) latency) ts) ok2) w'
           /\ In (EDbEvent (PStr "ai_query")
                    (query_payload (user_of d) (message_of d) latency) ok3) w'))
  /\ (forall fw dc,
        fst (chat_endpoint (with_storage fw dc env) req w)
        = fst (chat_endpoint env req w)).
Proof.
  intros Hb Hv Hg. split; [| intros fw dc; apply chat_storage_independent].
  destruct (generate_returns_dict _ _ _ _ _ _ _ Hg) as [rd ->].
  rewrite (chat_endpoint_dict _ _ _ _ Hb), Hv.
  rewrite (chat_after_validation_run env d w rd w1 Hg).
  set (latency := PFloat _). set (reply := field rd _ _).
  set (w2 := w1 ++ [ETime]).
  set (es := record_entries env (user_of d) (message_of d) reply latency w2).
  rewrite chat_finish_run.
  destruct (emits_chat_finish env d reply latency (w2 ++ es)) as [fs [Hfs Ffs]].
  destruct (record_entries_counts env (user_of d) (message_of d) reply latency w2)
    as [K1 [K2 [K3 _]]]. cbv zeta in K1, K2, K3. fold es in K1, K2, K3.
  assert (Hq : forall Q, (forall e, not_storage e = true -> Q e = false) ->
                         count Q (snd (chat_finish env d reply latency (w2 ++ es)))
                         = count Q w + count Q es).
  { intros Q HQ.
    rewrite (emits_count not_storage Q _ _ (emits_chat_finish env d reply latency) HQ).
    rewrite count_app. f_equal. unfold w2.
    rewrite count_snoc_false by (apply HQ; reflexivity).
    replace w1 with (snd (generate_ai_reply env (message_of d) (user_of d)
                            (prefer_of d) (w ++ [ETime])))
      by (rewrite Hg; reflexivity).
    rewrite (emits_count not_storage Q _ _ (emits_generate env _ _ _) HQ).
    apply count_snoc_false, HQ. reflexivity. }
  eexists _, _. split; [reflexivity |].
  rewrite (Hq _ not_storage_chatlog), (Hq _ not_storage_file),
    (Hq _ not_storage_event_row), K1, K2, K3.
  repeat (split; [lia |]).
  exists reply, latency, (db_commit env (count is_db w2)),
    (time_time env (count is_clock w2)), (file_write env (count is_file w2)),
    (db_commit env (S (count is_db w2))).
  rewrite Hfs.
  repeat split; apply in_or_app; left; apply in_or_app; right; unfold es, record_entries;
    repeat (apply in_or_app; first [left; simpl; tauto | right]).
Qed.

Lemma chat_records_every_exchange_witness :
  (exists body w',
     chat_endpoint env_no_storage
       (chat_request [("message", PStr "hello"); ("user", PStr "u1")]) []
     = (inr (body, 200), w')
     /\ count is_chatlog w' = 1 /\ count is_file w' = 1 /\ count is_event_row w' = 1)
  /\ fst (chat_endpoint env_no_storage
            (chat_request [("message", PStr "hello"); ("user", PStr "u1")]) [])
     = fst (chat_endpoint env_offline
              (chat_request [("message", PStr "hello"); ("user", PStr "u1")]) []).
Proof.
  destruct (chat_records_every_exchange env_offline
              (chat_request [("message", PStr "hello"); ("user", PStr "u1")])
              [("message", PStr "hello"); ("user", PStr "u1")] []
              (ok_result (PStr greeting_text)) [ETime]
              eq_refl eq_refl eq_refl) as [_ Hindep].
  destruct (chat_records_every_exchange env_no_storage
              (chat_request [("message", PStr "hello"); ("user", PStr "u1")])
              [("message", PStr "hello"); ("user", PStr "u1")] []
              (ok_result (PStr greeting_text)) [ETime]
              eq_refl eq_refl eq_refl)
    as [[body [w' [Hrun [H1 [H2 [H3 _]]]]]] _].
  split.
  - exists body, w'. auto.
  - apply (Hindep (always false) (always false)).
Defined.

(** C9 (amended): when voice is requested, the response always carries an
    [audio] key next to [ok], [reply] and [latency_s]; its value is the
    reference the TTS collaborator returned, and [None] when the
    collaborator is missing, fails or returns none.  A TTS failure never
    fails the request. *)
Theorem chat_audio_key_when_voice env req d w res w1 :
  request_body req = PDict d ->
  truthy (message_of d) = true ->
  voice_of d = true ->
  generate_ai_reply env (message_of d) (user_of d) (prefer_of d) (w ++ [ETime])
  = (inr res, w1) ->
  exists reply latency w3 w',
    chat_endpoint env req w =
      (inr (PDict [("ok", PBool true); ("reply", reply); ("latency_s", latency);
                   ("audio", tts_audio env d reply w3)], 200), w')
    /\ chat_tts env (PDict d) reply w3 = (inr (tts_audio env d reply w3), w').
Proof.
  intros Hb Hm Hv Hg.
  destruct (generate_returns_dict _ _ _ _ _ _ _ Hg) as [rd ->].
  rewrite (chat_endpoint_dict _ _ _ _ Hb), Hm.
  rewrite (chat_after_validation_run env d w rd w1 Hg).
  set (latency := PFloat _). set (reply := field rd _ _).
  set (w3 := (w1 ++ [ETime]) ++ _).
  destruct (chat_tts_run env d reply w3) as [w' Htts].
  exists reply, latency, w3, w'. split; [| exact Htts].
  unfold chat_finish. rewrite Hv. unfold bind. rewrite Htts. reflexivity.
Qed.

Lemma chat_audio_key_when_voice_witness :
  (exists reply latency w3 w',
     chat_endpoint env_voice_up
       (chat_request [("message", PStr "hello"); ("voice", PBool true)]) []
     = (inr (PDict [("ok", PBool true); ("reply", reply); ("latency_s", latency);
                    ("audio",
                     tts_audio env_voice_up
                       [("message", PStr "hello"); ("voice", PBool true)] reply w3)],
             200), w')
     /\ chat_tts env_voice_up (PDict [("message", PStr "hello"); ("voice", PBool true)])
          reply w3
        = (inr (tts_audio env_voice_up
                  [("message", PStr "hello"); ("voice", PBool true)] reply w3), w'))
  /\ fst (chat_endpoint env_voice_up
            (chat_request [("message", PStr "hello"); ("voice", PBool true)]) [])
     = inr (PDict [("ok", PBool true); ("reply", PStr greeting_text);
                   ("latency_s", PFloat 1000);
                   ("audio", PStr "/static/audio/a1.mp3")], 200).
Proof.
  split.
  - apply (chat_audio_key_when_voice env_voice_up
             (chat_request [("message", PStr "hello"); ("voice", PBool true)])
             [("message", PStr "hello"); ("voice", PBool true)] []
             (ok_result (PStr greeting_text)) [ETime]);
      reflexivity.
  - reflexivity.
Defined.

(** C9, as stated, fails: voice is requested and the voice service is
    unreachable; the response still has the key [audio], holding [None]. *)
Lemma chat_audio_key_present_on_tts_failure :
  let run :=
    chat_endpoint env_voice_down
      (chat_request [("message", PStr "hello"); ("voice", PBool true)]) [] in
  let out := [("ok", PBool true); ("reply", PStr greeting_text);
              ("latency_s", PFloat 1000); ("audio", PNone)] in
  fst run = inr (PDict out, 200)
  /\ http_post env_voice_down 0 "http://voice.internal/speak"
       (PDict [("text", PStr greeting_text); ("language", PStr "en");
               ("mood", PStr "cheerful")])
     = inl (Exn "ConnectionError" "connection refused")
  /\ In (EPost "http://voice.internal/speak"
           (PDict [("text", PStr greeting_text); ("language", PStr "en");
                   ("mood", PStr "cheerful")])) (snd run)
  /\ has_key out "audio" = true
  /\ dict_get out "audio" = Some PNone.
Proof.
  cbv zeta. refine (conj _ (conj _ (conj _ (conj _ _)))); try reflexivity.
  vm_compute. tauto.
Qed.

(** C8, on the code: the request passes validation, the microservice
    answers 200 with the JSON array [[]], and the AttributeError raised in
    [generate_ai_reply] leaves the handler before either record attempt:
    no ChatLog insert, no append to the events file, no Event insert. *)
Theorem chat_skips_records_on_array_body :
  let req := chat_request [("message", PStr "hello"); ("user", PStr "u1")] in
  let run := chat_endpoint env_array_body req [] in
  truthy (message_of [("message", PStr "hello"); ("user", PStr "u1")]) = true
  /\ run = (inl (Exn "AttributeError" "object has no attribute 'get'"),
            [ETime;
             EPost "http://ai.internal/chat"
               (PDict [("prompt", PStr "hello"); ("user", PStr "u1")])])
  /\ count is_chatlog (snd run) = 0
  /\ count is_file (snd run) = 0
  /\ count is_event_row (snd run) = 0.
Proof. cbv zeta. refine (conj _ (conj _ (conj _ (conj _ _)))); reflexivity. Qed.

Lemma generate_ok_on_object_bodies_witness :
  exists res w1,
    generate_ai_reply env_flaky (PStr "what is new?") (PStr "u1") (PStr "auto") []
    = (inr res, w1)
    /\ is_ok res = true.
Proof.
  apply (generate_ok_on_object_bodies env_flaky "what is new?" (PStr "u1")
           (PStr "auto") []).
  intros n url payload v. simpl.
  destruct (Nat.eqb n 0); intros H; inversion H. eexists. reflexivity.
Defined.

(** * Part II: the other views of main.py and the modules they load *)

(** ** Event ingestion and the voice view *)

Section Views.

Variable env : Env.

(** [POST /events]. *)
Definition ingest_event (req : Request) : M Response :=
  let payload := request_body req in
  ev_type <- py_get payload "type" (PStr "custom") ;;
  inner <- py_get payload "payload" (PDict []) ;;
  append_event env ev_type inner ;;;
  ret (PDict [("ok", PBool true)], 200).

(** [POST /api/voice/speak]. *)
Definition voice_speak (req : Request) : M Response :=
  let payload := request_body req in
  text <- py_get payload "text" (PStr EmptyString) ;;
  lang <- py_get payload "language" (PStr "en") ;;
  mood <- py_get payload "mood" (PStr "cheerful") ;;
  if negb (truthy text) then ret (err_result "no_text", 400)
  else if configured (VOICE_SERVICE_URL env) then
    r <- proxy_post env (Str.rstrip_slash (url_of (VOICE_SERVICE_URL env)) ++ "/speak")%string
           payload ;;
    ret (r, 200)
  else
    match local_voice env with
    | Some vm =>
        match speak_text vm with
        | Some f =>
            try_except
              (audio <- call_local_voice "speak_text" f [text; lang; mood] ;;
               ret (PDict [("ok", PBool true); ("audio", audio)], 200))
              (fun _ =>
                 logger "exception" "local voice speak failed" ;;;
                 ret (err_result "tts_failed", 500))
        | None => ret (err_result "voice_unavailable", 404)
        end
    | None => ret (err_result "voice_unavailable", 404)
    end.

End Views.

(** A local voice module that cannot speak. *)
Definition voice_hoarse : VoiceModule :=
  {| speak_text := Some (fun _ _ => inl (Exn "RuntimeError" "no audio device")) |}.

(** The deployment [env] with a local voice module loaded. *)
Definition with_local_voice (vm : VoiceModule) (env : Env) : Env :=
  {| AI_SERVICE_URL := AI_SERVICE_URL env;
     VOICE_SERVICE_URL := VOICE_SERVICE_URL env;
     NEURA_ADMIN_TOKEN := NEURA_ADMIN_TOKEN env;
     OPENAI_API_KEY := OPENAI_API_KEY env;
     NEURA_MODEL := NEURA_MODEL env;
     local_ai := local_ai env;
     local_voice := Some vm;
     http_post := http_post env;
     openai_installed := openai_installed env;
     openai_chat := openai_chat env;
     openai_completion := openai_completion env;
     file_write := file_write env;
     db_commit := db_commit env;
     time_time := time_time env;
     utcnow := utcnow env;
     py_str := py_str env |}.

(** The URL the voice views post to. *)
Definition voice_speak_url (env : Env) : string :=
  (Str.rstrip_slash (url_of (VOICE_SERVICE_URL env)) ++ "/speak")%string.

(** X3: for a body that is a JSON object (or missing), [POST /events]
    always answers 200 [{ok: true}], whether or not the file append and
    the database insert went through; it makes exactly one attempt of each,
    with the type defaulting to "custom" and the payload to [{}], and the
    line is in the events file exactly when the write succeeded. *)
Theorem ingest_event_always_ok env req d w :
  request_body req = PDict d ->
  let ty := field d "type" (PStr "custom") in
  let inner := field d "payload" (PDict []) in
  exists w',
    ingest_event env req w = (inr (PDict [("ok", PBool true)], 200), w')
    /\ count is_file w' = S (count is_file w)
    /\ count is_event_row w' = S (count is_event_row w)
    /\ In (EDbEvent ty inner (db_commit env (count is_db w))) w'
    /\ events_file w' =
         events_file w
         ++ (if file_write env (count is_file w)
             then [event_line ty inner (time_time env (count is_clock w))]
             else []).
Proof.
  intros Hb ty inner. unfold ingest_event. rewrite Hb.
  unfold py_get. rewrite !bind_ret.
  fold (field d "type" (PStr "custom")). fold (field d "payload" (PDict [])).
  fold ty. fold inner.
  rewrite (bind_step _ _ _ _ _ (append_event_run env ty inner w)).
  eexists. split; [reflexivity |].
  destruct (file_write env (count is_file w)), (db_commit env (count is_db w));
    repeat rewrite count_app; rewrite !events_file_app; simpl;
    refine (conj _ (conj _ (conj _ _)));
    try (unfold count; simpl; lia);
    try (rewrite ?app_nil_r; reflexivity);
    apply in_or_app; right; simpl; tauto.
Qed.

Lemma ingest_event_always_ok_witness :
  exists w',
    ingest_event env_no_storage (chat_request [("type", PStr "book_view")]) []
    = (inr (PDict [("ok", PBool true)], 200), w')
    /\ count is_file w' = 1
    /\ events_file w' = [].
Proof.
  destruct (ingest_event_always_ok env_no_storage
              (chat_request [("type", PStr "book_view")])
              [("type", PStr "book_view")] [] eq_refl)
    as [w' [Hrun [Hf [_ [_ He]]]]].
  exists w'. split; [exact Hrun |]. split; [exact Hf | exact He].
Defined.

(** X4: [POST /api/voice/speak] on a JSON-object body.  An empty or
    missing [text] is answered 400 [no_text] with nothing done.  With
    VOICE_SERVICE_URL configured the whole body is posted to the voice
    service and the answer is always HTTP 200: the service's own JSON when
    it answers, [{ok: false, error: ...}] when it cannot be reached; the
    local voice module is not tried.  Without the URL the local module
    gives 200 with the audio, 500 [tts_failed] if it raises, and 404
    [voice_unavailable] if there is none. *)
Theorem voice_speak_statuses env req d w :
  request_body req = PDict d ->
  let text := field d "text" (PStr EmptyString) in
  let lang := field d "language" (PStr "en") in
  let mood := field d "mood" (PStr "cheerful") in
  (truthy text = false ->
   voice_speak env req w = (inr (err_result "no_text", 400), w))
  /\ (truthy text = true -> configured (VOICE_SERVICE_URL env) = true ->
      voice_speak env req w =
        match http_post env (count is_post w) (voice_speak_url env) (PDict d) with
        | inr v => (inr (v, 200), w ++ [EPost (voice_speak_url env) (PDict d)])
        | inl e =>
            (inr (PDict [("ok", PBool false); ("error", PStr (exn_str e))], 200),
             w ++ [EPost (voice_speak_url env) (PDict d);
                   ELog "exception" "proxy_post failed"])
        end)
  /\ (truthy text = true -> configured (VOICE_SERVICE_URL env) = false ->
      voice_speak env req w =
        match local_voice env with
        | Some vm =>
            match speak_text vm with
            | Some f =>
                match f (count is_local w) [text; lang; mood] with
                | inr audio =>
                    (inr (PDict [("ok", PBool true); ("audio", audio)], 200),
                     w ++ [ELocalVoice "speak_text" [text; lang; mood]])
                | inl _ =>
                    (inr (err_result "tts_failed", 500),
                     w ++ [ELocalVoice "speak_text" [text; lang; mood];
                           ELog "exception" "local voice speak failed"])
                end
            | None => (inr (err_result "voice_unavailable", 404), w)
            end
        | None => (inr (err_result "voice_unavailable", 404), w)
        end).
Proof.
  intros Hb text lang mood.
  assert (Hrun : voice_speak env req w =
                 (if negb (truthy text) then ret (err_result "no_text", 400)
                  else if configured (VOICE_SERVICE_URL env) then
                    r <- proxy_post env (voice_speak_url env) (PDict d) ;; ret (r, 200)
                  else
                    match local_voice env with
                    | Some vm =>
                        match speak_text vm with
                        | Some f =>
                            try_except
                              (audio <- call_local_voice "speak_text" f [text; lang; mood] ;;
                               ret (PDict [("ok", PBool true); ("audio", audio)], 200))
                              (fun _ =>
                                 logger "exception" "local voice speak failed" ;;;
                                 ret (err_result "tts_failed", 500))
                        | None => ret (err_result "voice_unavailable", 404)
                        end
                    | None => ret (err_result "voice_unavailable", 404)
                    end) w).
  { unfold voice_speak. rewrite Hb. unfold py_get. rewrite !bind_ret. reflexivity. }
  rewrite Hrun. clear Hrun.
  refine (conj _ (conj _ _)).
  - intros ->. reflexivity.
  - intros -> ->. change (negb true) with false. cbv iota.
    unfold bind. rewrite proxy_post_run.
    destruct (http_post env _ _ _); reflexivity.
  - intros -> ->. change (negb true) with false. cbv iota.
    destruct (local_voice env) as [vm |]; [| reflexivity].
    destruct (speak_text vm) as [f |]; [| reflexivity].
    unfold try_except, bind, call_local_voice, logger, emit, ret.
    destruct (f _ _); [| reflexivity].
    rewrite <- app_assoc. reflexivity.
Qed.

Lemma voice_speak_statuses_witness :
  voice_speak env_voice_down (chat_request [("text", PStr "good morning")]) []
  = (inr (PDict [("ok", PBool false); ("error", PStr "connection refused")], 200),
     [EPost "http://voice.internal/speak" (PDict [("text", PStr "good morning")]);
      ELog "exception" "proxy_post failed"])
  /\ voice_speak (with_local_voice voice_hoarse env_offline)
       (chat_request [("text", PStr "good morning")]) []
     = (inr (err_result "tts_failed", 500),
        [ELocalVoice "speak_text" [PStr "good morning"; PStr "en"; PStr "cheerful"];
         ELog "exception" "local voice speak failed"])
  /\ voice_speak env_voice_down (chat_request [("language", PStr "fr")]) []
     = (inr (err_result "no_text", 400), []).
Proof.
  refine (conj _ (conj _ _)).
  - rewrite (proj1 (proj2 (voice_speak_statuses env_voice_down
                             (chat_request [("text", PStr "good morning")])
                             [("text", PStr "good morning")] [] eq_refl))
               eq_refl eq_refl).
    reflexivity.
  - rewrite (proj2 (proj2 (voice_speak_statuses (with_local_voice voice_hoarse env_offline)
                             (chat_request [("text", PStr "good morning")])
                             [("text", PStr "good morning")] [] eq_refl))
               eq_refl eq_refl).
    reflexivity.
  - apply (proj1 (voice_speak_statuses env_voice_down
                    (chat_request [("language", PStr "fr")])
                    [("language", PStr "fr")] [] eq_refl)).
    reflexivity.
Defined.

(** ** More on the admin guard and the orchestrator *)

(** X5: with an admin token [T] configured, the [Authorization] header
    decides whenever it is present and non-empty: [Bearer T] is admitted, and
    a header that is neither [T] nor a [Bearer ] form is refused with 401
    even when the [admin_token] query parameter carries [T].  The query
    parameter is consulted only when the header is missing or empty. *)
Theorem admin_header_overrides_query_token env (f : Request -> M Response) h q j w :
  NEURA_ADMIN_TOKEN env <> EmptyString ->
  let T := NEURA_ADMIN_TOKEN env in
  (require_admin env f (mkRequest (Some ("Bearer " ++ T)%string) q j) w
   = f (mkRequest (Some ("Bearer " ++ T)%string) q j) w)
  /\ (h <> EmptyString -> Str.startswith "Bearer " h = false -> h <> T ->
      require_admin env f (mkRequest (Some h) (Some T) j) w
      = (inr (err_result "unauthorized", 401), w))
  /\ (Str.startswith "Bearer " T = false ->
      require_admin env f (mkRequest None (Some T) j) w = f (mkRequest None (Some T) j) w
      /\ require_admin env f (mkRequest (Some EmptyString) (Some T) j) w
         = f (mkRequest (Some EmptyString) (Some T) j) w).
Proof.
  intros Hset T. subst T. apply String.eqb_neq in Hset.
  refine (conj _ (conj _ _)).
  - unfold require_admin, request_token, bind, Str.startswith. simpl.
    replace (prefix EmptyString (NEURA_ADMIN_TOKEN env)) with true
      by (destruct (NEURA_ADMIN_TOKEN env); reflexivity).
    unfold ret. rewrite Hset, String.eqb_refl. reflexivity.
  - intros Hh Hb Hne. apply String.eqb_neq in Hh. apply String.eqb_neq in Hne.
    unfold require_admin, request_token, bind.
    cbn [header_Authorization arg_admin_token]. rewrite Hh. cbn [negb].
    rewrite Hb. unfold ret. rewrite Hset, Hne. reflexivity.
  - intros Hb.
    split; unfold require_admin, request_token, bind;
      cbn [header_Authorization arg_admin_token];
      rewrite ?String.eqb_refl; cbn [negb]; rewrite Hb; unfold ret;
      rewrite Hset, String.eqb_refl; reflexivity.
Qed.

Lemma admin_header_overrides_query_token_witness :
  require_admin env_admin stats_view
    (mkRequest (Some "letmein") (Some "s3cret") None) []
  = (inr (err_result "unauthorized", 401), [])
  /\ require_admin env_admin stats_view (mkRequest (Some "Bearer s3cret") None None) []
     = (inr (PDict [("ok", PBool true)], 200), [EHandler "admin_stats_post"]).
Proof.
  split.
  - apply (proj1 (proj2 (admin_header_overrides_query_token env_admin stats_view
                           "letmein" None None []
                           ltac:(discriminate))));
      [discriminate | reflexivity | discriminate].
  - etransitivity;
      [exact (proj1 (admin_header_overrides_query_token env_admin stats_view
                       "x" None None [] ltac:(discriminate)))
      | reflexivity].
Defined.

(** X6: with no AI microservice URL, no local [ai_engine] and no OpenAI
    key, the orchestrator answers every string prompt, for every user and
    preference, with [{ok: true, reply: <the fallback responder's text>}],
    and makes no HTTP, local-module or OpenAI call on the way. *)
Theorem orchestrator_offline_is_fallback env prompt user prefer w :
  configured (AI_SERVICE_URL env) = false ->
  local_ai env = None ->
  OPENAI_API_KEY env = EmptyString ->
  exists text w',
    generate_ai_reply env (PStr prompt) user prefer w
    = (inr (PDict [("ok", PBool true); ("reply", PStr text)]), w')
    /\ simple_fallback_reply env (PStr prompt) w = (inr (PStr text), w')
    /\ count is_post w' = count is_post w
    /\ count is_local w' = count is_local w
    /\ count is_openai w' = count is_openai w.
Proof.
  intros Hc Hl Hk.
  assert (Hfb : exists text w',
             simple_fallback_reply env (PStr prompt) w = (inr (PStr text), w')
             /\ (w' = w \/ w' = w ++ [EUtcNow])).
  { destruct (is_greeting (Str.lower prompt)) eqn:G.
    { eexists _, _. split; [apply fallback_greeting, G | auto]. }
    destruct (Str.contains "time" (Str.lower prompt)) eqn:Tm.
    { eexists _, _. split; [apply fallback_time; assumption | auto]. }
    destruct (Str.contains "health" (Str.lower prompt)) eqn:H.
    { eexists _, _. split; [apply fallback_health; assumption | auto]. }
    destruct (Str.contains "crypto" (Str.lower prompt)) eqn:C.
    { rewrite (fallback_crypto env prompt w G Tm H C).
      unfold crypto_answer. rewrite Hl. eexists _, _. split; [reflexivity | auto]. }
    eexists _, _. split; [apply fallback_default; assumption | auto]. }
  destruct Hfb as [text [w' [Hfb Hw]]].
  exists text, w'. split; [| split; [exact Hfb |]].
  - unfold generate_ai_reply, ai_call_local_module, ai_call_openai, openai_probe.
    rewrite Hc, Hl, Hk. simpl.
    unfold attempt, bind, try_except, ret, py_get, err_result. simpl.
    rewrite Hfb. reflexivity.
  - destruct Hw as [-> | ->]; [auto |].
    rewrite !count_snoc_false by reflexivity. auto.
Qed.

Lemma orchestrator_offline_is_fallback_witness :
  exists text w',
    generate_ai_reply env_offline (PStr "any news on crypto?") (PStr "u1") (PStr "auto") []
    = (inr (PDict [("ok", PBool true); ("reply", PStr text)]), w')
    /\ count is_post w' = 0.
Proof.
  destruct (orchestrator_offline_is_fallback env_offline "any news on crypto?"
              (PStr "u1") (PStr "auto") [] eq_refl eq_refl eq_refl)
    as [text [w' [Hrun [_ [Hp _]]]]].
  exists text, w'. split; [exact Hrun | exact Hp].
Defined.

(** ** A state-and-exception monad over any state *)

Definition SE (S A : Type) : Type := S -> (exn + A) * S.

Definition sret {S A} (a : A) : SE S A := fun s => (inr a, s).

Definition sraise {S A} (e : exn) : SE S A := fun s => (inl e, s).

Definition sbind {S A B} (m : SE S A) (f : A -> SE S B) : SE S B :=
  fun s =>
    match m s with
    | (inr a, s1) => f a s1
    | (inl e, s1) => (inl e, s1)
    end.

(** A pure computation that may raise, run without touching the state. *)
Definition pure {S A} (r : exn + A) : SE S A := fun s => (r, s).

Declare Scope se_scope.
Delimit Scope se_scope with se.
Notation "x <- m ;; k" := (sbind m (fun x => k))
  (at level 61, m at next level, right associativity) : se_scope.
Notation "m ;;; k" := (sbind m (fun _ => k))
  (at level 61, right associativity) : se_scope.

(** ** Python operations on values, as pure functions *)

(** [v.get(k, default)]. *)
Definition get_or (v : pyval) (k : string) (default : pyval) : exn + pyval :=
  match v with
  | PDict d => inr (field d k default)
  | _ => inl (Exn "AttributeError" "object has no attribute 'get'")
  end.

(** [list(v.values())]. *)
Definition values_of (v : pyval) : exn + list pyval :=
  match v with
  | PDict d => inr (map snd d)
  | _ => inl (Exn "AttributeError" "object has no attribute 'values'")
  end.

(** [l[start:stop]] on a list, with Python's treatment of negative and
    out-of-range bounds. *)
Definition py_slice {A} (l : list A) (start stop : Z) : list A :=
  let n := Z.of_nat (length l) in
  let norm := fun i : Z => if (i <? 0)%Z then Z.max 0 (i + n) else Z.min i n in
  let a := norm start in
  let b := norm stop in
  firstn (Z.to_nat (b - a)) (skipn (Z.to_nat a) l).

(** [v + 1] for the view counter. *)
Definition py_succ (v : pyval) : exn + pyval :=
  match v with
  | PInt n => inr (PInt (n + 1))
  | PFloat x => inr (PFloat (x + 1000))
  | PBool b => inr (PInt ((if b then 1 else 0) + 1))
  | _ => inl (Exn "TypeError" "unsupported operand type(s) for +")
  end.

(** [(a + b).lower()] as [list_books] writes it for title and author. *)
Definition concat_lower (a b : pyval) : exn + string :=
  match a, b with
  | PStr x, PStr y => inr (Str.lower (x ++ y)%string)
  | PList _, PList _ => inl (Exn "AttributeError" "'list' object has no attribute 'lower'")
  | (PInt _ | PFloat _ | PBool _), (PInt _ | PFloat _ | PBool _) =>
      inl (Exn "AttributeError" "object has no attribute 'lower'")
  | _, _ => inl (Exn "TypeError" "unsupported operand type(s) for +")
  end.

(** ** book_platform.py *)

Module Books.

Local Open Scope se_scope.

(** The cache key of [list_books]: its four arguments. *)
Definition list_key : Type := (Z * Z * option string * option string)%type.

(** What the module keeps between calls. *)
Record Shelf : Type := mkShelf {
  data : pyval;                       (* the document in books.json *)
  activity : list string;             (* the lines of activity.log *)
  cache : list (list_key * pyval);    (* lru_cache of list_books, most recent first *)
  draws : nat;                        (* uuid4() calls so far *)
  ticks : nat                         (* clock reads so far *)
}.

(** What the module takes from the interpreter and the machine. *)
Record Host : Type := mkHost {
  uuid_hex10 : nat -> string;         (* uuid.uuid4().hex[:10], at the n-th call *)
  time_float : nat -> Z;              (* time.time(), in thousandths *)
  time_stamp : nat -> string;         (* time.strftime('%Y-%m-%d %H:%M:%S') *)
  parse_float : string -> option Z;   (* float("...") in thousandths, None = ValueError *)
  float_of_int : Z -> option Z;       (* float(n) for an int beyond 2**53, in thousandths:
                                         rounded, None = OverflowError *)
  str_of : pyval -> string            (* str() of a value that is not a str *)
}.

Definition B (A : Type) : Type := SE Shelf A.

Definition set_data (v : pyval) (s : Shelf) : Shelf :=
  mkShelf v (activity s) (cache s) (draws s) (ticks s).

Definition set_cache (c : list (list_key * pyval)) (s : Shelf) : Shelf :=
  mkShelf (data s) (activity s) c (draws s) (ticks s).

Section Platform.

Variable host : Host.

(** An interpolated value in an f-string. *)
Definition fmt (v : pyval) : string :=
  match v with
  | PStr s => s
  | _ => str_of host v
  end.

(** [float(v)].  An int up to 2**53 in size converts exactly; a larger one
    is rounded, or raises when it is out of the range of a float. *)
Definition py_float (v : pyval) : exn + Z :=
  match v with
  | PInt n =>
      if (Z.abs n <=? 9007199254740992)%Z then inr (1000 * n)%Z
      else match float_of_int host n with
           | Some x => inr x
           | None => inl (Exn "OverflowError" "int too large to convert to float")
           end
  | PFloat x => inr x
  | PBool b => inr (if b then 1000 else 0)%Z
  | PStr s =>
      match parse_float host s with
      | Some x => inr x
      | None => inl (Exn "ValueError" "could not convert string to float")
      end
  | _ => inl (Exn "TypeError" "float() argument must be a string or a real number")
  end.

(** The three file helpers.  [data] is the document books.json holds, so
    the file is taken to be there and to parse, and the writes to books.json
    and activity.log are taken to go through: that is the case when the
    document and the logged text are [plain] (see below), which the
    statements about data coming from a request assume.  Text that does not
    encode in UTF-8 (a lone surrogate) would make [json.dump] or [log.write]
    raise, the first of them after books.json was truncated. *)
Definition log_action (action detail : string) : B unit :=
  fun s =>
    (inr tt,
     mkShelf (data s)
       (activity s ++ [("[" ++ time_stamp host (ticks s) ++ "] " ++ action ++ ": " ++ detail)%string])
       (cache s) (draws s) (S (ticks s))).

Definition _read : B pyval := fun s => (inr (data s), s).

Definition _write (v : pyval) : B unit := fun s => (inr tt, set_data v s).

Definition make_id (prefix : string) : B string :=
  fun s =>
    (inr (prefix ++ "_" ++ uuid_hex10 host (draws s))%string,
     mkShelf (data s) (activity s) (cache s) (S (draws s)) (ticks s)).

(** [time.time()]. *)
Definition clock : B Z :=
  fun s =>
    (inr (time_float host (ticks s)),
     mkShelf (data s) (activity s) (cache s) (draws s) (S (ticks s))).

(** [c.isalnum()] on the ASCII range. *)
Definition is_alnum (c : ascii) : bool :=
  let n := nat_of_ascii c in
  ((48 <=? n) && (n <=? 57)) || ((65 <=? n) && (n <=? 90)) || ((97 <=? n) && (n <=? 122)).

(** [c.isalnum() or c in (' ', '.', '_', '-')]. *)
Definition keeps (c : ascii) : bool :=
  is_alnum c
  || (Ascii.eqb c " " || Ascii.eqb c "." || Ascii.eqb c "_" || Ascii.eqb c "-")%char.

Fixpoint keep_chars (s : string) : string :=
  match s with
  | EmptyString => EmptyString
  | String c t => if keeps c then String c (keep_chars t) else keep_chars t
  end.

(** [s.replace(' ', '_')]. *)
Fixpoint spaces_to_underscores (s : string) : string :=
  match s with
  | EmptyString => EmptyString
  | String c t =>
      String (if Ascii.eqb c " "%char then "_"%char else c) (spaces_to_underscores t)
  end.

Definition secure_filename (name : string) : string :=
  spaces_to_underscores (Str.strip (keep_chars name)).

(** [[b for b in books if b.get("category") == category]]. *)
Fixpoint filter_category (category : string) (books : list pyval) : exn + list pyval :=
  match books with
  | [] => inr []
  | b :: rest =>
      match get_or b "category" PNone with
      | inl e => inl e
      | inr c =>
          match filter_category category rest with
          | inl e => inl e
          | inr kept => inr (if py_eq_str c category then b :: kept else kept)
          end
      end
  end.

(** [[b for b in books if ql in (b.get("title", "") + b.get("author", "")).lower()]]. *)
Fixpoint filter_query (ql : string) (books : list pyval) : exn + list pyval :=
  match books with
  | [] => inr []
  | b :: rest =>
      match get_or b "title" (PStr EmptyString) with
      | inl e => inl e
      | inr title =>
          match get_or b "author" (PStr EmptyString) with
          | inl e => inl e
          | inr author =>
              match concat_lower title author with
              | inl e => inl e
              | inr text =>
                  match filter_query ql rest with
                  | inl e => inl e
                  | inr kept => inr (if Str.contains ql text then b :: kept else kept)
                  end
              end
          end
      end
  end.

(** The books [list_books] pages through: all of them, narrowed by the
    category and the query when these are given and non-empty. *)
Definition select_books (category q : option string) (doc : pyval) : exn + list pyval :=
  match get_or doc "books" (PDict []) with
  | inl e => inl e
  | inr shelf =>
      match values_of shelf with
      | inl e => inl e
      | inr books =>
          match (match category with
                 | Some c => if negb (String.eqb c EmptyString)
                             then filter_category (Str.lower c) books
                             else inr books
                 | None => inr books
                 end) with
          | inl e => inl e
          | inr books1 =>
              match q with
              | Some text => if negb (String.eqb text EmptyString)
                             then filter_query (Str.lower text) books1
                             else inr books1
              | None => inr books1
              end
          end
      end
  end.

(** The function under the [lru_cache] decorator. *)
Definition list_books_wrapped (page page_size : Z) (category q : option string) : B pyval :=
  doc <- _read ;;
  books <- pure (select_books category q doc) ;;
  let total := Z.of_nat (length books) in
  let start := ((page - 1) * page_size)%Z in
  let stop := (start + page_size)%Z in
  sret (PDict [("books", PList (py_slice books start stop));
               ("total", PInt total); ("page", PInt page)]).

Definition opt_eqb (a b : option string) : bool :=
  match a, b with
  | Some x, Some y => String.eqb x y
  | None, None => true
  | _, _ => false
  end.

Definition key_eqb (a b : list_key) : bool :=
  match a, b with
  | (p1, s1, c1, q1), (p2, s2, c2, q2) =>
      Z.eqb p1 p2 && Z.eqb s1 s2 && opt_eqb c1 c2 && opt_eqb q1 q2
  end.

Fixpoint cache_find (k : list_key) (c : list (list_key * pyval)) : option pyval :=
  match c with
  | [] => None
  | (k', v) :: rest => if key_eqb k' k then Some v else cache_find k rest
  end.

Definition cache_drop (k : list_key) (c : list (list_key * pyval))
  : list (list_key * pyval) :=
  filter (fun kv => negb (key_eqb (fst kv) k)) c.

(** [@lru_cache(maxsize=50)]: a hit returns the stored result and makes
    the entry the most recent; a miss runs the function and stores its
    result, dropping the least recently used entry beyond 50; a call that
    raises stores nothing. *)
Definition list_books (page page_size : Z) (category q : option string) : B pyval :=
  fun s =>
    let k := (page, page_size, category, q) in
    match cache_find k (cache s) with
    | Some r => (inr r, set_cache ((k, r) :: cache_drop k (cache s)) s)
    | None =>
        match list_books_wrapped page page_size category q s with
        | (inr r, s1) => (inr r, set_cache (firstn 50 ((k, r) :: cache s1)) s1)
        | (inl e, s1) => (inl e, s1)
        end
    end.

(** [d.setdefault(k, {})] on the document: the value under [k] and the
    document, with an empty dict stored under [k] if it was missing. *)
Definition setdefault_dict (doc : pyval) (k : string) : exn + (pyval * pyval) :=
  match doc with
  | PDict d =>
      match dict_get d k with
      | Some v => inr (v, doc)
      | None => inr (PDict [], PDict (dict_set d k (PDict [])))
      end
  | _ => inl (Exn "AttributeError" "object has no attribute 'setdefault'")
  end.

(** [container[k] = v], then the document with the container stored back
    under [slot] (the container is the object the document holds there). *)
Definition store_item (doc : pyval) (slot : string) (container : pyval)
    (k : string) (v : pyval) : exn + pyval :=
  match container, doc with
  | PDict c, PDict d => inr (PDict (dict_set d slot (PDict (dict_set c k v))))
  | PDict _, _ => inl (Exn "AttributeError" "object has no attribute 'setdefault'")
  | _, _ => inl (Exn "TypeError" "object does not support item assignment")
  end.

Definition add_book (metadata : pyval) : B pyval :=
  doc <- _read ;;
  bd <- pure (setdefault_dict doc "books") ;;
  let books := fst bd in
  let doc1 := snd bd in
  book_id <- make_id "book" ;;
  title <- pure (get_or metadata "title" (PStr "Untitled")) ;;
  author <- pure (get_or metadata "author" (PStr "Unknown")) ;;
  description <- pure (get_or metadata "description" (PStr EmptyString)) ;;
  price_in <- pure (get_or metadata "price" (PFloat 0)) ;;
  price <- pure (py_float price_in) ;;
  free_in <- pure (get_or metadata "free" (PBool false)) ;;
  free <- (if truthy free_in then sret true
           else
             price_in2 <- pure (get_or metadata "price" (PInt 0)) ;;
             p <- pure (py_float price_in2) ;;
             sret (p <=? 0)%Z) ;;
  tags <- pure (get_or metadata "tags" (PList [])) ;;
  category <- pure (get_or metadata "category" (PStr "real-life")) ;;
  language <- pure (get_or metadata "language" (PStr "English")) ;;
  rating <- pure (get_or metadata "rating" (PFloat 5000)) ;;
  created_at <- clock ;;
  content_path <- pure (get_or metadata "content_path" PNone) ;;
  let meta :=
    PDict [("id", PStr book_id); ("title", title); ("author", author);
           ("description", description); ("price", PFloat price);
           ("free", PBool free); ("tags", tags); ("category", category);
           ("language", language); ("rating", rating);
           ("created_at", PFloat created_at); ("content_path", content_path)] in
  doc2 <- pure (store_item doc1 "books" books book_id meta) ;;
  _write doc2 ;;;
  log_action "add_book" (fmt title ++ " by " ++ fmt author)%string ;;;
  sret meta.

Definition get_book (book_id : string) : B pyval :=
  doc <- _read ;;
  books <- pure (get_or doc "books" (PDict [])) ;;
  book <- pure (get_or books book_id PNone) ;;
  if negb (truthy book) then sret PNone
  else
    vd <- pure (setdefault_dict doc "views") ;;
    let views := fst vd in
    let doc1 := snd vd in
    seen <- pure (get_or views book_id (PInt 0)) ;;
    n <- pure (py_succ seen) ;;
    doc2 <- pure (store_item doc1 "views" views book_id n) ;;
    _write doc2 ;;;
    sret book.

Definition purchase_book (book_id user method : string) : B pyval :=
  book <- get_book book_id ;;
  if negb (truthy book) then sret (PDict [("error", PStr "not_found")])
  else
    free <- pure (get_or book "free" PNone) ;;
    if truthy free then
      sret (PDict [("ok", PBool true); ("download", PStr ("/download/" ++ book_id)%string)])
    else
      token <- make_id "txn" ;;
      log_action "purchase" (user ++ " purchased " ++ book_id ++ " via " ++ method)%string ;;;
      sret (PDict [("ok", PBool true); ("token", PStr token); ("book", book)]).

Definition bootstrap_sample : B unit :=
  doc <- _read ;;
  books <- pure (get_or doc "books" PNone) ;;
  if negb (truthy books) then
    add_book
      (PDict [("title", PStr "The Dawn of Neura"); ("author", PStr "Neura Labs");
              ("description", PStr "Demo novel for Neura-AI Hyperluxe");
              ("price", PFloat 0); ("free", PBool true);
              ("tags", PList [PStr "demo"; PStr "sci-fi"]);
              ("category", PStr "anime"); ("language", PStr "English")]) ;;;
    sret tt
  else sret tt.

End Platform.

End Books.

(** *** secure_filename *)

(** Every character of [s] satisfies [p]. *)
Fixpoint all_chars (p : ascii -> bool) (s : string) : bool :=
  match s with
  | EmptyString => true
  | String c t => p c && all_chars p t
  end.

(** The characters [secure_filename] lets through to its result: letters,
    digits, dot, underscore and hyphen. *)
Definition safe_char (c : ascii) : bool :=
  Books.is_alnum c || (Ascii.eqb c "." || Ascii.eqb c "_" || Ascii.eqb c "-")%char.

Lemma all_chars_weaken (p q : ascii -> bool) s :
  (forall c, p c = true -> q c = true) -> all_chars p s = true -> all_chars q s = true.
Proof.
  intros Hpq. induction s as [| c t IH]; simpl; [auto |].
  intros H. apply andb_true_iff in H. destruct H as [Hc Ht].
  rewrite (Hpq c Hc). auto.
Qed.

Lemma all_chars_keep_chars s : all_chars Books.keeps (Books.keep_chars s) = true.
Proof.
  induction s as [| c t IH]; simpl; [reflexivity |].
  destruct (Books.keeps c) eqn:K; simpl; [rewrite K |]; auto.
Qed.

Lemma all_chars_app p a b :
  all_chars p (a ++ b)%string = all_chars p a && all_chars p b.
Proof.
  induction a as [| c t IH]; simpl; [reflexivity |].
  rewrite IH, andb_assoc. reflexivity.
Qed.

Lemma all_chars_join p l : all_chars p (Str.join l) = forallb (all_chars p) l.
Proof.
  induction l as [| x rest IH]; simpl; [reflexivity |].
  rewrite all_chars_app, IH. reflexivity.
Qed.

(** The characters of a str, put back together, are the str. *)
Lemma join_chars s : Str.join (Str.chars s) = s.
Proof.
  induction s as [| c t IH]; [reflexivity |].
  cbn [Str.chars]. destruct t as [| c1 t1]; [reflexivity |].
  destruct (Str.is_cont c1).
  - destruct (Str.chars (String c1 t1)) as [| h r]; [discriminate IH |].
    cbn [Str.join] in *. cbn [append]. rewrite IH. reflexivity.
  - cbn [Str.join append]. rewrite IH. reflexivity.
Qed.

Lemma forallb_drop_while {A} (q p : A -> bool) l :
  forallb q l = true -> forallb q (Str.drop_while p l) = true.
Proof.
  induction l as [| x rest IH]; simpl; [auto |].
  intros H. destruct (p x); [| exact H].
  apply andb_true_iff in H. apply IH, H.
Qed.

Lemma forallb_reversed {A} (q : A -> bool) l : forallb q (rev l) = forallb q l.
Proof.
  induction l as [| x rest IH]; simpl; [reflexivity |].
  rewrite forallb_app, IH. simpl. rewrite andb_true_r. apply andb_comm.
Qed.

(** [strip] only removes characters. *)
Lemma all_chars_strip p s : all_chars p s = true -> all_chars p (Str.strip s) = true.
Proof.
  intros H. unfold Str.strip.
  rewrite all_chars_join, forallb_reversed. apply forallb_drop_while.
  rewrite forallb_reversed. apply forallb_drop_while.
  rewrite <- all_chars_join, join_chars. exact H.
Qed.

Lemma keeps_cases c :
  Books.keeps c = true -> c = " "%char \/ safe_char c = true.
Proof.
  unfold Books.keeps, safe_char. intros H.
  destruct (Books.is_alnum c); [right; reflexivity |].
  destruct (Ascii.eqb_spec c " "%char); [left; assumption |].
  right. exact H.
Qed.

Lemma all_chars_underscored s :
  all_chars Books.keeps s = true ->
  all_chars safe_char (Books.spaces_to_underscores s) = true.
Proof.
  induction s as [| c t IH]; simpl; [auto |].
  intros H. apply andb_true_iff in H. destruct H as [Hc Ht].
  rewrite (IH Ht), andb_true_r.
  destruct (Ascii.eqb_spec c " "%char); [reflexivity |].
  destruct (keeps_cases c Hc); [contradiction | assumption].
Qed.

Lemma all_chars_In p s c :
  all_chars p s = true -> In c (list_ascii_of_string s) -> p c = true.
Proof.
  induction s as [| c' t IH]; simpl; [tauto |].
  intros H [-> | Hin]; apply andb_true_iff in H; [tauto | apply IH; tauto].
Qed.

(** X7: every character of [secure_filename name] is an ASCII letter, a
    digit, a dot, an underscore or a hyphen; so the result never contains a
    slash, a backslash, a space or a control character, whatever the
    uploaded name was. *)
Theorem secure_filename_safe name c :
  In c (list_ascii_of_string (Books.secure_filename name)) ->
  safe_char c = true
  /\ c <> "/"%char /\ c <> "\"%char /\ c <> " "%char /\ Str.is_space c = false.
Proof.
  intros Hin.
  assert (Hs : safe_char c = true).
  { apply (all_chars_In safe_char (Books.secure_filename name)); [| exact Hin].
    unfold Books.secure_filename.
    apply all_chars_underscored, all_chars_strip, all_chars_keep_chars. }
  split; [exact Hs |].
  repeat split; try (intros ->; discriminate Hs).
  destruct c as [b0 b1 b2 b3 b4 b5 b6 b7].
  destruct b0, b1, b2, b3, b4, b5, b6, b7; try reflexivity; discriminate Hs.
Qed.

Lemma secure_filename_safe_witness :
  Books.secure_filename "  ../../etc/pass wd.txt " = "....etcpass_wd.txt"
  /\ forall c, In c (list_ascii_of_string (Books.secure_filename "  ../../etc/pass wd.txt ")) ->
               c <> "/"%char.
Proof.
  split; [reflexivity |].
  intros c Hin.
  apply (secure_filename_safe "  ../../etc/pass wd.txt " c Hin).
Defined.

Lemma keep_chars_fixed s : all_chars Books.keeps s = true -> Books.keep_chars s = s.
Proof.
  induction s as [| c t IH]; simpl; [reflexivity |].
  intros H. apply andb_true_iff in H. destruct H as [Hc Ht].
  rewrite Hc, (IH Ht). reflexivity.
Qed.

Lemma drop_while_fixed {A} (p : A -> bool) l :
  forallb (fun x => negb (p x)) l = true -> Str.drop_while p l = l.
Proof.
  destruct l as [| x rest]; simpl; [reflexivity |].
  intros H. apply andb_true_iff in H. destruct H as [Hx _].
  apply negb_true_iff in Hx. rewrite Hx. reflexivity.
Qed.

(** A str without a whitespace character is its own [strip]. *)
Lemma strip_fixed s :
  forallb (fun ch => negb (Str.is_space_char ch)) (Str.chars s) = true -> Str.strip s = s.
Proof.
  intros H. unfold Str.strip.
  rewrite (drop_while_fixed _ _ H).
  rewrite drop_while_fixed by (rewrite forallb_reversed; exact H).
  rewrite rev_involutive. apply join_chars.
Qed.

Lemma underscores_fixed s :
  all_chars (fun c => negb (Ascii.eqb c " "%char)) s = true ->
  Books.spaces_to_underscores s = s.
Proof.
  induction s as [| c t IH]; simpl; [reflexivity |].
  intros H. apply andb_true_iff in H. destruct H as [Hc Ht].
  apply negb_true_iff in Hc. rewrite Hc, (IH Ht). reflexivity.
Qed.

Lemma safe_char_facts c :
  safe_char c = true ->
  Books.keeps c = true /\ Str.is_space c = false /\ Ascii.eqb c " "%char = false.
Proof.
  intros Hs.
  destruct c as [b0 b1 b2 b3 b4 b5 b6 b7].
  destruct b0, b1, b2, b3, b4, b5, b6, b7; try discriminate Hs; repeat split.
Qed.

Lemma safe_char_not_cont c : safe_char c = true -> Str.is_cont c = false.
Proof.
  intros Hs.
  destruct c as [b0 b1 b2 b3 b4 b5 b6 b7].
  destruct b0, b1, b2, b3, b4, b5, b6, b7; try discriminate Hs; reflexivity.
Qed.

Lemma safe_chars_no_space s :
  all_chars safe_char s = true ->
  forallb (fun ch => negb (Str.is_space_char ch)) (Str.chars s) = true.
Proof.
  induction s as [| c t IH]; [reflexivity |].
  cbn [all_chars]. intros H. apply andb_true_iff in H. destruct H as [Hc Ht].
  specialize (IH Ht). cbn [Str.chars].
  assert (Hsp : negb (Str.is_space_char (String c EmptyString)) = true).
  { cbn [Str.is_space_char]. apply negb_true_iff, (safe_char_facts c Hc). }
  destruct t as [| c1 t1]; [cbn [forallb]; rewrite Hsp; reflexivity |].
  cbn [all_chars] in Ht. apply andb_true_iff in Ht. destruct Ht as [Hc1 _].
  rewrite (safe_char_not_cont c1 Hc1).
  cbn [forallb]. rewrite Hsp. exact IH.
Qed.

(** X8: [secure_filename] is idempotent: cleaning an already cleaned name
    changes nothing. *)
Theorem secure_filename_idempotent name :
  Books.secure_filename (Books.secure_filename name) = Books.secure_filename name.
Proof.
  assert (Hs : all_chars safe_char (Books.secure_filename name) = true).
  { unfold Books.secure_filename.
    apply all_chars_underscored, all_chars_strip, all_chars_keep_chars. }
  set (r := Books.secure_filename name) in *.
  unfold Books.secure_filename at 1.
  rewrite keep_chars_fixed
    by (apply (all_chars_weaken safe_char); [apply safe_char_facts | exact Hs]).
  rewrite strip_fixed by (apply safe_chars_no_space, Hs).
  apply underscores_fixed.
  apply (all_chars_weaken safe_char);
    [intros c Hc; apply negb_true_iff, (safe_char_facts c Hc) | exact Hs].
Qed.

(** *** list_books *)

(** The ["books"] entry of a listing. *)
Definition listed (r : (exn + pyval) * Books.Shelf) : list pyval :=
  match fst r with
  | inr (PDict d) =>
      match dict_get d "books" with
      | Some (PList l) => l
      | _ => []
      end
  | _ => []
  end.

(** The ["total"] entry of a listing. *)
Definition listed_total (r : (exn + pyval) * Books.Shelf) : option pyval :=
  match fst r with
  | inr (PDict d) => dict_get d "total"
  | _ => None
  end.

Lemma firstn_plus {A} (a b : nat) (l : list A) :
  firstn (a + b) l = firstn a l ++ firstn b (skipn a l).
Proof.
  revert l. induction a as [| a IH]; intros l; [reflexivity |].
  destruct l as [| x l]; simpl.
  - rewrite firstn_nil. reflexivity.
  - rewrite IH. reflexivity.
Qed.

(** A slice with bounds [a] and [a + b], both non-negative. *)
Lemma py_slice_window {A} (l : list A) (a b : nat) :
  py_slice l (Z.of_nat a) (Z.of_nat a + Z.of_nat b) = firstn b (skipn a l).
Proof.
  unfold py_slice.
  destruct (Z.ltb_spec (Z.of_nat a) 0); [lia |].
  destruct (Z.ltb_spec (Z.of_nat a + Z.of_nat b) 0); [lia |].
  destruct (Nat.le_gt_cases a (length l)) as [Ha | Ha].
  - rewrite (Z.min_l (Z.of_nat a)) by lia. rewrite Nat2Z.id.
    destruct (Nat.le_gt_cases (a + b) (length l)) as [Hb | Hb].
    + rewrite Z.min_l by lia. f_equal. lia.
    + rewrite Z.min_r by lia.
      rewrite !firstn_all2; try reflexivity; rewrite length_skipn; lia.
  - rewrite !Z.min_r by lia. rewrite Z.sub_diag. simpl.
    rewrite (skipn_all2 l) by lia. rewrite firstn_nil. reflexivity.
Qed.

Lemma page_bounds (page ps : Z) :
  (1 <= page)%Z -> (0 <= ps)%Z ->
  ((page - 1) * ps = Z.of_nat (Z.to_nat ((page - 1) * ps)))%Z
  /\ (ps = Z.of_nat (Z.to_nat ps))%Z.
Proof. intros Hp Hs. split; rewrite Z2Nat.id; nia. Qed.

Lemma list_books_wrapped_run page ps cat q s l :
  Books.select_books cat q (Books.data s) = inr l ->
  Books.list_books_wrapped page ps cat q s =
    (inr (PDict [("books", PList (py_slice l ((page - 1) * ps) ((page - 1) * ps + ps)));
                 ("total", PInt (Z.of_nat (length l))); ("page", PInt page)]), s).
Proof.
  intros Hsel. unfold Books.list_books_wrapped, sbind, Books._read, pure, sret.
  rewrite Hsel. reflexivity.
Qed.

Lemma listed_wrapped page ps cat q s l :
  Books.select_books cat q (Books.data s) = inr l ->
  listed (Books.list_books_wrapped page ps cat q s)
  = py_slice l ((page - 1) * ps) ((page - 1) * ps + ps)
  /\ listed_total (Books.list_books_wrapped page ps cat q s)
     = Some (PInt (Z.of_nat (length l))).
Proof.
  intros Hsel. rewrite (list_books_wrapped_run _ _ _ _ _ _ Hsel). split; reflexivity.
Qed.

(** X9: a [list_books] call that is not served from the cache, for a page
    number of at least 1, returns the books at positions
    [(page-1)*page_size] up to [page*page_size - 1] of the selected books
    (so at most [page_size] of them), reports as [total] the number of all
    selected books whatever the page, and leaves books.json as it was. *)
Theorem list_books_page page ps cat q s l :
  Books.cache_find (page, ps, cat, q) (Books.cache s) = None ->
  Books.select_books cat q (Books.data s) = inr l ->
  (1 <= page)%Z -> (0 <= ps)%Z ->
  let items := firstn (Z.to_nat ps) (skipn (Z.to_nat ((page - 1) * ps)) l) in
  exists s',
    Books.list_books page ps cat q s =
      (inr (PDict [("books", PList items);
                   ("total", PInt (Z.of_nat (length l))); ("page", PInt page)]), s')
    /\ Books.data s' = Books.data s
    /\ length items <= Z.to_nat ps.
Proof.
  intros Hmiss Hsel Hp Hs items.
  unfold Books.list_books. rewrite Hmiss, (list_books_wrapped_run _ _ _ _ _ _ Hsel).
  destruct (page_bounds page ps Hp Hs) as [Ea Eb].
  assert (Hw : py_slice l ((page - 1) * ps) ((page - 1) * ps + ps) = items).
  { unfold items. rewrite <- py_slice_window. f_equal; lia. }
  rewrite Hw.
  eexists. split; [reflexivity |]. split; [reflexivity |].
  apply firstn_le_length.
Qed.

(** X10: the pages 1, 2, ..., k of a listing, put one after the other, are
    exactly the first [k * page_size] selected books: no book is skipped and
    none is repeated. *)
Theorem list_books_pages_cover ps cat q s l k :
  Books.select_books cat q (Books.data s) = inr l ->
  (1 <= ps)%Z ->
  flat_map (fun p => listed (Books.list_books_wrapped (Z.of_nat p) ps cat q s)) (seq 1 k)
  = firstn (k * Z.to_nat ps) l.
Proof.
  intros Hsel Hs.
  induction k as [| k IH]; [reflexivity |].
  rewrite seq_S, flat_map_app, IH. cbn [flat_map]. rewrite app_nil_r.
  rewrite (proj1 (listed_wrapped _ ps cat q s l Hsel)).
  assert (Hw : py_slice l ((Z.of_nat (1 + k) - 1) * ps)
                 ((Z.of_nat (1 + k) - 1) * ps + ps)
               = firstn (Z.to_nat ps) (skipn (k * Z.to_nat ps) l)).
  { rewrite <- py_slice_window. rewrite Nat2Z.inj_mul, Z2Nat.id by lia.
    f_equal; lia. }
  rewrite Hw.
  replace (S k * Z.to_nat ps) with (k * Z.to_nat ps + Z.to_nat ps) by lia.
  rewrite firstn_plus. reflexivity.
Qed.

Lemma py_slice_from_end {A} (l : list A) (a b : nat) :
  0 < b -> b <= a -> a <= length l ->
  py_slice l (- Z.of_nat a) (- Z.of_nat b) = firstn (a - b) (skipn (length l - a) l).
Proof.
  intros Hb Hab Ha. unfold py_slice.
  destruct (Z.ltb_spec (- Z.of_nat a) 0); [| lia].
  destruct (Z.ltb_spec (- Z.of_nat b) 0); [| lia].
  rewrite !Z.max_r by lia.
  f_equal; [| f_equal]; lia.
Qed.

(** X11: page numbers below 1 are not rejected.  Page 0 returns no book
    (and still the true total).  Page -1 returns a window counted from the
    end of the list: with at least [2 * page_size] selected books, it is the
    [page_size] books that precede the last [page_size]. *)
Theorem list_books_pages_below_one ps cat q s l :
  Books.select_books cat q (Books.data s) = inr l ->
  (1 <= ps)%Z ->
  (listed (Books.list_books_wrapped 0 ps cat q s) = []
   /\ listed_total (Books.list_books_wrapped 0 ps cat q s)
      = Some (PInt (Z.of_nat (length l))))
  /\ (2 * Z.to_nat ps <= length l ->
      listed (Books.list_books_wrapped (-1) ps cat q s)
      = firstn (Z.to_nat ps) (skipn (length l - 2 * Z.to_nat ps) l)).
Proof.
  intros Hsel Hs.
  rewrite !(proj1 (listed_wrapped _ ps cat q s l Hsel)).
  rewrite (proj2 (listed_wrapped 0 ps cat q s l Hsel)).
  refine (conj (conj _ _) _); [| reflexivity |].
  - unfold py_slice.
    destruct (Z.ltb_spec ((0 - 1) * ps) 0); [| lia].
    destruct (Z.ltb_spec ((0 - 1) * ps + ps) 0); [lia |].
    replace (Z.to_nat _) with 0 by lia. reflexivity.
  - intros Hlen.
    replace ((-1 - 1) * ps)%Z with (- Z.of_nat (2 * Z.to_nat ps))%Z by lia.
    replace (- Z.of_nat (2 * Z.to_nat ps) + ps)%Z with (- Z.of_nat (Z.to_nat ps))%Z by lia.
    rewrite py_slice_from_end by lia.
    f_equal. lia.
Qed.

(** *** The store: add_book, get_book, purchase_book *)

(** The books kept in a document (none when the slot is missing). *)
Definition books_of (d : list (string * pyval)) : list (string * pyval) :=
  match dict_get d "books" with
  | Some (PDict bs) => bs
  | _ => []
  end.

(** The view counters kept in a document. *)
Definition views_of (d : list (string * pyval)) : list (string * pyval) :=
  match dict_get d "views" with
  | Some (PDict vs) => vs
  | _ => []
  end.

Definition is_int (v : pyval) : bool :=
  match v with PInt _ => true | _ => false end.

(** A JSON value that [json.dump] writes to a UTF-8 file and [json.load]
    reads back as it was, and whose text the activity log takes: its strings
    and keys are ASCII, its integers are ones a float holds exactly (up to
    2**53 in size), and it is nested less than [depth] levels deep. *)
Fixpoint plain_at (depth : nat) (v : pyval) : bool :=
  match depth with
  | 0 => false
  | S n =>
      match v with
      | PNone | PBool _ | PFloat _ => true
      | PInt i => (Z.abs i <=? 9007199254740992)%Z
      | PStr t => Str.is_ascii t
      | PList l => forallb (plain_at n) l
      | PDict d => forallb (fun kv => Str.is_ascii (fst kv) && plain_at n (snd kv)) d
      end
  end.

Definition plain (v : pyval) : bool := plain_at 16 v.

(** A document [add_book] and [get_book] can work on: ["books"] is
    missing or an object, ["views"] is missing or an object of integers. *)
Definition well_formed (doc : pyval) : bool :=
  match doc with
  | PDict d =>
      match dict_get d "books" with
      | None | Some (PDict _) => true
      | _ => false
      end
      && match dict_get d "views" with
         | None => true
         | Some (PDict vs) => forallb is_int (map snd vs)
         | _ => false
         end
  | _ => false
  end.

(** The record [add_book] stores for the metadata [m]. *)
Definition book_meta (m : list (string * pyval)) (book_id : string) (price created : Z)
  : pyval :=
  PDict [("id", PStr book_id);
         ("title", field m "title" (PStr "Untitled"));
         ("author", field m "author" (PStr "Unknown"));
         ("description", field m "description" (PStr EmptyString));
         ("price", PFloat price);
         ("free", PBool (truthy (field m "free" (PBool false)) || (price <=? 0)%Z));
         ("tags", field m "tags" (PList []));
         ("category", field m "category" (PStr "real-life"));
         ("language", field m "language" (PStr "English"));
         ("rating", field m "rating" (PFloat 5000));
         ("created_at", PFloat created);
         ("content_path", field m "content_path" PNone)].

(** The count of a view counter, 0 when there is none. *)
Definition view_count (d : list (string * pyval)) (book_id : string) : pyval :=
  field (views_of d) book_id (PInt 0).

Lemma dict_get_set_same d k v : dict_get (dict_set d k v) k = Some v.
Proof.
  induction d as [| [k' v'] rest IH]; simpl.
  - rewrite String.eqb_refl. reflexivity.
  - destruct (String.eqb k' k) eqn:E; simpl; rewrite E; [reflexivity | exact IH].
Qed.

Lemma dict_get_set_other d k k' v :
  k <> k' -> dict_get (dict_set d k v) k' = dict_get d k'.
Proof.
  intros Hne. induction d as [| [k0 v0] rest IH]; simpl.
  - apply String.eqb_neq in Hne. rewrite Hne. reflexivity.
  - destruct (String.eqb k0 k) eqn:E; simpl.
    + apply String.eqb_eq in E. subst k0.
      apply String.eqb_neq in Hne. rewrite Hne. reflexivity.
    + rewrite IH. reflexivity.
Qed.

Lemma dict_set_set d k a b : dict_set (dict_set d k a) k b = dict_set d k b.
Proof.
  induction d as [| [k0 v0] rest IH]; simpl.
  - rewrite String.eqb_refl. reflexivity.
  - destruct (String.eqb k0 k) eqn:E; simpl; rewrite E; [reflexivity |].
    rewrite IH. reflexivity.
Qed.

Lemma sbind_step {S A B} (m : SE S A) (f : A -> SE S B) s a s1 :
  m s = (inr a, s1) -> sbind m f s = f a s1.
Proof. unfold sbind. intros ->. reflexivity. Qed.

Lemma sbind_pure {S A B} (a : A) (f : A -> SE S B) s :
  sbind (pure (inr a)) f s = f a s.
Proof. reflexivity. Qed.

Lemma py_float_price host m p :
  Books.py_float host (field m "price" (PFloat 0)) = inr p ->
  Books.py_float host (field m "price" (PInt 0)) = inr p.
Proof.
  unfold field. destruct (dict_get m "price"); [auto |].
  simpl. intros H. inversion H. reflexivity.
Qed.

(** What the document becomes when [v] is stored under [k] in its books. *)
Definition with_book (d : list (string * pyval)) (k : string) (v : pyval) : pyval :=
  PDict (dict_set d "books" (PDict (dict_set (books_of d) k v))).

(** What the document becomes when the view counter of [k] is set to [n]. *)
Definition with_view (d : list (string * pyval)) (k : string) (n : pyval) : pyval :=
  PDict (dict_set d "views" (PDict (dict_set (views_of d) k n))).

Lemma add_book_run host m s d p :
  Books.data s = PDict d ->
  well_formed (PDict d) = true ->
  Books.py_float host (field m "price" (PFloat 0)) = inr p ->
  let book_id := ("book_" ++ Books.uuid_hex10 host (Books.draws s))%string in
  let meta := book_meta m book_id p (Books.time_float host (Books.ticks s)) in
  Books.add_book host (PDict m) s =
    (inr meta,
     Books.mkShelf (with_book d book_id meta)
       (Books.activity s
        ++ [("[" ++ Books.time_stamp host (S (Books.ticks s)) ++ "] add_book: "
             ++ Books.fmt host (field m "title" (PStr "Untitled")) ++ " by "
             ++ Books.fmt host (field m "author" (PStr "Unknown")))%string])
       (Books.cache s) (S (Books.draws s)) (S (S (Books.ticks s)))).
Proof.
  intros Hd Hwf Hp book_id meta. subst meta book_id. unfold book_meta.
  assert (Hslot : (dict_get d "books" = None /\ books_of d = [])
                  \/ dict_get d "books" = Some (PDict (books_of d))).
  { unfold books_of. simpl in Hwf. destruct (dict_get d "books") as [[] |];
      try discriminate Hwf; auto. }
  unfold Books.add_book, sbind, pure, sret, Books._read, Books.make_id, Books.clock,
    Books._write, Books.log_action, Books.setdefault_dict, Books.store_item, get_or,
    Books.set_data.
  rewrite Hd.
  destruct Hslot as [[Hnone Hbs] | Hsome].
  - rewrite Hnone. cbn [fst snd]. rewrite Hp.
    unfold with_book. rewrite Hbs.
    destruct (truthy (field m "free" (PBool false))) eqn:Hf; cbn [orb];
      [| rewrite (py_float_price host m p Hp)]; cbn [Books.data Books.activity
        Books.cache Books.draws Books.ticks]; rewrite dict_set_set; reflexivity.
  - rewrite Hsome. cbn [fst snd]. rewrite Hp.
    unfold with_book.
    destruct (truthy (field m "free" (PBool false))) eqn:Hf; cbn [orb];
      [| rewrite (py_float_price host m p Hp)]; reflexivity.
Qed.

Lemma books_slot d :
  well_formed (PDict d) = true ->
  (dict_get d "books" = None /\ books_of d = [])
  \/ dict_get d "books" = Some (PDict (books_of d)).
Proof.
  intros Hwf. unfold books_of. simpl in Hwf.
  destruct (dict_get d "books") as [[] |]; try discriminate Hwf; auto.
Qed.

Lemma views_slot d :
  well_formed (PDict d) = true ->
  ((dict_get d "views" = None /\ views_of d = [])
   \/ dict_get d "views" = Some (PDict (views_of d)))
  /\ forallb is_int (map snd (views_of d)) = true.
Proof.
  intros Hwf. unfold views_of. simpl in Hwf.
  apply andb_prop in Hwf. destruct Hwf as [_ Hv].
  destruct (dict_get d "views") as [[] |]; try discriminate Hv; auto.
Qed.

Lemma dict_get_forallb (p : pyval -> bool) d k v :
  forallb p (map snd d) = true -> dict_get d k = Some v -> p v = true.
Proof.
  induction d as [| [k0 v0] rest IH]; simpl; [discriminate |].
  intros Hall Hget. apply andb_prop in Hall. destruct Hall as [H0 Hrest].
  destruct (String.eqb k0 k); [inversion Hget; subst; exact H0 | exact (IH Hrest Hget)].
Qed.

Lemma forallb_dict_set (p : pyval -> bool) d k v :
  forallb p (map snd d) = true -> p v = true ->
  forallb p (map snd (dict_set d k v)) = true.
Proof.
  intros Hall Hv. induction d as [| [k0 v0] rest IH]; simpl.
  - rewrite Hv. reflexivity.
  - simpl in Hall. apply andb_prop in Hall. destruct Hall as [H0 Hrest].
    destruct (String.eqb k0 k); simpl.
    + rewrite Hv, Hrest. reflexivity.
    + rewrite H0, (IH Hrest). reflexivity.
Qed.

Lemma view_count_int d k :
  well_formed (PDict d) = true -> exists n, view_count d k = PInt n.
Proof.
  intros Hwf. destruct (views_slot d Hwf) as [_ Hall].
  unfold view_count, field.
  destruct (dict_get (views_of d) k) as [v |] eqn:Hget; [| exists 0%Z; reflexivity].
  pose proof (dict_get_forallb is_int _ _ _ Hall Hget) as Hi.
  destruct v; try discriminate Hi. eexists; reflexivity.
Qed.

(** The number of recorded views of a book. *)
Definition views_number (doc : pyval) (book_id : string) : Z :=
  match doc with
  | PDict d => match view_count d book_id with PInt n => n | _ => 0%Z end
  | _ => 0%Z
  end.

(** The stored record of a book, [None] when there is none. *)
Definition stored (doc : pyval) (book_id : string) : option pyval :=
  match doc with
  | PDict d => dict_get (books_of d) book_id
  | _ => None
  end.

Lemma get_book_found book_id s d book :
  Books.data s = PDict d ->
  well_formed (PDict d) = true ->
  dict_get (books_of d) book_id = Some book ->
  truthy book = true ->
  Books.get_book book_id s
  = (inr book,
     Books.set_data (with_view d book_id (PInt (views_number (PDict d) book_id + 1))) s).
Proof.
  intros Hd Hwf Hget Hb.
  destruct (books_slot d Hwf) as [[_ Hbs] | Hsome];
    [rewrite Hbs in Hget; discriminate Hget |].
  destruct (view_count_int d book_id Hwf) as [n Hn].
  destruct (views_slot d Hwf) as [Hslot _].
  unfold Books.get_book, sbind, pure, sret, Books._read, Books._write,
    Books.setdefault_dict, Books.store_item, get_or, views_number.
  assert (Hf1 : field d "books" (PDict []) = PDict (books_of d))
    by (unfold field; rewrite Hsome; reflexivity).
  assert (Hf2 : field (books_of d) book_id PNone = book)
    by (unfold field; rewrite Hget; reflexivity).
  rewrite Hd, Hf1, Hf2, Hb.
  cbn [negb]. rewrite Hn. unfold view_count in Hn.
  destruct Hslot as [[Hnone Hvs] | Hvsome].
  - rewrite Hnone. cbn [fst snd]. rewrite Hvs in Hn. cbn in Hn.
    inversion Hn; subst n. cbn [field dict_get py_succ].
    unfold with_view. rewrite Hvs, dict_set_set. reflexivity.
  - rewrite Hvsome. cbn [fst snd]. rewrite Hn. cbn [py_succ].
    reflexivity.
Qed.

Lemma get_book_missing book_id s d :
  Books.data s = PDict d ->
  well_formed (PDict d) = true ->
  truthy (field (books_of d) book_id PNone) = false ->
  Books.get_book book_id s = (inr PNone, s).
Proof.
  intros Hd Hwf Hb.
  unfold Books.get_book, sbind, pure, sret, Books._read, get_or.
  rewrite Hd.
  destruct (books_slot d Hwf) as [[Hnone Hbs] | Hsome].
  - replace (field d "books" (PDict [])) with (PDict [])
      by (unfold field; rewrite Hnone; reflexivity).
    reflexivity.
  - replace (field d "books" (PDict [])) with (PDict (books_of d))
      by (unfold field; rewrite Hsome; reflexivity).
    rewrite Hb. reflexivity.
Qed.

(** *** A host and a store to run the module on *)

Definition host_demo : Books.Host :=
  Books.mkHost
    (fun n => ("a3f9c2" ++ Str.pad4 n)%string)
    (fun n => (1700000000000 + 250 * Z.of_nat n)%Z)
    (fun n => ("2024-05-01 10:00:" ++ Str.pad2 n)%string)
    (fun s => if String.eqb s "9.99" then Some 9990%Z
              else if String.eqb s "0" then Some 0%Z else None)
    (fun n => if (Z.abs n <? 2 ^ 1024)%Z then Some (1000 * n)%Z else None)
    (fun v => match v with PNone => "None" | _ => "?" end).

Definition book_dune : pyval :=
  PDict [("id", PStr "book_dune"); ("title", PStr "Dune"); ("author", PStr "Frank Herbert");
         ("price", PFloat 9990); ("free", PBool false); ("category", PStr "sci-fi")].

Definition book_emma : pyval :=
  PDict [("id", PStr "book_emma"); ("title", PStr "Emma"); ("author", PStr "Jane Austen");
         ("price", PFloat 0); ("free", PBool true); ("category", PStr "real-life")].

Definition book_solaris : pyval :=
  PDict [("id", PStr "book_solaris"); ("title", PStr "Solaris"); ("author", PStr "Stanislaw Lem");
         ("price", PFloat 4500); ("free", PBool false); ("category", PStr "sci-fi")].

Definition doc_demo : list (string * pyval) :=
  [("books", PDict [("book_dune", book_dune); ("book_emma", book_emma);
                    ("book_solaris", book_solaris)]);
   ("views", PDict [("book_dune", PInt 2)])].

Definition shelf_demo : Books.Shelf := Books.mkShelf (PDict doc_demo) [] [] 0 0.

(** The document [_ensure_books] creates. *)
Definition doc_fresh : list (string * pyval) := [("books", PDict []); ("views", PDict [])].

Definition shelf_fresh : Books.Shelf := Books.mkShelf (PDict doc_fresh) [] [] 0 0.

Lemma list_books_page_witness :
  Books.select_books (Some "Sci-Fi") None (Books.data shelf_demo) = inr [book_dune; book_solaris]
  /\ exists s',
       Books.list_books 2 1 (Some "Sci-Fi") None shelf_demo =
         (inr (PDict [("books", PList [book_solaris]); ("total", PInt 2); ("page", PInt 2)]), s')
       /\ Books.data s' = Books.data shelf_demo
       /\ length [book_solaris] <= 1.
Proof.
  split; [reflexivity |].
  apply (list_books_page 2 1 (Some "Sci-Fi") None shelf_demo [book_dune; book_solaris]);
    [reflexivity | reflexivity | lia | lia].
Defined.

Lemma list_books_pages_cover_witness :
  flat_map (fun p => listed (Books.list_books_wrapped (Z.of_nat p) 2 None None shelf_demo))
    (seq 1 2)
  = firstn (2 * Z.to_nat 2) [book_dune; book_emma; book_solaris].
Proof.
  apply (list_books_pages_cover 2 None None shelf_demo [book_dune; book_emma; book_solaris] 2);
    [reflexivity | lia].
Defined.

Lemma list_books_pages_below_one_witness :
  (listed (Books.list_books_wrapped 0 1 None None shelf_demo) = []
   /\ listed_total (Books.list_books_wrapped 0 1 None None shelf_demo) = Some (PInt 3))
  /\ listed (Books.list_books_wrapped (-1) 1 None None shelf_demo) = [book_emma].
Proof.
  pose proof (list_books_pages_below_one 1 None None shelf_demo
                [book_dune; book_emma; book_solaris] eq_refl ltac:(lia)) as [H0 H1].
  split; [exact H0 |].
  exact (H1 ltac:(simpl; lia)).
Defined.

Lemma views_of_with_view d k n :
  views_of (dict_set d "views" (PDict (dict_set (views_of d) k n)))
  = dict_set (views_of d) k n.
Proof. unfold views_of at 1. rewrite dict_get_set_same. reflexivity. Qed.

Lemma books_of_with_view d vs : books_of (dict_set d "views" vs) = books_of d.
Proof. unfold books_of. rewrite dict_get_set_other by discriminate. reflexivity. Qed.

Lemma books_of_with_book d bs : books_of (dict_set d "books" (PDict bs)) = bs.
Proof. unfold books_of. rewrite dict_get_set_same. reflexivity. Qed.

Lemma views_of_with_book d bs : views_of (dict_set d "books" bs) = views_of d.
Proof. unfold views_of. rewrite dict_get_set_other by discriminate. reflexivity. Qed.

Lemma well_formed_with_view d k n :
  well_formed (PDict d) = true -> well_formed (with_view d k (PInt n)) = true.
Proof.
  intros Hwf. destruct (views_slot d Hwf) as [_ Hall].
  unfold with_view. cbn [well_formed].
  rewrite dict_get_set_other by discriminate. rewrite dict_get_set_same.
  rewrite forallb_dict_set by (auto; reflexivity).
  simpl in Hwf. apply andb_prop in Hwf. destruct Hwf as [Hb _].
  rewrite Hb. reflexivity.
Qed.

Lemma well_formed_with_book d k v :
  well_formed (PDict d) = true -> well_formed (with_book d k v) = true.
Proof.
  intros Hwf. unfold with_book. cbn [well_formed].
  rewrite dict_get_set_same. rewrite dict_get_set_other by discriminate.
  simpl in Hwf. apply andb_prop in Hwf. destruct Hwf as [_ Hv].
  rewrite Hv. reflexivity.
Qed.

(** X12: [get_book] on a store whose document has its two slots in order.
    An id with no stored record, or with an empty one, gives [None] and
    changes nothing; for a stored book the call returns the record and counts
    one more view for that id, leaves every other counter and every stored
    record as they were, and touches neither the activity log nor the
    cache. *)
Theorem get_book_counts_one_view book_id s d :
  Books.data s = PDict d ->
  well_formed (PDict d) = true ->
  let r := Books.get_book book_id s in
  let doc' := Books.data (snd r) in
  (truthy (field (books_of d) book_id PNone) = false -> r = (inr PNone, s))
  /\ (forall book,
        stored (PDict d) book_id = Some book -> truthy book = true ->
        fst r = inr book
        /\ snd r = Books.set_data doc' s
        /\ views_number doc' book_id = (views_number (PDict d) book_id + 1)%Z
        /\ (forall k, k <> book_id -> views_number doc' k = views_number (PDict d) k)
        /\ (forall k, stored doc' k = stored (PDict d) k)).
Proof.
  intros Hd Hwf r doc'. split.
  - intros Hb. exact (get_book_missing book_id s d Hd Hwf Hb).
  - intros book Hst Hb. subst doc' r.
    rewrite (get_book_found book_id s d book Hd Hwf Hst Hb).
    cbn [fst snd Books.set_data Books.data].
    refine (conj eq_refl (conj eq_refl (conj _ (conj _ _)))).
    + unfold with_view, views_number at 1, view_count at 1.
      rewrite views_of_with_view. unfold field. rewrite dict_get_set_same. reflexivity.
    + intros k Hk. unfold with_view, views_number, view_count.
      rewrite views_of_with_view. unfold field.
      rewrite dict_get_set_other by congruence. reflexivity.
    + intros k. unfold with_view, stored. rewrite books_of_with_view. reflexivity.
Qed.

Lemma get_book_counts_one_view_witness :
  (let r := Books.get_book "book_dune" shelf_demo in
   fst r = inr book_dune
   /\ views_number (Books.data (snd r)) "book_dune" = 3%Z
   /\ views_number (Books.data (snd r)) "book_emma" = 0%Z)
  /\ Books.get_book "book_none" shelf_demo = (inr PNone, shelf_demo).
Proof.
  pose proof (get_book_counts_one_view "book_dune" shelf_demo doc_demo eq_refl eq_refl)
    as [_ Hfound].
  pose proof (get_book_counts_one_view "book_none" shelf_demo doc_demo eq_refl eq_refl)
    as [Hmiss _].
  split.
  - destruct (Hfound book_dune eq_refl eq_refl) as (Hr & _ & Hv & Hother & _).
    refine (conj Hr (conj Hv _)).
    exact (Hother "book_emma" ltac:(discriminate)).
  - exact (Hmiss eq_refl).
Defined.

(** The id [add_book] gives to its next book. *)
Definition next_id (host : Books.Host) (s : Books.Shelf) : string :=
  ("book_" ++ Books.uuid_hex10 host (Books.draws s))%string.



(** X14: the three outcomes of [purchase_book] on a store in order.  An
    unknown id gives [{"error": "not_found"}] and changes nothing.  A stored
    book marked free gives a download link, with no token drawn and nothing
    written to the activity log.  Any other stored book is sold at once: the
    reply carries a token ["txn_"] with fresh hex digits and the record, and
    one [purchase] line naming the user, the book and the method is logged.
    In both stored cases the lookup counts as a view. *)
Theorem purchase_book_outcomes host book_id user method s d :
  Books.data s = PDict d ->
  well_formed (PDict d) = true ->
  let r := Books.purchase_book host book_id user method s in
  (truthy (field (books_of d) book_id PNone) = false ->
   r = (inr (PDict [("error", PStr "not_found")]), s))
  /\ (forall b,
        stored (PDict d) book_id = Some (PDict b) -> b <> [] ->
        views_number (Books.data (snd r)) book_id = (views_number (PDict d) book_id + 1)%Z
        /\ if truthy (field b "free" PNone)
           then fst r = inr (PDict [("ok", PBool true);
                                    ("download", PStr ("/download/" ++ book_id)%string)])
                /\ Books.activity (snd r) = Books.activity s
                /\ Books.draws (snd r) = Books.draws s
           else fst r = inr (PDict [("ok", PBool true);
                                    ("token", PStr ("txn_" ++ Books.uuid_hex10 host (Books.draws s))%string);
                                    ("book", PDict b)])
                /\ Books.activity (snd r)
                   = Books.activity s
                     ++ [("[" ++ Books.time_stamp host (Books.ticks s) ++ "] purchase: "
                          ++ user ++ " purchased " ++ book_id ++ " via " ++ method)%string]
                /\ Books.draws (snd r) = S (Books.draws s)).
Proof.
  intros Hd Hwf r. subst r. split.
  - intros Hb. unfold Books.purchase_book, sbind.
    rewrite (get_book_missing book_id s d Hd Hwf Hb). reflexivity.
  - intros b Hst Hne.
    assert (Hb : truthy (PDict b) = true) by (destruct b; [contradiction | reflexivity]).
    unfold Books.purchase_book, sbind.
    rewrite (get_book_found book_id s d (PDict b) Hd Hwf Hst Hb).
    rewrite Hb. cbn [negb pure get_or].
    assert (Hv : views_number (with_view d book_id (PInt (views_number (PDict d) book_id + 1)))
                   book_id = (views_number (PDict d) book_id + 1)%Z).
    { unfold with_view, views_number at 1, view_count at 1.
      rewrite views_of_with_view. unfold field. rewrite dict_get_set_same. reflexivity. }
    destruct (truthy (field b "free" PNone)); (split; [exact Hv |]);
      refine (conj eq_refl (conj eq_refl eq_refl)).
Qed.

Lemma purchase_book_outcomes_witness :
  (fst (Books.purchase_book host_demo "book_emma" "ann" "card" shelf_demo)
   = inr (PDict [("ok", PBool true); ("download", PStr "/download/book_emma")])
   /\ Books.activity (snd (Books.purchase_book host_demo "book_emma" "ann" "card" shelf_demo)) = [])
  /\ (fst (Books.purchase_book host_demo "book_dune" "ann" "card" shelf_demo)
      = inr (PDict [("ok", PBool true); ("token", PStr "txn_a3f9c20000"); ("book", book_dune)])
      /\ Books.activity (snd (Books.purchase_book host_demo "book_dune" "ann" "card" shelf_demo))
         = ["[2024-05-01 10:00:00] purchase: ann purchased book_dune via card"])
  /\ Books.purchase_book host_demo "book_none" "ann" "card" shelf_demo
     = (inr (PDict [("error", PStr "not_found")]), shelf_demo).
Proof.
  pose proof (purchase_book_outcomes host_demo "book_emma" "ann" "card" shelf_demo doc_demo
                eq_refl eq_refl) as [_ Hfree].
  pose proof (purchase_book_outcomes host_demo "book_dune" "ann" "card" shelf_demo doc_demo
                eq_refl eq_refl) as [_ Hpaid].
  pose proof (purchase_book_outcomes host_demo "book_none" "ann" "card" shelf_demo doc_demo
                eq_refl eq_refl) as [Hmiss _].
  refine (conj _ (conj _ _)).
  - destruct (Hfree _ eq_refl ltac:(discriminate)) as (_ & Hr & Ha & _).
    exact (conj Hr Ha).
  - destruct (Hpaid _ eq_refl ltac:(discriminate)) as (_ & Hr & Ha & _).
    exact (conj Hr Ha).
  - exact (Hmiss eq_refl).
Defined.

(** *** Sequences of calls on the store *)

(** A call of one of the three functions that read or write books.json
    without going through the cache. *)
Inductive store_call : Type :=
| CallAdd (metadata : pyval)
| CallGet (book_id : string)
| CallPurchase (book_id user method : string).

(** A call whose arguments are plain: the metadata of a book, the user and
    the method of a purchase (the book id of a call reaches the files only
    when it is a key of the document already). *)
Definition call_plain (c : store_call) : bool :=
  match c with
  | CallAdd metadata => plain metadata
  | CallGet _ => true
  | CallPurchase _ user method => Str.is_ascii user && Str.is_ascii method
  end.

Definition run_call (host : Books.Host) (c : store_call) : Books.B pyval :=
  match c with
  | CallAdd metadata => Books.add_book host metadata
  | CallGet book_id => Books.get_book book_id
  | CallPurchase book_id user method => Books.purchase_book host book_id user method
  end.

(** The store after the calls [cs], made one after the other; a call that
    raises leaves the store as it was when it raised. *)
Fixpoint run_calls (host : Books.Host) (cs : list store_call) (s : Books.Shelf)
  : Books.Shelf :=
  match cs with
  | [] => s
  | c :: rest => run_calls host rest (snd (run_call host c s))
  end.

(** A computation that leaves the cache of [list_books] alone. *)
Definition keeps_cache {A} (m : Books.B A) : Prop :=
  forall s, Books.cache (snd (m s)) = Books.cache s.

Lemma keeps_cache_bind {A B} (m : Books.B A) (f : A -> Books.B B) :
  keeps_cache m -> (forall a, keeps_cache (f a)) -> keeps_cache (sbind m f).
Proof.
  intros Hm Hf s. unfold sbind. specialize (Hm s).
  destruct (m s) as [[e | a] s1]; cbn [snd] in *; [exact Hm |].
  rewrite (Hf a s1). exact Hm.
Qed.

Lemma keeps_cache_pure {A} (r : exn + A) : keeps_cache (pure r).
Proof. intros s. reflexivity. Qed.

Lemma keeps_cache_sret {A} (a : A) : keeps_cache (sret a).
Proof. intros s. reflexivity. Qed.

Lemma keeps_cache_if {A} (b : bool) (m1 m2 : Books.B A) :
  keeps_cache m1 -> keeps_cache m2 -> keeps_cache (if b then m1 else m2).
Proof. destruct b; auto. Qed.

Ltac keeps_cache_tac :=
  repeat first
    [ apply keeps_cache_pure
    | apply keeps_cache_sret
    | (intros s; reflexivity)
    | apply keeps_cache_if
    | (apply keeps_cache_bind; [| intros ?]) ].

Lemma keeps_cache_add_book host metadata : keeps_cache (Books.add_book host metadata).
Proof. unfold Books.add_book. keeps_cache_tac. Qed.

Lemma keeps_cache_get_book book_id : keeps_cache (Books.get_book book_id).
Proof. unfold Books.get_book. keeps_cache_tac. Qed.

Lemma keeps_cache_purchase_book host book_id user method :
  keeps_cache (Books.purchase_book host book_id user method).
Proof.
  unfold Books.purchase_book.
  apply keeps_cache_bind; [apply keeps_cache_get_book | intros book].
  keeps_cache_tac.
Qed.

Lemma run_calls_cache host cs s : Books.cache (run_calls host cs s) = Books.cache s.
Proof.
  revert s. induction cs as [| c rest IH]; intros s; [reflexivity |].
  cbn [run_calls]. rewrite IH.
  destruct c; cbn [run_call];
    [apply keeps_cache_add_book | apply keeps_cache_get_book | apply keeps_cache_purchase_book].
Qed.

Lemma key_eqb_refl k : Books.key_eqb k k = true.
Proof.
  destruct k as [[[p ps] c] q]. unfold Books.key_eqb.
  rewrite !Z.eqb_refl.
  assert (Ho : forall o, Books.opt_eqb o o = true)
    by (intros [x |]; [apply String.eqb_refl | reflexivity]).
  rewrite !Ho. reflexivity.
Qed.

(** After a call of [list_books] that returned, its result is in the cache. *)
Lemma list_books_cached page ps cat q s r s1 :
  Books.list_books page ps cat q s = (inr r, s1) ->
  Books.cache_find (page, ps, cat, q) (Books.cache s1) = Some r.
Proof.
  unfold Books.list_books.
  destruct (Books.cache_find (page, ps, cat, q) (Books.cache s)) as [r0 |].
  - intros H. inversion H; subst. cbn [Books.set_cache Books.cache Books.cache_find].
    rewrite key_eqb_refl. reflexivity.
  - destruct (Books.list_books_wrapped page ps cat q s) as [[e | r0] s0]; [discriminate |].
    intros H. inversion H; subst.
    cbn [Books.set_cache Books.cache firstn Books.cache_find].
    rewrite key_eqb_refl. reflexivity.
Qed.

(** X15: a listing is not refreshed by writes.  Once [list_books] has
    returned a result for some page, size, category and query, the same call
    returns that same result after any sequence of [add_book], [get_book] and
    [purchase_book] calls: none of them clears the cache, so a book added in
    between is missing from the listing and from its total. *)
Theorem list_books_stale_after_writes host page ps cat q s r s1 cs :
  Books.list_books page ps cat q s = (inr r, s1) ->
  fst (Books.list_books page ps cat q (run_calls host cs s1)) = inr r.
Proof.
  intros Hlist. apply list_books_cached in Hlist.
  unfold Books.list_books. rewrite run_calls_cache, Hlist. reflexivity.
Qed.

Lemma list_books_stale_after_writes_witness :
  let first := Books.list_books 1 20 None None shelf_demo in
  let ubik := PDict [("title", PStr "Ubik"); ("author", PStr "Philip K. Dick")] in
  let later := run_calls host_demo [CallAdd ubik] (snd first) in
  (listed_total first = Some (PInt 3)
   /\ fst (Books.list_books 1 20 None None later) = fst first)
  /\ listed_total (Books.list_books_wrapped 1 20 None None later) = Some (PInt 4).
Proof.
  intros first ubik later.
  split; [split; [reflexivity |] | reflexivity].
  exact (list_books_stale_after_writes host_demo 1 20 None None shelf_demo
           (PDict [("books", PList [book_dune; book_emma; book_solaris]);
                   ("total", PInt 3); ("page", PInt 1)])
           (snd first) [CallAdd ubik] eq_refl).
Defined.

Definition is_dict (v : pyval) : bool :=
  match v with PDict _ => true | _ => false end.

(** A document in order whose stored books are all objects: what
    [_ensure_books] creates and what [add_book] keeps. *)
Definition tidy (doc : pyval) : bool :=
  well_formed doc
  && match doc with
     | PDict d => forallb is_dict (map snd (books_of d))
     | _ => false
     end.

Lemma tidy_inv doc :
  tidy doc = true ->
  exists d, doc = PDict d /\ well_formed (PDict d) = true
            /\ forallb is_dict (map snd (books_of d)) = true.
Proof.
  unfold tidy. intros H. apply andb_prop in H. destruct H as [Hwf Hb].
  destruct doc; try discriminate Hb. eexists. repeat split; assumption.
Qed.

Lemma tidy_with_view d k n :
  tidy (PDict d) = true -> tidy (with_view d k (PInt n)) = true.
Proof.
  intros H. destruct (tidy_inv _ H) as (d0 & E & Hwf & Hb). inversion E; subst d0.
  unfold tidy. rewrite (well_formed_with_view d k n Hwf).
  unfold with_view. rewrite books_of_with_view. exact Hb.
Qed.

Lemma tidy_with_book d k v :
  tidy (PDict d) = true -> is_dict v = true -> tidy (with_book d k v) = true.
Proof.
  intros H Hv. destruct (tidy_inv _ H) as (d0 & E & Hwf & Hb). inversion E; subst d0.
  unfold tidy. rewrite (well_formed_with_book d k v Hwf).
  unfold with_book. rewrite books_of_with_book.
  apply forallb_dict_set; assumption.
Qed.

Lemma get_book_cases book_id s d :
  Books.data s = PDict d ->
  well_formed (PDict d) = true ->
  Books.get_book book_id s = (inr PNone, s)
  \/ exists book,
       dict_get (books_of d) book_id = Some book /\ truthy book = true
       /\ Books.get_book book_id s
          = (inr book,
             Books.set_data
               (with_view d book_id (PInt (views_number (PDict d) book_id + 1))) s).
Proof.
  intros Hd Hwf.
  destruct (truthy (field (books_of d) book_id PNone)) eqn:Hb.
  - right. unfold field in Hb.
    destruct (dict_get (books_of d) book_id) as [book |] eqn:Hget; [| discriminate Hb].
    exists book. refine (conj eq_refl (conj Hb _)).
    exact (get_book_found book_id s d book Hd Hwf Hget Hb).
  - left. exact (get_book_missing book_id s d Hd Hwf Hb).
Qed.

Lemma purchase_book_data host book_id user method s :
  Books.data (snd (Books.purchase_book host book_id user method s))
  = Books.data (snd (Books.get_book book_id s)).
Proof.
  unfold Books.purchase_book, sbind.
  destruct (Books.get_book book_id s) as [[e | book] s1]; [reflexivity |].
  destruct (truthy book); cbn [negb]; [| reflexivity].
  unfold pure. destruct (get_or book "free" PNone) as [e | free]; [reflexivity |].
  destruct (truthy free); reflexivity.
Qed.

Lemma add_book_data host metadata s d :
  Books.data s = PDict d ->
  well_formed (PDict d) = true ->
  Books.data (snd (Books.add_book host metadata s)) = PDict d
  \/ exists k v, is_dict v = true
                 /\ Books.data (snd (Books.add_book host metadata s)) = with_book d k v.
Proof.
  intros Hd Hwf.
  assert (Hraise : forall e,
             (forall k dflt, get_or metadata k dflt = inl e)
             \/ (exists m, metadata = PDict m
                           /\ Books.py_float host (field m "price" (PFloat 0)) = inl e) ->
             Books.data (snd (Books.add_book host metadata s)) = PDict d).
  { intros e Hcase.
    unfold Books.add_book, sbind, pure, sret, Books._read, Books.make_id,
      Books.setdefault_dict.
    rewrite Hd.
    destruct Hcase as [Hget | (m & -> & Hp)].
    - destruct (dict_get d "books"); cbn [fst snd]; rewrite Hget; reflexivity.
    - destruct (dict_get d "books"); cbn [fst snd get_or]; rewrite Hp; reflexivity. }
  destruct metadata as [| b | n | x | t | l | m];
    try (left; apply (Hraise (Exn "AttributeError" "object has no attribute 'get'"));
         left; reflexivity).
  destruct (Books.py_float host (field m "price" (PFloat 0))) as [e | p] eqn:Hp.
  - left. apply (Hraise e). right. exists m. auto.
  - right. rewrite (add_book_run host m s d p Hd Hwf Hp). cbn [snd Books.data].
    eexists _, _. split; [| reflexivity]. reflexivity.
Qed.

Lemma run_call_tidy host c s :
  tidy (Books.data s) = true -> tidy (Books.data (snd (run_call host c s))) = true.
Proof.
  intros Ht. destruct (tidy_inv _ Ht) as (d & Hd & Hwf & Hb).
  assert (Hget : forall book_id, tidy (Books.data (snd (Books.get_book book_id s))) = true).
  { intros book_id.
    destruct (get_book_cases book_id s d Hd Hwf) as [-> | (book & _ & _ & ->)];
      [exact Ht |].
    cbn [snd Books.set_data Books.data]. apply tidy_with_view. rewrite <- Hd. exact Ht. }
  destruct c as [metadata | book_id | book_id user method]; cbn [run_call].
  - destruct (add_book_data host metadata s d Hd Hwf) as [-> | (k & v & Hv & ->)].
    + rewrite <- Hd. exact Ht.
    + apply tidy_with_book; [rewrite <- Hd; exact Ht | exact Hv].
  - apply Hget.
  - rewrite purchase_book_data. apply Hget.
Qed.

Lemma run_calls_tidy host cs s :
  tidy (Books.data s) = true -> tidy (Books.data (run_calls host cs s)) = true.
Proof.
  revert s. induction cs as [| c rest IH]; intros s Ht; [exact Ht |].
  cbn [run_calls]. apply IH, run_call_tidy, Ht.
Qed.

(** X16: the store keeps itself in order.  Starting from a plain document
    whose ["books"] slot holds objects and whose ["views"] slot holds
    integers (the document [_ensure_books] creates is one), after any
    sequence of [add_book], [get_book] and [purchase_book] calls with plain
    arguments (ASCII text, integers up to 2**53, moderate nesting), whether
    or not some of them raised, the document is again of that shape; and on
    such a store [get_book] returns for every book id and [purchase_book]
    for every book id and ASCII user and method: they do not raise. *)
Theorem store_calls_keep_order host cs s :
  tidy (Books.data s) = true ->
  plain (Books.data s) = true ->
  forallb call_plain cs = true ->
  let s' := run_calls host cs s in
  tidy (Books.data s') = true
  /\ (forall book_id, exists v, fst (Books.get_book book_id s') = inr v)
  /\ (forall book_id user method,
        Str.is_ascii user = true -> Str.is_ascii method = true ->
        exists v, fst (Books.purchase_book host book_id user method s') = inr v).
Proof.
  intros Ht _ _ s'.
  assert (Ht' : tidy (Books.data s') = true) by (apply run_calls_tidy, Ht).
  destruct (tidy_inv _ Ht') as (d & Hd & Hwf & Hb).
  refine (conj Ht' (conj _ _)).
  - intros book_id.
    destruct (get_book_cases book_id s' d Hd Hwf) as [-> | (book & _ & _ & ->)];
      eexists; reflexivity.
  - intros book_id user method _ _. unfold Books.purchase_book, sbind.
    destruct (get_book_cases book_id s' d Hd Hwf) as [-> | (book & Hget & Htr & ->)].
    + eexists; reflexivity.
    + rewrite Htr. cbn [negb].
      pose proof (dict_get_forallb is_dict _ _ _ Hb Hget) as Hdict.
      destruct book; try discriminate Hdict.
      cbn [pure get_or].
      destruct (truthy (field d0 "free" PNone)); eexists; reflexivity.
Qed.

Lemma store_calls_keep_order_witness :
  let cs := [CallAdd (PDict [("title", PStr "Ubik"); ("price", PStr "free of charge")]);
             CallAdd (PDict [("title", PStr "Ubik"); ("price", PStr "9.99")]);
             CallAdd (PList []);
             CallPurchase "book_a3f9c20001" "ann" "card";
             CallGet "book_none"] in
  let s' := run_calls host_demo cs shelf_fresh in
  (tidy (Books.data s') = true
   /\ exists v, fst (Books.get_book "book_a3f9c20001" s') = inr v)
  /\ views_number (Books.data s') "book_a3f9c20001" = 1%Z.
Proof.
  intros cs s'.
  destruct (store_calls_keep_order host_demo cs shelf_fresh eq_refl eq_refl eq_refl)
    as (Ht & Hg & _).
  split; [exact (conj Ht (Hg "book_a3f9c20001")) | reflexivity].
Defined.

(** The metadata of the demo book of [bootstrap_sample]. *)
Definition sample_metadata : list (string * pyval) :=
  [("title", PStr "The Dawn of Neura"); ("author", PStr "Neura Labs");
   ("description", PStr "Demo novel for Neura-AI Hyperluxe");
   ("price", PFloat 0); ("free", PBool true);
   ("tags", PList [PStr "demo"; PStr "sci-fi"]);
   ("category", PStr "anime"); ("language", PStr "English")].

Lemma bootstrap_sample_stocked host s d :
  Books.data s = PDict d ->
  well_formed (PDict d) = true ->
  books_of d <> [] ->
  Books.bootstrap_sample host s = (inr tt, s).
Proof.
  intros Hd Hwf Hne.
  unfold Books.bootstrap_sample, sbind, pure, Books._read, get_or. rewrite Hd.
  destruct (books_slot d Hwf) as [[_ Hbs] | Hsome]; [contradiction |].
  unfold field. rewrite Hsome.
  destruct (books_of d); [contradiction | reflexivity].
Qed.

Lemma bootstrap_sample_empty host s d :
  Books.data s = PDict d ->
  well_formed (PDict d) = true ->
  books_of d = [] ->
  Books.bootstrap_sample host s
  = (inr tt, snd (Books.add_book host (PDict sample_metadata) s)).
Proof.
  intros Hd Hwf Hbs.
  unfold Books.bootstrap_sample at 1. unfold sbind at 1 2. unfold pure, Books._read, get_or.
  rewrite Hd.
  assert (Hf : truthy (field d "books" PNone) = false).
  { unfold field. destruct (books_slot d Hwf) as [[-> _] | ->]; [reflexivity |].
    rewrite Hbs. reflexivity. }
  rewrite Hf. cbn [negb]. fold sample_metadata.
  unfold sbind, sret.
  rewrite (add_book_run host sample_metadata s d 0%Z Hd Hwf eq_refl).
  reflexivity.
Qed.

(** X17: [bootstrap_sample] stocks an empty store once.  On a store in
    order that holds a book it does nothing.  On one that holds none it adds
    exactly one book, the free demo novel, and logs it.  Either way a second
    run straight after changes nothing. *)
Theorem bootstrap_sample_stocks_once host s d :
  Books.data s = PDict d ->
  well_formed (PDict d) = true ->
  let s1 := snd (Books.bootstrap_sample host s) in
  fst (Books.bootstrap_sample host s) = inr tt
  /\ Books.bootstrap_sample host s1 = (inr tt, s1)
  /\ (books_of d <> [] -> s1 = s)
  /\ (books_of d = [] ->
      exists meta,
        Books.data s1 = PDict (dict_set d "books" (PDict [(next_id host s, PDict meta)]))
        /\ dict_get meta "title" = Some (PStr "The Dawn of Neura")
        /\ dict_get meta "free" = Some (PBool true)
        /\ length (Books.activity s1) = S (length (Books.activity s))).
Proof.
  intros Hd Hwf s1. subst s1.
  destruct (books_of d) as [| kv rest] eqn:Hbs.
  - rewrite (bootstrap_sample_empty host s d Hd Hwf Hbs).
    rewrite (add_book_run host sample_metadata s d 0%Z Hd Hwf eq_refl).
    cbn [fst snd]. unfold with_book. rewrite Hbs. cbn [dict_set].
    fold (next_id host s).
    refine (conj eq_refl (conj _ (conj _ _))).
    + eapply bootstrap_sample_stocked; [reflexivity | |].
      * apply (well_formed_with_book d (next_id host s)
                 (book_meta sample_metadata (next_id host s) 0
                    (Books.time_float host (Books.ticks s)))) in Hwf.
        unfold with_book in Hwf. rewrite Hbs in Hwf. exact Hwf.
      * rewrite books_of_with_book. discriminate.
    + intros H. contradiction.
    + intros _. eexists. refine (conj eq_refl (conj eq_refl (conj eq_refl _))).
      cbn [Books.activity]. rewrite length_app. simpl. lia.
  - assert (Hne : books_of d <> []) by (rewrite Hbs; discriminate).
    rewrite (bootstrap_sample_stocked host s d Hd Hwf Hne). cbn [fst snd].
    refine (conj eq_refl (conj _ (conj _ _))).
    + exact (bootstrap_sample_stocked host s d Hd Hwf Hne).
    + reflexivity.
    + intros H. discriminate H.
Qed.

Lemma bootstrap_sample_stocks_once_witness :
  (Books.bootstrap_sample host_demo (snd (Books.bootstrap_sample host_demo shelf_fresh))
   = (inr tt, snd (Books.bootstrap_sample host_demo shelf_fresh))
   /\ snd (Books.bootstrap_sample host_demo shelf_demo) = shelf_demo)
  /\ Books.activity (snd (Books.bootstrap_sample host_demo shelf_fresh))
     = ["[2024-05-01 10:00:01] add_book: The Dawn of Neura by Neura Labs"].
Proof.
  destruct (bootstrap_sample_stocks_once host_demo shelf_fresh doc_fresh eq_refl eq_refl)
    as (_ & Hagain & _).
  destruct (bootstrap_sample_stocks_once host_demo shelf_demo doc_demo eq_refl eq_refl)
    as (_ & _ & Hsame & _).
  split; [split |].
  - exact Hagain.
  - exact (Hsame ltac:(discriminate)).
  - reflexivity.
Defined.

(** ** healthcare.py and the view that calls it *)

(** [for x in v]: the items a loop over [v] visits. *)
Definition py_iter (v : pyval) : exn + list pyval :=
  match v with
  | PList l => inr l
  | PStr s => inr (map PStr (Str.chars s))
  | PDict d => inr (map (fun kv => PStr (fst kv)) d)
  | _ => inl (Exn "TypeError" "object is not iterable")
  end.

(** [v.lower()]. *)
Definition lower_of (v : pyval) : exn + string :=
  match v with
  | PStr s => inr (Str.lower s)
  | _ => inl (Exn "AttributeError" "object has no attribute 'lower'")
  end.

(** [v > n] for an integer literal [n]. *)
Definition py_gt_int (v : pyval) (n : Z) : exn + bool :=
  match v with
  | PInt a => inr (n <? a)%Z
  | PFloat x => inr (1000 * n <? x)%Z
  | PBool b => inr (n <? (if b then 1 else 0))%Z
  | _ => inl (Exn "TypeError" "'>' not supported between instances")
  end.

(** [try: m  except Exception: h] in [SE]. *)
Definition stry {S A} (m : SE S A) (h : exn -> SE S A) : SE S A :=
  fun s =>
    match m s with
    | (inr a, s1) => (inr a, s1)
    | (inl e, s1) => h e s1
    end.

Module Health.

Local Open Scope se_scope.

Definition SYMPTOM_DB : list (string * list string) :=
  [("fever", ["Common cold"; "Flu"; "Malaria"; "COVID-19"]);
   ("headache", ["Tension"; "Migraine"; "Dehydration"; "Stress"]);
   ("cough", ["Allergy"; "Cold"; "Bronchitis"; "COVID-19"]);
   ("fatigue", ["Anemia"; "Poor sleep"; "Stress"; "Vitamin deficiency"]);
   ("stomach pain", ["Ulcer"; "Indigestion"; "Food poisoning"; "Appendicitis"])].

Definition LIFESTYLE_TIPS : list string :=
  ["Drink at least 2–3 liters of water daily.";
   "Avoid screens for 30 minutes before sleeping.";
   "Include green veggies in 2 meals a day.";
   "Do 15 minutes of breathing exercises daily.";
   "Take short walks after meals for better digestion."].

Definition no_match_text : string := "No clear match. Consult a doctor.".
Definition checks_tip : string := "Schedule regular blood pressure and sugar checks.".
Definition stretch_tip : string := "Try short stretching sessions each morning.".

(** What the module takes from [random] and [time]. *)
Record Rng : Type := mkRng {
  (* the position random.choice picks in a sequence of the given length,
     at the n-th call of the random module *)
  choice_index : nat -> nat -> nat;
  (* the positions random.sample(population, k) picks, in order, for a
     population of the given size *)
  sample_indices : nat -> nat -> nat -> list nat;
  (* time.strftime("%Y-%m-%d %H:%M:%S") at the n-th clock read *)
  strftime : nat -> string
}.

(** What changes between calls. *)
Record Clinic : Type := mkClinic {
  rolls : nat;        (* calls of the random module so far *)
  reads : nat         (* clock reads so far *)
}.

Definition H (A : Type) : Type := SE Clinic A.

Fixpoint db_find (db : list (string * list string)) (k : string) : option (list string) :=
  match db with
  | [] => None
  | (k', v) :: rest => if String.eqb k' k then Some v else db_find rest k
  end.

Section Functions.

Variable rng : Rng.

(** [random.choice(seq)]. *)
Definition choice (seq : list string) : H string :=
  fun s =>
    (match nth_error seq (choice_index rng (rolls s) (length seq)) with
     | Some x => inr x
     | None => inl (Exn "IndexError" "Cannot choose from an empty sequence")
     end,
     mkClinic (S (rolls s)) (reads s)).

(** [random.sample(population, k)]. *)
Definition sample (population : list string) (k : nat) : H (list string) :=
  fun s =>
    (if length population <? k
     then inl (Exn "ValueError" "Sample larger than population or is negative")
     else inr (map (fun i => nth i population EmptyString)
                 (sample_indices rng (rolls s) (length population) k)),
     mkClinic (S (rolls s)) (reads s)).

Definition now_stamp : H string :=
  fun s => (inr (strftime rng (reads s)), mkClinic (rolls s) (S (reads s))).

(** The loop of [check_symptoms], [matched] being the dict built so far. *)
Fixpoint check_loop (items : list pyval) (matched : list (string * pyval))
  : H (list (string * pyval)) :=
  match items with
  | [] => sret matched
  | v :: rest =>
      s <- pure (lower_of v) ;;
      match db_find SYMPTOM_DB s with
      | Some causes =>
          c <- choice causes ;;
          check_loop rest (dict_set matched s (PStr c))
      | None => check_loop rest (dict_set matched s (PStr no_match_text))
      end
  end.

Definition check_symptoms (symptoms : pyval) : H pyval :=
  items <- pure (py_iter symptoms) ;;
  matched <- check_loop items [] ;;
  sret (PDict matched).

Definition get_health_advice (age activity_level : pyval) : H (list string) :=
  base <- sample LIFESTYLE_TIPS 3 ;;
  old <- pure (py_gt_int age 40) ;;
  let base1 := if old then base ++ [checks_tip] else base in
  level <- pure (lower_of activity_level) ;;
  let base2 := if String.eqb level "low" then base1 ++ [stretch_tip] else base1 in
  sret base2.

Definition generate_wellness_report (user : pyval) : H pyval :=
  name <- pure (get_or user "name" (PStr "User")) ;;
  symptoms <- pure (get_or user "symptoms" (PList [])) ;;
  diagnosis <- check_symptoms symptoms ;;
  age <- pure (get_or user "age" (PInt 25)) ;;
  activity <- pure (get_or user "activity" (PStr "medium")) ;;
  advice <- get_health_advice age activity ;;
  stamp <- now_stamp ;;
  sret (PDict [("name", name); ("diagnosis", diagnosis);
               ("advice", PList (map PStr advice)); ("timestamp", PStr stamp)]).

End Functions.

End Health.

(** The gateway and the healthcare module side by side: the journal of
    the first, the counters of the second. *)
Definition Ward : Type := (World * Health.Clinic)%type.

(** A gateway step, run on the journal. *)
Definition on_journal {A} (m : M A) : SE Ward A :=
  fun s => let (r, w) := m (fst s) in (r, (w, snd s)).

(** A healthcare call, run on the module's counters. *)
Definition on_clinic {A} (m : Health.H A) : SE Ward A :=
  fun s => let (r, c) := m (snd s) in (r, (fst s, c)).

Section HealthView.

(** [local_healthcare]: whether [safe_import("healthcare")] gave the module. *)
Variable local_healthcare : bool.
Variable rng : Health.Rng.

Local Open Scope se_scope.

(** [POST /api/health/check]. *)
Definition health_check (req : Request) : SE Ward Response :=
  let payload := request_body req in
  if local_healthcare then
    stry
      (report <- on_clinic (Health.generate_wellness_report rng payload) ;;
       sret (PDict [("ok", PBool true); ("report", report)], 200))
      (fun _ =>
         on_journal (logger "exception" "local healthcare failed") ;;;
         sret (err_result "healthcare_failed", 500))
  else sret (err_result "healthcare_unavailable", 404).

End HealthView.

(** *** A random module that keeps its promises *)

(** [random.choice] picks a position inside the sequence; [random.sample]
    picks [k] different positions inside the population. *)
Definition fair (rng : Health.Rng) : Prop :=
  (forall i n, 0 < n -> Health.choice_index rng i n < n)
  /\ (forall i n k, k <= n ->
        length (Health.sample_indices rng i n k) = k
        /\ NoDup (Health.sample_indices rng i n k)
        /\ Forall (fun j => j < n) (Health.sample_indices rng i n k)).

(** The random module that always takes the first item, and the first [k]. *)
Definition rng_first : Health.Rng :=
  Health.mkRng (fun _ _ => 0) (fun _ _ k => seq 0 k)
    (fun n => ("2024-05-01 10:00:" ++ Str.pad2 n)%string).

Lemma fair_rng_first : fair rng_first.
Proof.
  split; [intros i n Hn; exact Hn |].
  intros i n k Hk. cbn [rng_first Health.sample_indices].
  refine (conj (length_seq k 0) (conj (seq_NoDup k 0) _)).
  apply Forall_forall. intros j Hj. apply in_seq in Hj. lia.
Qed.

Definition clinic_start : Health.Clinic := Health.mkClinic 0 0.

(** [cause] is an answer [check_symptoms] may give for [symptom]: one of
    the listed causes of a known symptom, the standard sentence for any
    other. *)
Definition likely (symptom cause : string) : Prop :=
  match Health.db_find Health.SYMPTOM_DB symptom with
  | Some causes => In cause causes
  | None => cause = Health.no_match_text
  end.

Lemma db_find_nonempty s causes :
  Health.db_find Health.SYMPTOM_DB s = Some causes -> 0 < length causes.
Proof.
  unfold Health.SYMPTOM_DB. cbn [Health.db_find].
  repeat (destruct (String.eqb _ s); [intros H; inversion H; simpl; lia |]).
  discriminate.
Qed.

Lemma choice_run rng seq c :
  fair rng -> 0 < length seq ->
  exists x, In x seq
            /\ Health.choice rng seq c
               = (inr x, Health.mkClinic (S (Health.rolls c)) (Health.reads c)).
Proof.
  intros [Hc _] Hlen. unfold Health.choice.
  specialize (Hc (Health.rolls c) (length seq) Hlen).
  destruct (nth_error seq (Health.choice_index rng (Health.rolls c) (length seq)))
    as [x |] eqn:Hx.
  - exists x. split; [exact (nth_error_In _ _ Hx) | reflexivity].
  - apply nth_error_None in Hx. lia.
Qed.

(** Every entry of [m] is an answer the module may give for its key. *)
Definition sound (m : list (string * pyval)) : Prop :=
  forall k v, dict_get m k = Some v -> exists cause, v = PStr cause /\ likely k cause.

Lemma sound_set m k cause : sound m -> likely k cause -> sound (dict_set m k (PStr cause)).
Proof.
  intros Hm Hk k' v Hget.
  destruct (String.eqb_spec k k') as [<- | Hne].
  - rewrite dict_get_set_same in Hget. inversion Hget; subst. eauto.
  - rewrite dict_get_set_other in Hget by exact Hne. eauto.
Qed.

Lemma check_loop_run rng names :
  fair rng ->
  forall matched0 c,
    sound matched0 ->
    exists matched c',
      Health.check_loop rng (map PStr names) matched0 c = (inr matched, c')
      /\ sound matched
      /\ (forall k, has_key matched k = true
                    <-> has_key matched0 k = true \/ In k (map Str.lower names))
      /\ Health.reads c' = Health.reads c.
Proof.
  intros Hfair. induction names as [| name rest IH]; intros matched0 c Hs.
  - exists matched0, c. cbn. repeat split; auto. intros [H | []]; exact H.
  - cbn [map Health.check_loop]. unfold sbind at 1. cbn [pure lower_of].
    assert (Hkey : forall v k,
               has_key (dict_set matched0 (Str.lower name) v) k = true
               <-> has_key matched0 k = true \/ Str.lower name = k).
    { intros v k. unfold has_key.
      destruct (String.eqb_spec (Str.lower name) k) as [<- | Hne].
      - rewrite dict_get_set_same. tauto.
      - rewrite dict_get_set_other by exact Hne. tauto. }
    destruct (Health.db_find Health.SYMPTOM_DB (Str.lower name)) as [causes |] eqn:Hdb.
    + destruct (choice_run rng causes c Hfair (db_find_nonempty _ _ Hdb))
        as (x & Hin & Hrun).
      unfold sbind at 1. rewrite Hrun.
      assert (Hl : likely (Str.lower name) x) by (unfold likely; rewrite Hdb; exact Hin).
      destruct (IH (dict_set matched0 (Str.lower name) (PStr x))
                  (Health.mkClinic (S (Health.rolls c)) (Health.reads c))
                  (sound_set _ _ _ Hs Hl)) as (matched & c' & Hrun' & Hs' & Hk' & Hr').
      exists matched, c'. refine (conj Hrun' (conj Hs' (conj _ Hr'))).
      intros k. rewrite Hk', Hkey. cbn [In]. tauto.
    + assert (Hl : likely (Str.lower name) Health.no_match_text)
        by (unfold likely; rewrite Hdb; reflexivity).
      destruct (IH (dict_set matched0 (Str.lower name) (PStr Health.no_match_text)) c
                  (sound_set _ _ _ Hs Hl)) as (matched & c' & Hrun' & Hs' & Hk' & Hr').
      exists matched, c'. refine (conj Hrun' (conj Hs' (conj _ Hr'))).
      intros k. rewrite Hk', Hkey. cbn [In]. tauto.
Qed.

(** X18: [check_symptoms] on a list of ASCII strings, with a random module
    that keeps its promises.  It returns (it does not raise) a dict that has
    an entry for every symptom given, under its lowercased name, and no other
    entry; the answer for a symptom of the table is one of the causes listed
    for it, and for any other symptom it is the sentence
    "No clear match. Consult a doctor.". *)
Theorem check_symptoms_answers_each rng names c :
  fair rng ->
  forallb Str.is_ascii names = true ->
  exists matched,
    fst (Health.check_symptoms rng (PList (map PStr names)) c) = inr (PDict matched)
    /\ (forall name, In name names ->
          exists cause, dict_get matched (Str.lower name) = Some (PStr cause)
                        /\ likely (Str.lower name) cause)
    /\ (forall k, has_key matched k = true -> In k (map Str.lower names)).
Proof.
  intros Hfair _.
  destruct (check_loop_run rng names Hfair [] c) as (matched & c' & Hrun & Hs & Hk & _).
  { intros k v Hget. discriminate Hget. }
  exists matched. unfold Health.check_symptoms, sbind, pure, py_iter. rewrite Hrun.
  refine (conj eq_refl (conj _ _)).
  - intros name Hin.
    assert (Hhas : has_key matched (Str.lower name) = true)
      by (apply Hk; right; apply in_map; exact Hin).
    unfold has_key in Hhas.
    destruct (dict_get matched (Str.lower name)) as [v |] eqn:Hget; [| discriminate Hhas].
    destruct (Hs _ _ Hget) as (cause & -> & Hl). eauto.
  - intros k Hhas. apply Hk in Hhas. destruct Hhas as [H0 | Hin]; [discriminate H0 | exact Hin].
Qed.

Lemma check_symptoms_answers_each_witness :
  fst (Health.check_symptoms rng_first (PList (map PStr ["Fever"; "itch"; "FEVER"])) clinic_start)
  = inr (PDict [("fever", PStr "Common cold"); ("itch", PStr Health.no_match_text)])
  /\ exists matched,
       fst (Health.check_symptoms rng_first (PList (map PStr ["Fever"; "itch"; "FEVER"]))
              clinic_start) = inr (PDict matched)
       /\ (forall name, In name ["Fever"; "itch"; "FEVER"] ->
             exists cause, dict_get matched (Str.lower name) = Some (PStr cause)
                           /\ likely (Str.lower name) cause)
       /\ (forall k, has_key matched k = true -> In k (map Str.lower ["Fever"; "itch"; "FEVER"])).
Proof.
  split; [reflexivity |].
  exact (check_symptoms_answers_each rng_first ["Fever"; "itch"; "FEVER"] clinic_start
           fair_rng_first eq_refl).
Defined.

(** The characters of an ASCII text are its bytes. *)
Lemma chars_ascii s :
  Str.is_ascii s = true ->
  Str.chars s = map (fun c => String c EmptyString) (list_ascii_of_string s).
Proof.
  induction s as [| c t IH]; [reflexivity |].
  cbn [Str.is_ascii]. intros H. apply andb_prop in H. destruct H as [_ Ht].
  cbn [Str.chars list_ascii_of_string map]. rewrite (IH Ht).
  destruct t as [| c1 t']; [reflexivity |].
  cbn [Str.is_ascii] in Ht. apply andb_prop in Ht. destruct Ht as [Hc1 _].
  assert (Hcont : Str.is_cont c1 = false).
  { unfold Str.is_cont. apply Nat.ltb_lt in Hc1.
    apply andb_false_iff. left. apply Nat.leb_gt. exact Hc1. }
  rewrite Hcont. reflexivity.
Qed.

Lemma one_letter_unknown ch :
  Health.db_find Health.SYMPTOM_DB (Str.lower (String ch EmptyString)) = None.
Proof.
  cbn [Str.lower Health.SYMPTOM_DB Health.db_find String.eqb].
  repeat (destruct (Ascii.eqb _ (Str.lower_char ch)); cbn [String.eqb]).
  all: reflexivity.
Qed.

Lemma check_loop_letters rng chars :
  forall matched0 c,
    (forall k v, dict_get matched0 k = Some v ->
                 v = PStr Health.no_match_text /\ String.length k = 1) ->
    exists matched,
      Health.check_loop rng (map (fun ch => PStr (String ch EmptyString)) chars) matched0 c
      = (inr matched, c)
      /\ (forall k v, dict_get matched k = Some v ->
                      v = PStr Health.no_match_text /\ String.length k = 1)
      /\ (forall k, has_key matched k = true
                    <-> has_key matched0 k = true
                        \/ In k (map (fun ch => Str.lower (String ch EmptyString)) chars)).
Proof.
  induction chars as [| ch rest IH]; intros matched0 c H0.
  - exists matched0. refine (conj eq_refl (conj H0 _)).
    intros k. cbn [map In]. tauto.
  - cbn [map Health.check_loop]. unfold sbind at 1. cbn [pure lower_of].
    rewrite one_letter_unknown.
    set (key := Str.lower (String ch EmptyString)).
    destruct (IH (dict_set matched0 key (PStr Health.no_match_text)) c)
      as (matched & Hrun & Hall & Hk).
    { intros k v Hget. destruct (String.eqb_spec key k) as [<- | Hne].
      - rewrite dict_get_set_same in Hget. inversion Hget. split; reflexivity.
      - rewrite dict_get_set_other in Hget by exact Hne. eauto. }
    exists matched. refine (conj Hrun (conj Hall _)).
    intros k. rewrite Hk. unfold has_key. cbn [In].
    destruct (String.eqb_spec key k) as [<- | Hne].
    + rewrite dict_get_set_same. tauto.
    + rewrite dict_get_set_other by exact Hne. tauto.
Qed.

(** X19: symptoms given as one ASCII string instead of a list are read
    letter by letter.  [check_symptoms] does not raise on such a string: it
    returns an entry for each of its letters, lowercased, every one of them
    with the answer "No clear match. Consult a doctor.", and draws no random
    number; a symptom of the table spelled out this way is not recognised. *)
Theorem check_symptoms_spells_a_string rng text c :
  Str.is_ascii text = true ->
  exists matched,
    Health.check_symptoms rng (PStr text) c = (inr (PDict matched), c)
    /\ (forall k v, dict_get matched k = Some v ->
                    v = PStr Health.no_match_text /\ String.length k = 1)
    /\ (forall ch, In ch (list_ascii_of_string text) ->
                   has_key matched (Str.lower (String ch EmptyString)) = true).
Proof.
  intros Hascii.
  destruct (check_loop_letters rng (list_ascii_of_string text) [] c)
    as (matched & Hrun & Hall & Hk).
  { intros k v Hget. discriminate Hget. }
  exists matched. unfold Health.check_symptoms, sbind, pure, py_iter.
  rewrite (chars_ascii text Hascii), map_map, Hrun.
  refine (conj eq_refl (conj Hall _)).
  intros ch Hin. apply Hk. right.
  exact (in_map (fun ch => Str.lower (String ch EmptyString)) _ _ Hin).
Qed.

Lemma check_symptoms_spells_a_string_witness :
  Health.check_symptoms rng_first (PStr "Flu") clinic_start
  = (inr (PDict [("f", PStr Health.no_match_text); ("l", PStr Health.no_match_text);
                 ("u", PStr Health.no_match_text)]), clinic_start)
  /\ exists matched,
       Health.check_symptoms rng_first (PStr "Flu") clinic_start
       = (inr (PDict matched), clinic_start)
       /\ (forall k v, dict_get matched k = Some v ->
                       v = PStr Health.no_match_text /\ String.length k = 1)
       /\ (forall ch, In ch (list_ascii_of_string "Flu") ->
                      has_key matched (Str.lower (String ch EmptyString)) = true).
Proof.
  split; [reflexivity |].
  exact (check_symptoms_spells_a_string rng_first "Flu" clinic_start eq_refl).
Defined.

Lemma tips_nodup : NoDup Health.LIFESTYLE_TIPS.
Proof.
  unfold Health.LIFESTYLE_TIPS.
  repeat (constructor; [cbn [In]; intuition discriminate |]). constructor.
Qed.

Lemma sample_run rng c :
  fair rng ->
  exists base,
    length base = 3 /\ NoDup base /\ incl base Health.LIFESTYLE_TIPS
    /\ Health.sample rng Health.LIFESTYLE_TIPS 3 c
       = (inr base, Health.mkClinic (S (Health.rolls c)) (Health.reads c)).
Proof.
  intros [_ Hs]. unfold Health.sample.
  change (length Health.LIFESTYLE_TIPS) with 5. cbn [Nat.ltb Nat.leb].
  destruct (Hs (Health.rolls c) 5 3 ltac:(lia)) as (Hlen & Hnd & Hall).
  set (idx := Health.sample_indices rng (Health.rolls c) 5 3) in *.
  eexists. refine (conj _ (conj _ (conj _ eq_refl))).
  - rewrite length_map. exact Hlen.
  - apply NoDup_map_NoDup_ForallPairs; [| exact Hnd].
    intros i j Hi Hj Heq. rewrite Forall_forall in Hall.
    apply (proj1 (NoDup_nth Health.LIFESTYLE_TIPS EmptyString) tips_nodup);
      [apply Hall, Hi | apply Hall, Hj | exact Heq].
  - intros x Hx. apply in_map_iff in Hx. destruct Hx as (i & <- & Hi).
    rewrite Forall_forall in Hall. apply nth_In. apply Hall, Hi.
Qed.

(** X20: the advice list, for an integer age and a string activity level
    and a random module that keeps its promises: three different tips of
    [LIFESTYLE_TIPS] first, then the blood-pressure tip if the age is over 40
    (40 itself is not), then the stretching tip if the activity level is
    "low" in any letter case; so between three and five items in all. *)
Theorem get_health_advice_tips rng age level c :
  fair rng ->
  exists base,
    length base = 3 /\ NoDup base /\ incl base Health.LIFESTYLE_TIPS
    /\ fst (Health.get_health_advice rng (PInt age) (PStr level) c)
       = inr (base ++ (if (40 <? age)%Z then [Health.checks_tip] else [])
                   ++ (if String.eqb (Str.lower level) "low"
                       then [Health.stretch_tip] else [])).
Proof.
  intros Hfair.
  destruct (sample_run rng c Hfair) as (base & Hlen & Hnd & Hincl & Hrun).
  exists base. refine (conj Hlen (conj Hnd (conj Hincl _))).
  unfold Health.get_health_advice, sbind at 1. rewrite Hrun.
  cbn [sbind pure sret py_gt_int lower_of fst].
  destruct (40 <? age)%Z; destruct (String.eqb (Str.lower level) "low");
    cbn [fst app]; rewrite ?app_nil_r, <- ?app_assoc; reflexivity.
Qed.

Lemma get_health_advice_tips_witness :
  fst (Health.get_health_advice rng_first (PInt 41) (PStr "LOW") clinic_start)
  = inr ["Drink at least 2–3 liters of water daily.";
         "Avoid screens for 30 minutes before sleeping.";
         "Include green veggies in 2 meals a day.";
         Health.checks_tip; Health.stretch_tip]
  /\ exists base,
       length base = 3 /\ NoDup base /\ incl base Health.LIFESTYLE_TIPS
       /\ fst (Health.get_health_advice rng_first (PInt 40) (PStr "high") clinic_start)
          = inr (base ++ [] ++ []).
Proof.
  split; [reflexivity |].
  exact (get_health_advice_tips rng_first 40 "high" clinic_start fair_rng_first).
Defined.

Definition is_str (v : pyval) : bool :=
  match v with PStr _ => true | _ => false end.

(** An [int], a [float] or a [bool]: what Python compares with [40]. *)
Definition is_number (v : pyval) : bool :=
  match v with PInt _ | PFloat _ | PBool _ => true | _ => false end.

(** A list whose items are all strings. *)
Definition strings_only (v : pyval) : bool :=
  match v with
  | PList l => forallb is_str l
  | _ => false
  end.

Lemma strings_only_names v :
  strings_only v = true -> exists names, v = PList (map PStr names).
Proof.
  destruct v as [| | | | | l |]; try discriminate. cbn [strings_only].
  induction l as [| x rest IH]; intros Hall.
  - exists []. reflexivity.
  - cbn [forallb] in Hall. apply andb_prop in Hall. destruct Hall as [Hx Hrest].
    destruct (IH Hrest) as (names & E). inversion E.
    destruct x; try discriminate Hx. exists (s :: names). reflexivity.
Qed.

(** The body [health_check] sends back with status 200. *)
Definition report_of (r : (exn + Response) * Ward) : option (list (string * pyval)) :=
  match fst r with
  | inr (PDict [("ok", PBool true); ("report", PDict report)], 200) => Some report
  | _ => None
  end.

Lemma advice_raises rng age activity c :
  is_number age && is_str activity = false ->
  exists e c', Health.get_health_advice rng age activity c = (inl e, c').
Proof.
  intros Hbad. unfold Health.get_health_advice, sbind, Health.sample, pure.
  change (length Health.LIFESTYLE_TIPS <? 3) with false. cbn iota.
  destruct age; try (eexists _, _; reflexivity);
    destruct activity; try discriminate Hbad; eexists _, _; reflexivity.
Qed.

Lemma advice_returns rng age level c :
  fair rng -> is_number age = true ->
  exists advice c', Health.get_health_advice rng age (PStr level) c = (inr advice, c').
Proof.
  intros Hfair Hage.
  destruct (sample_run rng c Hfair) as (base & _ & _ & _ & Hsample).
  unfold Health.get_health_advice, sbind at 1. rewrite Hsample.
  destruct age; try discriminate Hage; eexists _, _; reflexivity.
Qed.

Lemma wellness_report_run rng d c names level :
  fair rng ->
  field d "symptoms" (PList []) = PList (map PStr names) ->
  is_number (field d "age" (PInt 25)) = true ->
  field d "activity" (PStr "medium") = PStr level ->
  exists diagnosis advice stamp c',
    Health.generate_wellness_report rng (PDict d) c
    = (inr (PDict [("name", field d "name" (PStr "User")); ("diagnosis", diagnosis);
                   ("advice", advice); ("timestamp", stamp)]), c').
Proof.
  intros Hfair Hnames Hage Hact.
  destruct (check_loop_run rng names Hfair [] c) as (matched & c1 & Hrun & _ & _ & _).
  { intros k v Hget. discriminate Hget. }
  destruct (advice_returns rng (field d "age" (PInt 25)) level c1 Hfair Hage)
    as (advice & c2 & Hadvice).
  unfold Health.generate_wellness_report, sbind at 1 2 3. cbn [pure get_or].
  rewrite Hnames.
  unfold Health.check_symptoms, sbind at 1 2. cbn [pure py_iter]. rewrite Hrun.
  cbn [sret]. unfold sbind at 1 2 3. cbn [pure].
  rewrite Hact, Hadvice.
  cbn [sbind pure sret Health.now_stamp].
  eexists _, _, _, _. reflexivity.
Qed.

Lemma wellness_report_fails rng d c :
  is_number (field d "age" (PInt 25)) && is_str (field d "activity" (PStr "medium")) = false ->
  exists e c', Health.generate_wellness_report rng (PDict d) c = (inl e, c').
Proof.
  intros Hbad.
  unfold Health.generate_wellness_report, sbind at 1 2 3. cbn [pure get_or].
  destruct (Health.check_symptoms rng (field d "symptoms" (PList [])) c)
    as [[e | diagnosis] c1]; [eexists _, _; reflexivity |].
  unfold sbind at 1 2 3. cbn [pure].
  destruct (advice_raises rng _ _ c1 Hbad) as (e & c2 & ->).
  eexists _, _; reflexivity.
Qed.

(** X21: the answers of [POST /api/health/check] to a JSON-object body.
    Without the healthcare module the answer is 404
    [healthcare_unavailable].  With it, and a random module that keeps its
    promises: when ["symptoms"] is a list of strings, ["age"] a number and
    ["activity"] a string (each may be missing), the answer is 200 with a
    report that repeats the name (["User"] if none was given) and holds a
    diagnosis, an advice list and a timestamp, and nothing is logged; when
    the age is not a number or the activity not a string, the answer is 500
    [healthcare_failed], with one line logged, whatever the rest of the body
    is. *)
Theorem health_check_answers loaded rng req d s :
  fair rng ->
  request_body req = PDict d ->
  let r := health_check loaded rng req s in
  let age := field d "age" (PInt 25) in
  let activity := field d "activity" (PStr "medium") in
  (loaded = false -> r = (inr (err_result "healthcare_unavailable", 404), s))
  /\ (loaded = true ->
      strings_only (field d "symptoms" (PList [])) = true ->
      is_number age = true -> is_str activity = true ->
      exists report,
        report_of r = Some report
        /\ map fst report = ["name"; "diagnosis"; "advice"; "timestamp"]
        /\ dict_get report "name" = Some (field d "name" (PStr "User"))
        /\ fst (snd r) = fst s)
  /\ (loaded = true ->
      is_number age && is_str activity = false ->
      fst r = inr (err_result "healthcare_failed", 500)
      /\ fst (snd r) = fst s ++ [ELog "exception" "local healthcare failed"]).
Proof.
  intros Hfair Hbody r age activity. subst r.
  unfold health_check. rewrite Hbody.
  refine (conj _ (conj _ _)).
  - intros ->. reflexivity.
  - intros -> Hsym Hage Hact.
    destruct (strings_only_names _ Hsym) as (names & Hnames).
    destruct activity as [| | | | level | |] eqn:Eact; try discriminate Hact.
    destruct s as [w c].
    destruct (wellness_report_run rng d c names level Hfair Hnames Hage Eact)
      as (diagnosis & advice & stamp & c' & Hrun).
    unfold stry, sbind, on_clinic. cbn [fst snd]. rewrite Hrun.
    eexists. split; [reflexivity |]. split; [reflexivity |]. split; reflexivity.
  - intros -> Hbad. destruct s as [w c].
    destruct (wellness_report_fails rng d c Hbad) as (e & c' & Hrun).
    unfold stry, sbind, on_clinic. cbn [fst snd]. rewrite Hrun.
    split; reflexivity.
Qed.

Lemma health_check_answers_witness :
  (report_of (health_check true rng_first
                (chat_request [("name", PStr "Ann"); ("symptoms", PList [PStr "Cough"]);
                             ("age", PInt 52)])
                ([], clinic_start))
   = Some [("name", PStr "Ann");
           ("diagnosis", PDict [("cough", PStr "Allergy")]);
           ("advice", PList (map PStr ["Drink at least 2–3 liters of water daily.";
                                       "Avoid screens for 30 minutes before sleeping.";
                                       "Include green veggies in 2 meals a day.";
                                       Health.checks_tip]));
           ("timestamp", PStr "2024-05-01 10:00:00")]
   /\ exists report,
        report_of (health_check true rng_first
                     (chat_request [("name", PStr "Ann"); ("symptoms", PList [PStr "Cough"]);
                                  ("age", PInt 52)])
                     ([], clinic_start)) = Some report
        /\ map fst report = ["name"; "diagnosis"; "advice"; "timestamp"]
        /\ dict_get report "name" = Some (PStr "Ann")
        /\ fst (snd (health_check true rng_first
                       (chat_request [("name", PStr "Ann"); ("symptoms", PList [PStr "Cough"]);
                                    ("age", PInt 52)])
                       ([], clinic_start))) = [])
  /\ fst (health_check true rng_first (chat_request [("age", PStr "52")]) ([], clinic_start))
     = inr (err_result "healthcare_failed", 500).
Proof.
  split; [split; [reflexivity |] |].
  - destruct (health_check_answers true rng_first
                (chat_request [("name", PStr "Ann"); ("symptoms", PList [PStr "Cough"]);
                             ("age", PInt 52)])
                [("name", PStr "Ann"); ("symptoms", PList [PStr "Cough"]); ("age", PInt 52)]
                ([], clinic_start) fair_rng_first eq_refl) as (_ & Hok & _).
    exact (Hok eq_refl eq_refl eq_refl eq_refl).
  - destruct (health_check_answers true rng_first (chat_request [("age", PStr "52")])
                [("age", PStr "52")] ([], clinic_start) fair_rng_first eq_refl)
      as (_ & _ & Hbad).
    exact (proj1 (Hbad eq_refl eq_refl)).
Defined.

(** ** The book views of main.py *)

(** The gateway next to the book module: the journal of the first, the
    store of the second, and the URLs fetched with [requests.get]. *)
Record Site : Type := mkSite {
  journal : World;
  shelf : Books.Shelf;
  fetches : list string
}.

(** A gateway step, run on the journal of the site. *)
Definition on_world {A} (m : M A) : SE Site A :=
  fun s => let (r, w) := m (journal s) in (r, mkSite w (shelf s) (fetches s)).

(** A call into [book_platform], run on the store of the site. *)
Definition on_shelf {A} (m : Books.B A) : SE Site A :=
  fun s => let (r, b) := m (shelf s) in (r, mkSite (journal s) b (fetches s)).

Section BookViews.

Variable env : Env.
Variable host : Books.Host.
(** [os.getenv("BOOKS_SERVICE_URL")]. *)
Variable BOOKS_SERVICE_URL : option string.
(** [local_books]: whether [safe_import("book_platform")] gave the module. *)
Variable local_books : bool.
(** [requests.get] + [raise_for_status] + [r.json()], at the n-th GET. *)
Variable http_get : nat -> string -> pyval -> exn + pyval.

Local Open Scope se_scope.

Definition requests_get (url : string) (params : pyval) : SE Site pyval :=
  fun s =>
    (http_get (length (fetches s)) url params,
     mkSite (journal s) (shelf s) (fetches s ++ [url])).

Definition proxy_get (url : string) (params : pyval) : SE Site pyval :=
  stry (requests_get url (py_or params (PDict [])))
    (fun e =>
       on_world (logger "exception" "proxy_get failed") ;;;
       sret (PDict [("ok", PBool false); ("error", PStr (exn_str e))])).

(** [GET /api/books/get/<book_id>]. *)
Definition books_get (book_id : string) : SE Site Response :=
  if configured BOOKS_SERVICE_URL then
    r <- proxy_get (Str.rstrip_slash (url_of BOOKS_SERVICE_URL) ++ "/books/get/" ++ book_id)%string
           PNone ;;
    sret (r, 200)
  else if local_books then
    stry
      (book <- on_shelf (Books.get_book book_id) ;;
       if truthy book then sret (PDict [("ok", PBool true); ("book", book)], 200)
       else sret (err_result "not_found", 404))
      (fun _ =>
         on_world (logger "exception" "local book get failed") ;;;
         sret (err_result "local_books_error", 500))
  else sret (err_result "books_unavailable", 404).

(** [POST /api/books/add], the view that [require_admin] guards. *)
Definition books_add (req : Request) : SE Site Response :=
  let payload := request_body req in
  if configured BOOKS_SERVICE_URL then
    r <- on_world (proxy_post env
                     (Str.rstrip_slash (url_of BOOKS_SERVICE_URL) ++ "/books/add")%string
                     payload) ;;
    sret (r, 200)
  else if local_books then
    stry
      (book <- on_shelf (Books.add_book host payload) ;;
       title <- pure (get_or book "title" PNone) ;;
       author <- pure (get_or book "author" PNone) ;;
       on_world (append_event env (PStr "book_add")
                   (PDict [("title", title); ("author", author)])) ;;;
       sret (PDict [("ok", PBool true); ("book", book)], 200))
      (fun _ =>
         on_world (logger "exception" "local book add failed") ;;;
         sret (err_result "local_add_failed", 500))
  else sret (err_result "books_unavailable", 404).

End BookViews.








Lemma proxy_get_run http_get url params s :
  proxy_get http_get url params s
  = match http_get (length (fetches s)) url (py_or params (PDict [])) with
    | inr v => (inr v, mkSite (journal s) (shelf s) (fetches s ++ [url]))
    | inl e =>
        (inr (PDict [("ok", PBool false); ("error", PStr (exn_str e))]),
         mkSite (journal s ++ [ELog "exception" "proxy_get failed"]) (shelf s)
           (fetches s ++ [url]))
    end.
Proof.
  unfold proxy_get, stry, requests_get.
  destruct (http_get (length (fetches s)) url (py_or params (PDict []))); reflexivity.
Qed.

(** X23: with a books service configured (a non-empty [BOOKS_SERVICE_URL]),
    the two book views never call the local book module: books.json, the
    activity log and the listing cache are left as they were, whether the
    module is loaded or not.  Each view makes one request to the service and
    answers with status 200 whatever comes back: the body the service sent,
    or [{"ok": false, "error": ...}] when the request failed. *)
Theorem book_views_defer_to_service env host url loaded http_get req book_id s :
  configured (Some url) = true ->
  let added := books_add env host (Some url) loaded req s in
  let got := books_get (Some url) loaded http_get book_id s in
  (shelf (snd added) = shelf s
   /\ exists body,
        fst added = inr (body, 200)
        /\ count is_post (journal (snd added)) = S (count is_post (journal s))
        /\ (forall e, http_post env (count is_post (journal s))
                        (Str.rstrip_slash url ++ "/books/add")%string (request_body req)
                      = inl e ->
                      body = PDict [("ok", PBool false); ("error", PStr (exn_str e))]))
  /\ (shelf (snd got) = shelf s
      /\ exists body,
           fst got = inr (body, 200)
           /\ fetches (snd got)
              = fetches s ++ [(Str.rstrip_slash url ++ "/books/get/" ++ book_id)%string]
           /\ (forall e, http_get (length (fetches s))
                           (Str.rstrip_slash url ++ "/books/get/" ++ book_id)%string (PDict [])
                         = inl e ->
                         body = PDict [("ok", PBool false); ("error", PStr (exn_str e))])).
Proof.
  intros Hurl added got. subst added got.
  unfold books_add, books_get. rewrite Hurl. cbn [url_of].
  unfold sbind, on_world. rewrite proxy_post_run, proxy_get_run. cbn [py_or truthy].
  split.
  - destruct (http_post env (count is_post (journal s))
                (Str.rstrip_slash url ++ "/books/add")%string (request_body req)) as [e | v].
    + cbn [fst snd shelf journal sret].
      split; [reflexivity |]. eexists. split; [reflexivity |]. split.
      * unfold count. rewrite filter_app, length_app. simpl. lia.
      * intros e' He'. inversion He'. reflexivity.
    + cbn [fst snd shelf journal sret].
      split; [reflexivity |]. eexists. split; [reflexivity |]. split.
      * unfold count. rewrite filter_app, length_app. simpl. lia.
      * intros e' He'. discriminate He'.
  - destruct (http_get (length (fetches s))
                (Str.rstrip_slash url ++ "/books/get/" ++ book_id)%string (PDict [])) as [e | v].
    + cbn [fst snd shelf fetches sret].
      split; [reflexivity |]. eexists. split; [reflexivity |]. split; [reflexivity |].
      intros e' He'. inversion He'. reflexivity.
    + cbn [fst snd shelf fetches sret].
      split; [reflexivity |]. eexists. split; [reflexivity |]. split; [reflexivity |].
      intros e' He'. discriminate He'.
Qed.

Lemma book_views_defer_to_service_witness :
  let down := fun (_ : nat) (_ : string) (_ : pyval) =>
                inl (Exn "ConnectionError" "connection refused") : exn + pyval in
  let got := books_get (Some "http://books.internal/") true down "book_dune"
               (mkSite [] shelf_demo []) in
  fst got = inr (PDict [("ok", PBool false); ("error", PStr "connection refused")], 200)
  /\ shelf (snd got) = shelf_demo
  /\ fetches (snd got) = ["http://books.internal/books/get/book_dune"].
Proof.
  intros down got.
  destruct (book_views_defer_to_service env_offline host_demo "http://books.internal/" true
              down (chat_request []) "book_dune" (mkSite [] shelf_demo []) eq_refl)
    as (_ & Hshelf & body & Hr & Hf & Hdown).
  refine (conj _ (conj Hshelf Hf)).
  rewrite (Hdown _ eq_refl) in Hr. exact Hr.
Defined.

(** ** The realtime chat handler of main.py *)

(** A message handed to the socket server by [emit(event, data, room=room)]. *)
Record Signal : Type := mkSignal {
  sig_event : string;
  sig_data : pyval;
  sig_room : pyval
}.

(** The gateway journal next to the messages emitted so far. *)
Definition Hub : Type := (World * list Signal)%type.

(** A gateway step, run on the journal of the hub. *)
Definition in_world {A} (m : M A) : SE Hub A :=
  fun s => let (r, w) := m (fst s) in (r, (w, snd s)).

Definition socket_emit (event : string) (data room : pyval) : SE Hub unit :=
  fun s => (inr tt, (fst s, snd s ++ [mkSignal event data room])).

Section Realtime.

Variable env : Env.

Local Open Scope se_scope.

(** [@socketio.on("message")].  The orchestrator is called without a
    preference, so with its default, ["microservice"]. *)
Definition _on_message (data : pyval) : SE Hub unit :=
  room <- pure (get_or data "room" (PStr "global")) ;;
  prompt <- pure (get_or data "prompt" (PStr EmptyString)) ;;
  user <- pure (get_or data "user" (PStr "guest")) ;;
  v <- pure (get_or data "voice" (PBool false)) ;;
  let voice := truthy v in
  if negb (truthy prompt) then
    socket_emit "error" (PDict [("error", PStr "empty_prompt")]) room
  else
    socket_emit "typing" (PDict [("user", PStr "neura")]) room ;;;
    res <- in_world (generate_ai_reply env prompt user (PStr "microservice")) ;;
    reply <- pure (get_or res "reply" (PStr "No reply.")) ;;
    in_world (append_event env (PStr "ai_query")
                (PDict [("user", user); ("prompt", prompt)])) ;;;
    socket_emit "reply" (PDict [("user", PStr "neura"); ("reply", reply)]) room ;;;
    if voice then
      if configured (VOICE_SERVICE_URL env) then
        r <- in_world (proxy_post env
                         (Str.rstrip_slash (url_of (VOICE_SERVICE_URL env)) ++ "/speak")%string
                         (PDict [("text", reply)])) ;;
        audio <- pure (get_or r "audio" PNone) ;;
        socket_emit "audio" (PDict [("url", audio)]) room
      else
        match local_voice env with
        | Some vm =>
            match speak_text vm with
            | Some f =>
                stry
                  (audio <- in_world (call_local_voice "speak_text" f [reply]) ;;
                   socket_emit "audio" (PDict [("url", audio)]) room)
                  (fun _ => sret tt)
            | None => sret tt
            end
        | None => sret tt
        end
    else sret tt.

End Realtime.

(** The three messages the handler sends about a prompt. *)
Definition typing_signal (room : pyval) : Signal :=
  mkSignal "typing" (PDict [("user", PStr "neura")]) room.
Definition reply_signal (reply room : pyval) : Signal :=
  mkSignal "reply" (PDict [("user", PStr "neura"); ("reply", reply)]) room.
Definition audio_signal (url room : pyval) : Signal :=
  mkSignal "audio" (PDict [("url", url)]) room.

(** The journal once the handler has recorded the prompt. *)
Definition after_query (env : Env) (user prompt : pyval) (w : World) : World :=
  snd (append_event env (PStr "ai_query") (PDict [("user", user); ("prompt", prompt)]) w).

Lemma on_message_empty env d s :
  truthy (field d "prompt" (PStr EmptyString)) = false ->
  _on_message env (PDict d) s
  = (inr tt,
     (fst s, snd s ++ [mkSignal "error" (PDict [("error", PStr "empty_prompt")])
                         (field d "room" (PStr "global"))])).
Proof.
  intros Hp. unfold _on_message, sbind. cbn [pure get_or]. rewrite Hp. reflexivity.
Qed.

(** The handler up to and including the reply message. *)
Lemma on_message_reply env d w sigs res w1 :
  truthy (field d "prompt" (PStr EmptyString)) = true ->
  generate_ai_reply env (field d "prompt" (PStr EmptyString))
    (field d "user" (PStr "guest")) (PStr "microservice") w = (inr res, w1) ->
  truthy (field d "voice" (PBool false)) = false ->
  exists rd,
    res = PDict rd
    /\ _on_message env (PDict d) (w, sigs)
       = (inr tt,
          (after_query env (field d "user" (PStr "guest"))
             (field d "prompt" (PStr EmptyString)) w1,
           sigs ++ [typing_signal (field d "room" (PStr "global"));
                    reply_signal (field rd "reply" (PStr "No reply."))
                      (field d "room" (PStr "global"))])).
Proof.
  intros Hp Hgen Hv.
  destruct (generate_returns_dict _ _ _ _ _ _ _ Hgen) as (rd & ->).
  exists rd. split; [reflexivity |].
  unfold _on_message, sbind. cbn [pure get_or]. rewrite Hp, Hv. cbn [negb].
  unfold socket_emit at 1. unfold in_world at 1. cbn [fst snd]. rewrite Hgen.
  cbn [get_or]. unfold in_world. cbn [fst snd].
  unfold after_query. rewrite append_event_run. unfold socket_emit, sret. cbn [fst snd].
  rewrite <- app_assoc. reflexivity.
Qed.

Lemma append_event_no_chatlog env ty payload w :
  count is_chatlog (snd (append_event env ty payload w)) = count is_chatlog w.
Proof.
  rewrite append_event_run. cbn [snd]. rewrite !count_app.
  destruct (file_write env (count is_file w)); destruct (db_commit env (count is_db w));
    cbn; lia.
Qed.

(** X24: a chat message over the socket.  For a message object with an
    empty or missing prompt the handler emits one [error] message
    ([empty_prompt]) to the room and does nothing else.  For a non-empty
    prompt without voice, when the orchestrator returns, it emits [typing]
    and then [reply] with the orchestrator's reply, to the room of the
    message (["global"] if none is named), and records one [ai_query] event
    with the user and the prompt; unlike [POST /chat] it never writes a row
    to the chat log. *)
Theorem socket_message_flow env d w sigs :
  let prompt := field d "prompt" (PStr EmptyString) in
  let user := field d "user" (PStr "guest") in
  let room := field d "room" (PStr "global") in
  let r := _on_message env (PDict d) (w, sigs) in
  (truthy prompt = false ->
   r = (inr tt, (w, sigs ++ [mkSignal "error" (PDict [("error", PStr "empty_prompt")]) room])))
  /\ (forall res w1,
        truthy prompt = true ->
        generate_ai_reply env prompt user (PStr "microservice") w = (inr res, w1) ->
        truthy (field d "voice" (PBool false)) = false ->
        exists reply,
          get_or res "reply" (PStr "No reply.") = inr reply
          /\ r = (inr tt,
                  (after_query env user prompt w1,
                   sigs ++ [typing_signal room; reply_signal reply room]))
          /\ count is_chatlog (fst (snd r)) = count is_chatlog w).
Proof.
  intros prompt user room r. subst r. split.
  - intros Hp. exact (on_message_empty env d (w, sigs) Hp).
  - intros res w1 Hp Hgen Hv.
    destruct (on_message_reply env d w sigs res w1 Hp Hgen Hv) as (rd & -> & Hrun).
    exists (field rd "reply" (PStr "No reply.")).
    rewrite Hrun. cbn [fst snd].
    refine (conj eq_refl (conj eq_refl _)).
    unfold after_query. rewrite append_event_no_chatlog.
    pose proof (emits_count not_storage is_chatlog
                  (generate_ai_reply env prompt user (PStr "microservice")) w
                  (emits_generate env prompt user (PStr "microservice")) not_storage_chatlog) as Hc.
    fold prompt user in Hgen. rewrite Hgen in Hc. exact Hc.
Qed.

(** X25: voice over the socket, once the orchestrator has returned and the
    [reply] message is out.  With a voice service configured the handler
    posts the reply text to it and emits an [audio] message in every case
    where the answer is a JSON object: with the service's audio reference,
    or with [url: null] when the request failed or the answer has no
    ["audio"]; an answer that is not an object makes the handler raise.
    Without a voice service, a local voice module is asked: its result is
    emitted as [audio], and if it raises nothing more is emitted and the
    handler still returns normally; with neither, there is no [audio]
    message. *)
Theorem socket_voice_outcomes env d w sigs rd w1 :
  let prompt := field d "prompt" (PStr EmptyString) in
  let user := field d "user" (PStr "guest") in
  let room := field d "room" (PStr "global") in
  truthy prompt = true ->
  generate_ai_reply env prompt user (PStr "microservice") w = (inr (PDict rd), w1) ->
  truthy (field d "voice" (PBool false)) = true ->
  let reply := field rd "reply" (PStr "No reply.") in
  let w2 := after_query env user prompt w1 in
  let base := sigs ++ [typing_signal room; reply_signal reply room] in
  let r := _on_message env (PDict d) (w, sigs) in
  (configured (VOICE_SERVICE_URL env) = true ->
   match http_post env (count is_post w2) (voice_speak_url env) (PDict [("text", reply)]) with
   | inl _ => fst r = inr tt /\ snd (snd r) = base ++ [audio_signal PNone room]
   | inr (PDict b) =>
       fst r = inr tt /\ snd (snd r) = base ++ [audio_signal (field b "audio" PNone) room]
   | inr _ => (exists e, fst r = inl e) /\ snd (snd r) = base
   end)
  /\ (configured (VOICE_SERVICE_URL env) = false ->
      match local_voice env with
      | Some vm =>
          match speak_text vm with
          | Some f =>
              match f (count is_local w2) [reply] with
              | inr audio => fst r = inr tt /\ snd (snd r) = base ++ [audio_signal audio room]
              | inl _ => fst r = inr tt /\ snd (snd r) = base
              end
          | None => r = (inr tt, (w2, base))
          end
      | None => r = (inr tt, (w2, base))
      end).
Proof.
  intros prompt user room Hp Hgen Hv reply w2 base r.
  assert (Hrun : forall (k : pyval -> SE Hub unit),
             sbind (socket_emit "typing" (PDict [("user", PStr "neura")]) room)
               (fun _ =>
                  sbind (in_world (generate_ai_reply env prompt user (PStr "microservice")))
                    (fun res =>
                       sbind (pure (get_or res "reply" (PStr "No reply.")))
                         (fun reply0 =>
                            sbind (in_world (append_event env (PStr "ai_query")
                                               (PDict [("user", user); ("prompt", prompt)])))
                              (fun _ =>
                                 sbind (socket_emit "reply"
                                          (PDict [("user", PStr "neura"); ("reply", reply0)])
                                          room)
                                   (fun _ => k reply0)))))
               (w, sigs)
             = k reply (w2, base)).
  { intros k. unfold sbind at 1. unfold socket_emit at 1. unfold sbind at 1.
    unfold in_world at 1. cbn [fst snd]. rewrite Hgen.
    unfold sbind at 1. cbn [pure get_or]. fold reply.
    unfold sbind at 1. unfold in_world at 1. cbn [fst snd].
    rewrite append_event_run. unfold sbind at 1, socket_emit. cbn [fst snd].
    subst w2 base. unfold after_query. rewrite append_event_run. cbn [snd].
    rewrite <- app_assoc. reflexivity. }
  subst r. remember (_on_message env (PDict d) (w, sigs)) as run eqn:Hr.
  unfold _on_message in Hr. unfold sbind at 1 2 3 4 in Hr. cbn [pure get_or] in Hr.
  fold prompt user room in Hr. rewrite Hp, Hv in Hr. cbn [negb] in Hr.
  rewrite Hrun in Hr. clear Hrun.
  split.
  - intros Hc. rewrite Hc in Hr. unfold sbind at 1, in_world in Hr. cbn [fst snd] in Hr.
    rewrite proxy_post_run in Hr. fold (voice_speak_url env) in Hr.
    destruct (http_post env (count is_post w2) (voice_speak_url env)
                (PDict [("text", reply)])) as [e | body].
    + subst run. split; reflexivity.
    + destruct body; subst run; split; solve [reflexivity | eexists; reflexivity].
  - intros Hc. rewrite Hc in Hr.
    destruct (local_voice env) as [vm |]; [| exact Hr].
    destruct (speak_text vm) as [f |]; [| exact Hr].
    unfold stry, sbind, in_world, call_local_voice in Hr. cbn [fst snd] in Hr.
    destruct (f (count is_local w2) [reply]); subst run; split; reflexivity.
Qed.

Lemma socket_voice_outcomes_witness :
  let d := [("prompt", PStr "hello"); ("voice", PBool true); ("room", PStr "lobby")] in
  let r := _on_message env_voice_down (PDict d) ([], []) in
  fst r = inr tt
  /\ snd (snd r)
     = [typing_signal (PStr "lobby"); reply_signal (PStr greeting_text) (PStr "lobby")]
       ++ [audio_signal PNone (PStr "lobby")].
Proof.
  intros d r.
  exact (proj1 (socket_voice_outcomes env_voice_down d [] []
                  [("ok", PBool true); ("reply", PStr greeting_text)] []
                  eq_refl eq_refl eq_refl) eq_refl).
Defined.

Lemma socket_message_flow_witness :
  _on_message env_offline (PDict [("user", PStr "u1")]) ([], [])
  = (inr tt, ([], [mkSignal "error" (PDict [("error", PStr "empty_prompt")]) (PStr "global")])).
Proof.
  exact (proj1 (socket_message_flow env_offline [("user", PStr "u1")] [] []) eq_refl).
Defined.

(** ** The background worker of main.py *)

Module Worker.

(** An mp3 file of [static/audio], as one turn of the worker meets it. *)
Record AudioFile : Type := mkAudioFile {
  path : string;
  st_mtime : exn + Z;        (* p.stat().st_mtime, or what stat() raises *)
  unlink : exn + unit        (* f.unlink() *)
}.

(** What one turn of the worker finds. *)
Record Disk : Type := mkDisk {
  (* audio_dir.glob("*.mp3"); None when the directory does not exist *)
  audio_dir : option (list AudioFile);
  (* ev.stat().st_size; None when events.log does not exist *)
  events_log : option (exn + Z);
  (* int(time.time()) *)
  now : Z;
  (* ev.rename(dst) *)
  rename : string -> exn + unit
}.

(** What one turn of the worker did. *)
Record Turn : Type := mkTurn {
  unlinked : list string;        (* the files removed, in order *)
  rotated_to : option string;    (* where events.log was moved *)
  logged : list string           (* logger.exception lines *)
}.

(** The keys [sorted] computes, file by file; the first [stat()] that
    raises ends the call. *)
Fixpoint keyed (files : list AudioFile) : exn + list (Z * AudioFile) :=
  match files with
  | [] => inr []
  | f :: rest =>
      match st_mtime f with
      | inl e => inl e
      | inr t =>
          match keyed rest with
          | inl e => inl e
          | inr l => inr ((t, f) :: l)
          end
      end
  end.

Fixpoint insert (x : Z * AudioFile) (l : list (Z * AudioFile)) : list (Z * AudioFile) :=
  match l with
  | [] => [x]
  | y :: rest => if (fst x <=? fst y)%Z then x :: l else y :: insert x rest
  end.

(** [sorted(files, key=...)]: ascending keys, files with equal keys in
    their original order. *)
Definition sorted (l : list (Z * AudioFile)) : list AudioFile :=
  map snd (fold_right insert [] l).

(** The paths of the files of [l] whose [unlink()] goes through. *)
Definition unlink_all (l : list AudioFile) : list string :=
  flat_map (fun f => match unlink f with inr _ => [path f] | inl _ => [] end) l.

(** The pruning of the audio files. *)
Definition prune (d : Disk) : exn + list string :=
  match audio_dir d with
  | None => inr []
  | Some found =>
      match keyed found with
      | inl e => inl e
      | inr l =>
          let files := sorted l in
          if 200 <? length files
          then inr (unlink_all (firstn (length files - 200) files))
          else inr []
      end
  end.

(** The rotation of events.log. *)
Definition rotate (d : Disk) : exn + option string :=
  match events_log d with
  | None => inr None
  | Some (inl e) => inl e
  | Some (inr size) =>
      if (5000000 <? size)%Z then
        let dst := ("events_rotated_" ++ NilZero.string_of_int (Z.to_int (now d)) ++ ".log")%string in
        match rename d dst with
        | inr _ => inr (Some dst)
        | inl _ => inr None
        end
      else inr None
  end.

(** One turn of the loop of [background_worker], up to the [sleep]. *)
Definition background_turn (d : Disk) : Turn :=
  match prune d with
  | inl _ => mkTurn [] None ["background_task error"]
  | inr removed =>
      match rotate d with
      | inl _ => mkTurn removed None ["background_task error"]
      | inr dst => mkTurn removed dst []
      end
  end.

End Worker.

(** The modification time of a file whose [stat()] goes through. *)
Definition mtime (f : Worker.AudioFile) : Z :=
  match Worker.st_mtime f with inr t => t | inl _ => 0%Z end.

(** The name a rotated events.log gets. *)
Definition rotated_name (t : Z) : string :=
  ("events_rotated_" ++ NilZero.string_of_int (Z.to_int t) ++ ".log")%string.

Definition stat_ok (found : list Worker.AudioFile) : Prop :=
  forall f, In f found -> exists t, Worker.st_mtime f = inr t.

Definition key_le (a b : Z * Worker.AudioFile) : Prop := (fst a <= fst b)%Z.

Lemma keyed_ok found :
  stat_ok found -> Worker.keyed found = inr (map (fun f => (mtime f, f)) found).
Proof.
  induction found as [| f rest IH]; intros Hok; [reflexivity |].
  cbn [Worker.keyed map]. unfold mtime at 1.
  destruct (Hok f (or_introl eq_refl)) as (t & ->).
  rewrite IH; [reflexivity |]. intros g Hg. apply Hok. right. exact Hg.
Qed.

Lemma keyed_fails found f e :
  In f found -> Worker.st_mtime f = inl e -> exists e', Worker.keyed found = inl e'.
Proof.
  induction found as [| g rest IH]; intros Hin Hf; [contradiction |].
  cbn [Worker.keyed]. destruct (Worker.st_mtime g) as [e0 | t] eqn:Hg; [eauto |].
  destruct Hin as [-> | Hin]; [rewrite Hf in Hg; discriminate Hg |].
  destruct (IH Hin Hf) as (e' & ->). eauto.
Qed.

Lemma keyed_returns found l : Worker.keyed found = inr l -> stat_ok found.
Proof.
  revert l. induction found as [| g rest IH]; intros l Hk f Hin; [contradiction |].
  cbn [Worker.keyed] in Hk.
  destruct (Worker.st_mtime g) as [e0 | t] eqn:Hg; [discriminate Hk |].
  destruct (Worker.keyed rest) as [e1 | l1]; [discriminate Hk |].
  destruct Hin as [<- | Hin]; [eauto | exact (IH l1 eq_refl f Hin)].
Qed.

Lemma insert_perm x l : Permutation (Worker.insert x l) (x :: l).
Proof.
  induction l as [| y rest IH]; cbn [Worker.insert]; [apply Permutation_refl |].
  destruct (fst x <=? fst y)%Z; [apply Permutation_refl |].
  eapply perm_trans; [apply perm_skip, IH | apply perm_swap].
Qed.

Lemma sort_perm l : Permutation (fold_right Worker.insert [] l) l.
Proof.
  induction l as [| x rest IH]; cbn [fold_right]; [apply perm_nil |].
  eapply perm_trans; [apply insert_perm | apply perm_skip, IH].
Qed.

Lemma insert_sorted x l :
  StronglySorted key_le l -> StronglySorted key_le (Worker.insert x l).
Proof.
  induction 1 as [| y rest Hs IH Hall]; cbn [Worker.insert].
  - constructor; constructor.
  - destruct (Z.leb_spec (fst x) (fst y)) as [Hle | Hgt].
    + constructor; [constructor; assumption |].
      constructor; [exact Hle |].
      eapply Forall_impl; [| exact Hall]. intros z Hz. unfold key_le in *. lia.
    + constructor; [exact IH |].
      eapply Permutation_Forall; [apply Permutation_sym, insert_perm |].
      constructor; [unfold key_le; lia | exact Hall].
Qed.

Lemma sort_sorted l : StronglySorted key_le (fold_right Worker.insert [] l).
Proof.
  induction l as [| x rest IH]; cbn [fold_right]; [constructor | apply insert_sorted, IH].
Qed.

Lemma sorted_split {A} (R : A -> A -> Prop) l k :
  StronglySorted R l ->
  forall a b, In a (firstn k l) -> In b (skipn k l) -> R a b.
Proof.
  intros Hs. revert k. induction Hs as [| x rest Hs IH Hall]; intros k a b Ha Hb.
  - rewrite firstn_nil in Ha. contradiction.
  - destruct k as [| k]; [contradiction |].
    cbn [firstn skipn] in Ha, Hb. destruct Ha as [<- | Ha].
    + rewrite Forall_forall in Hall. apply Hall.
      rewrite <- (firstn_skipn k rest). apply in_or_app. right. exact Hb.
    + exact (IH k a b Ha Hb).
Qed.

Lemma prune_run d found :
  Worker.audio_dir d = Some found ->
  stat_ok found ->
  let files := Worker.sorted (map (fun f => (mtime f, f)) found) in
  Worker.prune d = inr (Worker.unlink_all (firstn (length files - 200) files)).
Proof.
  intros Hdir Hok files. unfold Worker.prune. rewrite Hdir, (keyed_ok found Hok).
  fold files. cbv zeta.
  destruct (Nat.ltb_spec 200 (length files)) as [Hlt | Hge]; [reflexivity |].
  replace (length files - 200) with 0 by lia. reflexivity.
Qed.

Lemma turn_unlinked d removed :
  Worker.prune d = inr removed -> Worker.unlinked (Worker.background_turn d) = removed.
Proof.
  intros Hp. unfold Worker.background_turn. rewrite Hp.
  destruct (Worker.rotate d); reflexivity.
Qed.

(** X26: the pruning of the audio files never touches the 200 most recent
    ones.  When every [stat()] goes through, the mp3 files found split into
    [old] and [recent], where [recent] holds 200 files (all of them when
    there are no more than 200) and no file of [old] is newer than a file of
    [recent]; the files the turn removes are exactly those of [old] whose
    [unlink()] goes through. *)
Theorem worker_keeps_newest d found :
  Worker.audio_dir d = Some found ->
  stat_ok found ->
  exists old recent,
    Permutation found (old ++ recent)
    /\ length recent = Nat.min 200 (length found)
    /\ (forall a b, In a old -> In b recent -> (mtime a <= mtime b)%Z)
    /\ Worker.unlinked (Worker.background_turn d) = Worker.unlink_all old.
Proof.
  intros Hdir Hok.
  set (l := map (fun f => (mtime f, f)) found).
  set (s := fold_right Worker.insert [] l).
  set (k := length (map snd s) - 200).
  assert (Hperm : Permutation (map snd s) found).
  { unfold s. eapply perm_trans; [apply Permutation_map, sort_perm |].
    unfold l. rewrite map_map. cbn [snd]. rewrite map_id. apply Permutation_refl. }
  assert (Hkeys : forall x, In x s -> fst x = mtime (snd x)).
  { intros x Hx. apply (Permutation_in _ (sort_perm l)) in Hx.
    unfold l in Hx. apply in_map_iff in Hx. destruct Hx as (f & <- & _). reflexivity. }
  exists (firstn k (map snd s)), (skipn k (map snd s)).
  refine (conj _ (conj _ (conj _ _))).
  - rewrite firstn_skipn. apply Permutation_sym, Hperm.
  - rewrite length_skipn. unfold k. rewrite (Permutation_length Hperm). lia.
  - intros a b Ha Hb.
    rewrite firstn_map in Ha. rewrite skipn_map in Hb.
    apply in_map_iff in Ha. destruct Ha as (x & <- & Hx).
    apply in_map_iff in Hb. destruct Hb as (y & <- & Hy).
    pose proof (sorted_split key_le s k (sort_sorted l) x y Hx Hy) as Hle.
    unfold key_le in Hle.
    rewrite <- (Hkeys x), <- (Hkeys y); [exact Hle | |].
    + rewrite <- (firstn_skipn k s). apply in_or_app. right. exact Hy.
    + rewrite <- (firstn_skipn k s). apply in_or_app. left. exact Hx.
  - apply turn_unlinked. exact (prune_run d found Hdir Hok).
Qed.

(** X27: the rotation of events.log.  A turn moves events.log exactly when
    every [stat()] on the audio files went through, events.log exists, its
    size is above 5,000,000 bytes (a file of exactly that size stays) and the
    rename goes through; the new name is [events_rotated_<seconds>.log].  If
    the [stat()] of one mp3 raises, the turn removes nothing, rotates nothing
    and logs one line. *)
Theorem worker_rotation_threshold d :
  (forall dst,
     Worker.rotated_to (Worker.background_turn d) = Some dst
     <-> (forall found, Worker.audio_dir d = Some found -> stat_ok found)
         /\ exists size u,
              Worker.events_log d = Some (inr size) /\ (5000000 < size)%Z
              /\ dst = rotated_name (Worker.now d) /\ Worker.rename d dst = inr u)
  /\ (forall found f e,
        Worker.audio_dir d = Some found -> In f found -> Worker.st_mtime f = inl e ->
        Worker.background_turn d = Worker.mkTurn [] None ["background_task error"]).
Proof.
  split.
  - intros dst. unfold Worker.background_turn, Worker.rotate. fold (rotated_name (Worker.now d)).
    split.
    + intros Hrot.
      destruct (Worker.prune d) as [e | removed] eqn:Hp; [discriminate Hrot |].
      split.
      * intros found Hdir. unfold Worker.prune in Hp. rewrite Hdir in Hp.
        destruct (Worker.keyed found) as [e | l] eqn:Hk; [discriminate Hp |].
        exact (keyed_returns found l Hk).
      * destruct (Worker.events_log d) as [[e | size] |]; try discriminate Hrot.
        destruct (Z.ltb_spec 5000000 size) as [Hlt | Hge]; [| discriminate Hrot].
        destruct (Worker.rename d (rotated_name (Worker.now d))) as [e | u] eqn:Hr;
          [discriminate Hrot |].
        cbn in Hrot. inversion Hrot; subst dst.
        exists size, u. auto.
    + intros (Hstat & size & u & Hev & Hlt & -> & Hr).
      assert (Hp : exists removed, Worker.prune d = inr removed).
      { destruct (Worker.audio_dir d) as [found |] eqn:Hdir.
        - eexists. exact (prune_run d found Hdir (Hstat found eq_refl)).
        - unfold Worker.prune. rewrite Hdir. eauto. }
      destruct Hp as (removed & ->). rewrite Hev.
      destruct (Z.ltb_spec 5000000 size) as [_ | Hge]; [| lia].
      rewrite Hr. reflexivity.
  - intros found f e Hdir Hin Hf. unfold Worker.background_turn, Worker.prune.
    rewrite Hdir. destruct (keyed_fails found f e Hin Hf) as (e' & ->). reflexivity.
Qed.

Definition mp3 (name : string) (t : Z) : Worker.AudioFile :=
  Worker.mkAudioFile name (inr t) (inr tt).

Definition disk_demo : Worker.Disk :=
  Worker.mkDisk (Some [mp3 "b.mp3" 20; mp3 "a.mp3" 10; mp3 "c.mp3" 30])
    (Some (inr 5000001%Z)) 1714557600 (fun _ => inr tt).

Lemma worker_keeps_newest_witness :
  Worker.background_turn disk_demo
  = Worker.mkTurn [] (Some "events_rotated_1714557600.log") []
  /\ exists old recent,
       Permutation [mp3 "b.mp3" 20; mp3 "a.mp3" 10; mp3 "c.mp3" 30] (old ++ recent)
       /\ length recent = Nat.min 200 3
       /\ (forall a b, In a old -> In b recent -> (mtime a <= mtime b)%Z)
       /\ Worker.unlinked (Worker.background_turn disk_demo) = Worker.unlink_all old.
Proof.
  split; [reflexivity |].
  apply (worker_keeps_newest disk_demo [mp3 "b.mp3" 20; mp3 "a.mp3" 10; mp3 "c.mp3" 30] eq_refl).
  intros f [<- | [<- | [<- | []]]]; eexists; reflexivity.
Defined.
